(** * telstrasmsqt: the credential store, the API client facade and the
      message workflows of [telstrasmsqt.py], as a shallow embedding.

    Python values that travel through [json.load], [json.dump] and
    [response.json()] are values of [json]; a float is an IEEE double, read
    and printed the way CPython does.  Text is modelled with Rocq strings: a
    character is a code point in the range 0..255.  The program's
    object state ([self.bearer], [self.keys], the widgets it reads) is the
    record [App]; everything outside the process (the provider behind the
    [api] module, the [keys.json] file, the user answering dialogs) is either
    a field of [App] that records what happened or an oracle in [Env]. *)

From Stdlib Require Import Bool Arith ZArith List String Ascii Lia.
From Stdlib Require Import DecimalString.
From Stdlib Require DecimalZ.
Import ListNotations.

Local Open Scope list_scope.
Local Open Scope string_scope.

(** ** Characters used by the JSON codec *)

Definition dquote : ascii := "034"%char.
Definition backslash : ascii := "092"%char.
Definition LF : ascii := "010"%char.
Definition CR : ascii := "013"%char.
Definition TAB : ascii := "009"%char.
Definition BS : ascii := "008"%char.
Definition FF : ascii := "012"%char.

Definition code (c : ascii) : nat := nat_of_ascii c.

Definition is_digit (c : ascii) : bool := (48 <=? code c)%nat && (code c <=? 57)%nat.

(** A string of [n] spaces: [' ' * n]. *)
Fixpoint spaces (n : nat) : string :=
  match n with
  | O => ""
  | S n' => String " " (spaces n')
  end.

(** Decimal text of an integer, as [str(int)] and [json.dumps(int)] give. *)
Definition str_of_Z (z : Z) : string := NilZero.string_of_int (Z.to_int z).

(** ** Floats

    [float(text)] and [repr(float)] as CPython computes them: the nearest
    double with ties to even, and the shortest decimal that reads back. *)

Module Float.

(** A Python [float]: an IEEE 754 double.  A finite float is
    [mantissa * 2 ^ exponent] with the sign apart; the mantissa of a normal
    float has 53 bits, a subnormal one and zero have the least exponent. *)
Inductive float : Type :=
| nan
| inf (negative : bool)
| finite (negative : bool) (mantissa : Z) (exponent : Z).

Definition least_exponent : Z := -1074.
Definition greatest_exponent : Z := 971.

(** [num / den >= 2 ^ k] *)
Definition reaches_pow2 (num den k : Z) : bool :=
  if (0 <=? k)%Z then (den * 2 ^ k <=? num)%Z
  else (den <=? num * 2 ^ (- k))%Z.

(** The double nearest to [num / den] (both positive), ties to the even
    mantissa: what the C library's [strtod] gives. *)
Definition nearest (negative : bool) (num den : Z) : float :=
  let l := (Z.log2 num - Z.log2 den)%Z in
  let l2 := if reaches_pow2 num den l then l else (l - 1)%Z in
  let e := Z.max (l2 - 52) least_exponent in
  let n := if (0 <=? e)%Z then num else (num * 2 ^ (- e))%Z in
  let d := if (0 <=? e)%Z then (den * 2 ^ e)%Z else den in
  let q := (n / d)%Z in
  let r := (n mod d)%Z in
  let up := (d <? 2 * r)%Z || ((d =? 2 * r)%Z && Z.odd q) in
  let m := if up then (q + 1)%Z else q in
  let (m', e') := if (m =? 2 ^ 53)%Z then (2 ^ 52, e + 1)%Z else (m, e) in
  if (greatest_exponent <? e')%Z then inf negative
  else finite negative m' (if (m' =? 0)%Z then least_exponent else e').

(** [float(text)] for the decimal [digits * 10 ^ exp10]. *)
Definition of_decimal (negative : bool) (digits exp10 : Z) : float :=
  if (digits <=? 0)%Z then finite negative 0 least_exponent
  else if (400 <? exp10)%Z then inf negative
  else if (Z.log2 digits / 3 + 1 + exp10 <? -400)%Z
  then finite negative 0 least_exponent
  else if (0 <=? exp10)%Z then nearest negative (digits * 10 ^ exp10) 1
  else nearest negative digits (10 ^ (- exp10)).

(** [num / den >= 10 ^ k] *)
Definition reaches_pow10 (num den k : Z) : bool :=
  if (0 <=? k)%Z then (den * 10 ^ k <=? num)%Z
  else (den <=? num * 10 ^ (- k))%Z.

(** The position of the decimal point: the [k] with
    [10 ^ (k - 1) <= num / den < 10 ^ k]. *)
Definition point (num den : Z) : Z :=
  let guess := ((Z.log2 num - Z.log2 den) * 30103 / 100000)%Z in
  if reaches_pow10 num den (guess + 2) then (guess + 3)%Z
  else if reaches_pow10 num den (guess + 1) then (guess + 2)%Z
  else if reaches_pow10 num den guess then (guess + 1)%Z
  else if reaches_pow10 num den (guess - 1) then guess
  else (guess - 1)%Z.

(** The shortest decimal that reads back as the float
    [finite false m e]: for 1, 2, ... digits the two decimals next to the
    value are tried, and of two that read back the nearer one is taken.
    The answer is the digits as a number and the power of ten they are
    scaled by. *)
Fixpoint shortest (tries : nat) (p : Z) (m e : Z) (num den k : Z)
  : Z * Z :=
  match tries with
  | O => (0, 0)%Z
  | S tries' =>
      let s := (p - k)%Z in
      let n := if (0 <=? s)%Z then (num * 10 ^ s)%Z else num in
      let d := if (0 <=? s)%Z then den else (den * 10 ^ (- s))%Z in
      let lo := (n / d)%Z in
      let r := (n mod d)%Z in
      let hi := (lo + 1)%Z in
      let back c :=
        match of_decimal false c (- s) with
        | finite _ m' e' => (m' =? m)%Z && (e' =? e)%Z
        | _ => false
        end in
      let lower := (2 * r <? d)%Z || ((2 * r =? d)%Z && Z.even lo) in
      match back lo, back hi with
      | true, true => if lower then (lo, (- s)%Z) else (hi, (- s)%Z)
      | true, false => (lo, (- s)%Z)
      | false, true => (hi, (- s)%Z)
      | false, false => shortest tries' (p + 1)%Z m e num den k
      end
  end.

Fixpoint zeros (n : nat) : string :=
  match n with
  | O => ""
  | S n' => String "0" (zeros n')
  end.

Definition digits_of (z : Z) : string :=
  NilZero.string_of_uint (N.to_uint (Z.to_N z)).

(** The text without the zeros at its end. *)
Fixpoint strip_zeros (s : string) : string :=
  match s with
  | "" => ""
  | String c s' =>
      match strip_zeros s' with
      | "" => if Ascii.eqb c "0" then "" else String c ""
      | t => String c t
      end
  end.

Fixpoint take (n : nat) (s : string) : string :=
  match n, s with
  | S n', String c s' => String c (take n' s')
  | _, _ => ""
  end.

Fixpoint drop (n : nat) (s : string) : string :=
  match n, s with
  | S n', String _ s' => drop n' s'
  | _, _ => s
  end.

(** [float_repr_style] is ['short']: the digits [ds] with the point after
    the first [k] of them; an exponent when [k] is above 16 or below -3. *)
Definition layout (ds : string) (k : Z) : string :=
  if (k <=? -4)%Z || (16 <? k)%Z then
    let x := (k - 1)%Z in
    let xs := digits_of (Z.abs x) in
    take 1 ds
    ++ (match drop 1 ds with "" => "" | t => String "." t end)
    ++ "e" ++ (if (x <? 0)%Z then "-" else "+")
    ++ (if (String.length xs <? 2)%nat then String "0" xs else xs)
  else if (k <=? 0)%Z then "0." ++ zeros (Z.to_nat (- k)) ++ ds
  else if (k <? Z.of_nat (String.length ds))%Z
  then take (Z.to_nat k) ds ++ "." ++ drop (Z.to_nat k) ds
  else ds ++ zeros (Z.to_nat k - String.length ds) ++ ".0".

(** [repr(x)], which is also [str(x)]. *)
Definition repr (x : float) : string :=
  match x with
  | nan => "nan"
  | inf negative => if negative then "-inf" else "inf"
  | finite negative m e =>
      (if negative then "-" else "")
      ++ (if (m <=? 0)%Z then "0.0"
          else
            let num := if (0 <=? e)%Z then (m * 2 ^ e)%Z else m in
            let den := if (0 <=? e)%Z then 1%Z else (2 ^ (- e))%Z in
            let k := point num den in
            let (c, s) := shortest 17 1 m e num den k in
            let text := digits_of c in
            layout (strip_zeros text)
              (Z.of_nat (String.length text) + s))
  end.

(** [bool(x)] *)
Definition truthy (x : float) : bool :=
  match x with
  | finite _ m _ => negb (m =? 0)%Z
  | _ => true
  end.

End Float.

(** ** JSON values

    [json.load] builds Python values out of [None], [bool], [int], [float],
    [str], [list] and [dict]; a [dict] keeps insertion order, so it is an
    association list (with distinct keys when it is a real Python dict). *)

#[local] Set Warnings "-register-all".

Inductive json : Type :=
| JNull
| JBool (b : bool)
| JInt (z : Z)
| JFloat (x : Float.float)
| JStr (s : string)
| JList (l : list json)
| JDict (d : list (string * json)).

Module Dict.

(** [k in d] *)
Fixpoint mem (k : string) (d : list (string * json)) : bool :=
  match d with
  | [] => false
  | (k', _) :: d' => if String.eqb k k' then true else mem k d'
  end.

(** [d.get(k)]: [None] when the key is absent. *)
Fixpoint get (k : string) (d : list (string * json)) : option json :=
  match d with
  | [] => None
  | (k', v) :: d' => if String.eqb k k' then Some v else get k d'
  end.

(** [d[k] = v]: an existing key keeps its place, a new key goes last. *)
Fixpoint set (k : string) (v : json) (d : list (string * json))
  : list (string * json) :=
  match d with
  | [] => [(k, v)]
  | (k', v') :: d' =>
      if String.eqb k k' then (k', v) :: d' else (k', v') :: set k v d'
  end.

(** [dict(pairs)], the way the decoder builds an object: a repeated key
    keeps its first place and takes the last value. *)
Definition of_pairs (ps : list (string * json)) : list (string * json) :=
  fold_left (fun d kv => set (fst kv) (snd kv) d) ps [].

End Dict.

(** ** The JSON codec: [json.dump(obj, f, indent=4)] and [json.load(f)] *)

Module Json.

(** *** Encoder *)

Definition hex_digit (n : nat) : ascii :=
  if (n <? 10)%nat then ascii_of_nat (48 + n) else ascii_of_nat (87 + n).

(** [ensure_ascii] is on by default: everything outside [' '..'~'], the
    quote and the backslash are escaped; the short escapes are those of
    [ESCAPE_DCT], the rest is [\u00xx] (code points stay below 256). *)
Definition escape_char (c : ascii) : string :=
  if Ascii.eqb c dquote then String backslash (String dquote "")
  else if Ascii.eqb c backslash then String backslash (String backslash "")
  else if Ascii.eqb c LF then String backslash "n"
  else if Ascii.eqb c CR then String backslash "r"
  else if Ascii.eqb c TAB then String backslash "t"
  else if Ascii.eqb c BS then String backslash "b"
  else if Ascii.eqb c FF then String backslash "f"
  else if (32 <=? code c)%nat && (code c <=? 126)%nat then String c ""
  else String backslash
         (String "u" (String "0" (String "0"
            (String (hex_digit (code c / 16))
               (String (hex_digit (code c mod 16)) ""))))).

Fixpoint escape (s : string) : string :=
  match s with
  | "" => ""
  | String c s' => escape_char c ++ escape s'
  end.

Definition encode_string (s : string) : string :=
  String dquote (escape s ++ String dquote "").

(** ['\n' + _indent * level] with [_indent = ' ' * 4]. *)
Definition newline_indent (level : nat) : string :=
  String LF (spaces (4 * level)).

(** [floatstr]: [float.__repr__], and the three names of [allow_nan]. *)
Definition float_text (x : Float.float) : string :=
  match x with
  | Float.nan => "NaN"
  | Float.inf false => "Infinity"
  | Float.inf true => "-Infinity"
  | Float.finite _ _ _ => Float.repr x
  end.

(** [_iterencode] with an indent: the item separator is [','] followed by
    the newline and indent, the key separator is [': ']; an empty list is
    ['[]'] and an empty dict is ['{}']. *)
Fixpoint encode (level : nat) (v : json) : string :=
  match v with
  | JNull => "null"
  | JBool true => "true"
  | JBool false => "false"
  | JInt z => str_of_Z z
  | JFloat x => float_text x
  | JStr s => encode_string s
  | JList [] => "[]"
  | JList (x :: xs) =>
      "[" ++ newline_indent (S level) ++ encode (S level) x
      ++ (fix items (l : list json) : string :=
            match l with
            | [] => ""
            | y :: l' =>
                "," ++ newline_indent (S level) ++ encode (S level) y
                ++ items l'
            end) xs
      ++ newline_indent level ++ "]"
  | JDict [] => "{}"
  | JDict ((k, x) :: kxs) =>
      "{" ++ newline_indent (S level)
      ++ encode_string k ++ ": " ++ encode (S level) x
      ++ (fix members (l : list (string * json)) : string :=
            match l with
            | [] => ""
            | (k', y) :: l' =>
                "," ++ newline_indent (S level)
                ++ encode_string k' ++ ": " ++ encode (S level) y
                ++ members l'
            end) kxs
      ++ newline_indent level ++ "}"
  end.

Definition dumps (v : json) : string := encode 0 v.

(** *** Decoder *)

(** [WHITESPACE = ' \t\n\r'] *)
Definition is_ws (c : ascii) : bool :=
  Ascii.eqb c " " || Ascii.eqb c TAB || Ascii.eqb c LF || Ascii.eqb c CR.

Fixpoint skip_ws (s : string) : string :=
  match s with
  | String c s' => if is_ws c then skip_ws s' else s
  | "" => s
  end.

Definition hex_value (c : ascii) : option nat :=
  let n := code c in
  if (48 <=? n)%nat && (n <=? 57)%nat then Some (n - 48)
  else if (97 <=? n)%nat && (n <=? 102)%nat then Some (n - 87)
  else if (65 <=? n)%nat && (n <=? 70)%nat then Some (n - 55)
  else None.

(** The character of a one-letter escape ([BACKSLASH] table). *)
Definition unescape (c : ascii) : option ascii :=
  if Ascii.eqb c dquote then Some dquote
  else if Ascii.eqb c backslash then Some backslash
  else if Ascii.eqb c "/" then Some "/"%char
  else if Ascii.eqb c "b" then Some BS
  else if Ascii.eqb c "f" then Some FF
  else if Ascii.eqb c "n" then Some LF
  else if Ascii.eqb c "r" then Some CR
  else if Ascii.eqb c "t" then Some TAB
  else None.

Definition cons_char (c : ascii) (r : option (string * string))
  : option (string * string) :=
  match r with
  | Some (s, rest) => Some (String c s, rest)
  | None => None
  end.

(** [scanstring] in strict mode, entered after the opening quote: the text
    up to the closing quote and what follows it.  A raw control character,
    an unknown escape or a missing closing quote is an error.  A [\uXXXX]
    escape above code point 255 denotes a character the modelled alphabet
    lacks: the text is scanned on with a question mark in its place, and
    [wide] marks the text as one whose value the scanner does not hold. *)
Fixpoint scanstring (s : string) : option (string * string) :=
  match s with
  | "" => None
  | String c s' =>
      if Ascii.eqb c dquote then Some ("", s')
      else if Ascii.eqb c backslash then
        match s' with
        | "" => None
        | String e s'' =>
            if Ascii.eqb e "u" then
              match s'' with
              | String h1 (String h2 (String h3 (String h4 s4))) =>
                  match hex_value h1, hex_value h2,
                        hex_value h3, hex_value h4 with
                  | Some a, Some b, Some c', Some d =>
                      let n := ((a * 16 + b) * 16 + c') * 16 + d in
                      cons_char (if (n <? 256)%nat then ascii_of_nat n
                                 else "?"%char)
                        (scanstring s4)
                  | _, _, _, _ => None
                  end
              | _ => None
              end
            else
              match unescape e with
              | Some ch => cons_char ch (scanstring s'')
              | None => None
              end
        end
      else if (code c <? 32)%nat then None
      else cons_char c (scanstring s')
  end.

(** The longest run of decimal digits at the front of [s]. *)
Fixpoint span_digits (s : string) : string * string :=
  match s with
  | String c s' =>
      if is_digit c
      then let (ds, rest) := span_digits s' in (String c ds, rest)
      else ("", s)
  | "" => ("", "")
  end.

Definition Z_of_digits (ds : string) : Z :=
  match NilZero.uint_of_string ds with
  | Some u => Z.of_uint u
  | None => 0%Z
  end.

(** [NUMBER_RE], matched at the front of [s]: an optional minus sign and
    an integer part (a lone zero, or a non-zero digit and more digits),
    then optionally a point and digits, then optionally an exponent (e or
    E, an optional sign, digits).  An [int] when only the integer part
    matched, a [float] otherwise. *)
Definition scan_int_part (s : string) : option (string * string) :=
  match s with
  | String c rest =>
      if Ascii.eqb c "0" then Some ("0", rest)
      else if is_digit c then Some (span_digits s)
      else None
  | "" => None
  end.

Definition scan_frac (s : string) : string * string :=
  match s with
  | String c s' =>
      if Ascii.eqb c "." then
        match span_digits s' with
        | ("", _) => ("", s)
        | (ds, rest) => (String "." ds, rest)
        end
      else ("", s)
  | "" => ("", s)
  end.

Definition scan_exp (s : string) : string * string :=
  match s with
  | String e s' =>
      if Ascii.eqb e "e" || Ascii.eqb e "E" then
        match s' with
        | String sg s'' =>
            if Ascii.eqb sg "+" || Ascii.eqb sg "-" then
              match span_digits s'' with
              | ("", _) => ("", s)
              | (ds, rest) => (String e (String sg ds), rest)
              end
            else
              match span_digits s' with
              | ("", _) => ("", s)
              | (ds, rest) => (String e ds, rest)
              end
        | "" => ("", s)
        end
      else ("", s)
  | "" => ("", s)
  end.

Definition scan_sign (s : string) : bool * string :=
  match s with
  | String c s' => if Ascii.eqb c "-" then (true, s') else (false, s)
  | "" => (false, s)
  end.

(** The number after the [e] of an exponent part (none is 0). *)
Definition exponent_of (ep : string) : Z :=
  match ep with
  | String _ (String "-" ds) => (- Z_of_digits ds)%Z
  | String _ (String "+" ds) => Z_of_digits ds
  | String _ ds => Z_of_digits ds
  | "" => 0%Z
  end.

(** [float(integer + frac + exp)] *)
Definition float_of_parts (neg : bool) (ip fp ep : string) : Float.float :=
  let fraction := match fp with String _ ds => ds | "" => "" end in
  Float.of_decimal neg (Z_of_digits (ip ++ fraction))
    (exponent_of ep - Z.of_nat (String.length fraction)).

Definition scan_number (s : string) : option (json * string) :=
  let (neg, s0) := scan_sign s in
  match scan_int_part s0 with
  | None => None
  | Some (ip, r1) =>
      let (fp, r2) := scan_frac r1 in
      let (ep, r3) := scan_exp r2 in
      match fp, ep with
      | "", "" =>
          Some (JInt (if neg then - Z_of_digits ip else Z_of_digits ip)%Z,
                r3)
      | _, _ => Some (JFloat (float_of_parts neg ip fp ep), r3)
      end
  end.

(** [s.startswith(p)]: the rest of [s] after the prefix [p]. *)
Fixpoint strip_prefix (p s : string) : option string :=
  match p, s with
  | "", _ => Some s
  | String a p', String b s' =>
      if Ascii.eqb a b then strip_prefix p' s' else None
  | String _ _, "" => None
  end.

(** The literals tried after the number pattern failed. *)
Definition scan_constant (s : string) : option (json * string) :=
  match strip_prefix "NaN" s with
  | Some r => Some (JFloat Float.nan, r)
  | None =>
      match strip_prefix "Infinity" s with
      | Some r => Some (JFloat (Float.inf false), r)
      | None =>
          match strip_prefix "-Infinity" s with
          | Some r => Some (JFloat (Float.inf true), r)
          | None => None
          end
      end
  end.

Definition scan_atom (s : string) : option (json * string) :=
  match strip_prefix "null" s with
  | Some r => Some (JNull, r)
  | None =>
      match strip_prefix "true" s with
      | Some r => Some (JBool true, r)
      | None =>
          match strip_prefix "false" s with
          | Some r => Some (JBool false, r)
          | None =>
              match scan_number s with
              | Some r => Some r
              | None => scan_constant s
              end
          end
      end
  end.

(** [scan_once], [JSONArray] and [JSONObject].  [scan_once] is entered at
    the first character of a value; [scan_elems] at the first element of a
    non-empty array; [scan_members] after the opening quote of a key.  The
    recursion is bounded by [fuel]; [loads] gives enough of it. *)
Fixpoint scan_once (fuel : nat) (s : string) : option (json * string) :=
  match fuel with
  | O => None
  | S fuel' =>
      match s with
      | "" => None
      | String c s' =>
          if Ascii.eqb c dquote then
            match scanstring s' with
            | Some (str, r) => Some (JStr str, r)
            | None => None
            end
          else if Ascii.eqb c "{" then
            match skip_ws s' with
            | String c1 r =>
                if Ascii.eqb c1 "}" then Some (JDict [], r)
                else if Ascii.eqb c1 dquote then
                  match scan_members fuel' r with
                  | Some (ps, r') => Some (JDict (Dict.of_pairs ps), r')
                  | None => None
                  end
                else None
            | "" => None
            end
          else if Ascii.eqb c "[" then
            match skip_ws s' with
            | String c1 r =>
                if Ascii.eqb c1 "]" then Some (JList [], r)
                else
                  match scan_elems fuel' (String c1 r) with
                  | Some (vs, r') => Some (JList vs, r')
                  | None => None
                  end
            | "" => None
            end
          else scan_atom s
      end
  end

with scan_elems (fuel : nat) (s : string) : option (list json * string) :=
  match fuel with
  | O => None
  | S fuel' =>
      match scan_once fuel' s with
      | None => None
      | Some (v, r) =>
          match skip_ws r with
          | String c r1 =>
              if Ascii.eqb c "]" then Some ([v], r1)
              else if Ascii.eqb c "," then
                match scan_elems fuel' (skip_ws r1) with
                | Some (vs, r2) => Some (v :: vs, r2)
                | None => None
                end
              else None
          | "" => None
          end
      end
  end

with scan_members (fuel : nat) (s : string)
  : option (list (string * json) * string) :=
  match fuel with
  | O => None
  | S fuel' =>
      match scanstring s with
      | None => None
      | Some (k, r) =>
          match skip_ws r with
          | String c r1 =>
              if Ascii.eqb c ":" then
                match scan_once fuel' (skip_ws r1) with
                | None => None
                | Some (v, r2) =>
                    match skip_ws r2 with
                    | String c2 r3 =>
                        if Ascii.eqb c2 "}" then Some ([(k, v)], r3)
                        else if Ascii.eqb c2 "," then
                          match skip_ws r3 with
                          | String c3 r4 =>
                              if Ascii.eqb c3 dquote then
                                match scan_members fuel' r4 with
                                | Some (ps, r5) => Some ((k, v) :: ps, r5)
                                | None => None
                                end
                              else None
                          | "" => None
                          end
                        else None
                    | "" => None
                    end
                end
              else None
          | "" => None
          end
      end
  end.

(** [JSONDecoder.decode] with a bound on the turns: one value between
    optional whitespace and nothing else; [None] stands for
    [JSONDecodeError]. *)
Definition decode (fuel : nat) (s : string) : option json :=
  match scan_once fuel (skip_ws s) with
  | Some (v, r) =>
      match skip_ws r with
      | "" => Some v
      | String _ _ => None
      end
  | None => None
  end.

(** [json.loads]: two turns for every character are all the decoder can
    use. *)
Definition loads (s : string) : option json :=
  decode (2 * String.length s + 2) s.

(** *** What a text asks of the interpreter

    The decoder descends one level for every bracket it is inside of, and
    converts every integer literal with [int]; the interpreter bounds both
    (the recursion limit, the limit on the digits of an integer).  One pass
    over the text finds how deep the brackets outside of strings nest, how
    long the longest run of digits outside of strings is, and whether a
    string has an escape above code point 255. *)

Inductive place : Type :=
| Outside
| Inside
| Escaped
| Point1
| Point2.

Record survey : Type := {
  at_place : place;
  depth : nat;
  run : nat;
  deepest : nat;
  longest : nat;
  beyond : bool;
}.

Definition move (p : place) (v : survey) : survey :=
  {| at_place := p; depth := depth v; run := 0; deepest := deepest v;
     longest := longest v; beyond := beyond v |}.

Definition descend (v : survey) : survey :=
  {| at_place := Outside; depth := S (depth v); run := 0;
     deepest := Nat.max (deepest v) (S (depth v));
     longest := longest v; beyond := beyond v |}.

Definition ascend (v : survey) : survey :=
  {| at_place := Outside; depth := Nat.pred (depth v); run := 0;
     deepest := deepest v; longest := longest v; beyond := beyond v |}.

Definition count_digit (v : survey) : survey :=
  {| at_place := Outside; depth := depth v; run := S (run v);
     deepest := deepest v; longest := Nat.max (longest v) (S (run v));
     beyond := beyond v |}.

Definition mark_beyond (p : place) (v : survey) : survey :=
  {| at_place := p; depth := depth v; run := 0; deepest := deepest v;
     longest := longest v; beyond := true |}.

Definition step (v : survey) (c : ascii) : survey :=
  match at_place v with
  | Outside =>
      if Ascii.eqb c dquote then move Inside v
      else if Ascii.eqb c "[" || Ascii.eqb c "{" then descend v
      else if Ascii.eqb c "]" || Ascii.eqb c "}" then ascend v
      else if is_digit c then count_digit v
      else move Outside v
  | Inside =>
      if Ascii.eqb c dquote then move Outside v
      else if Ascii.eqb c backslash then move Escaped v
      else move Inside v
  | Escaped => if Ascii.eqb c "u" then move Point1 v else move Inside v
  | Point1 => if Ascii.eqb c "0" then move Point2 v else mark_beyond Point2 v
  | Point2 => if Ascii.eqb c "0" then move Inside v else mark_beyond Inside v
  end.

Fixpoint look (v : survey) (s : string) : survey :=
  match s with
  | "" => v
  | String c s' => look (step v c) s'
  end.

Definition first_look : survey :=
  {| at_place := Outside; depth := 0; run := 0; deepest := 0; longest := 0;
     beyond := false |}.

(** The marks below which no interpreter refuses a text: CPython takes an
    integer literal of up to 640 digits whatever its digit limit is set to,
    and the program decodes near the bottom of the call stack, where a
    hundred levels are far from any recursion limit. *)
Definition nesting_mark : nat := 100.
Definition digits_mark : nat := 640.

Definition strained (s : string) : bool :=
  let v := look first_look s in
  (nesting_mark <? deepest v)%nat || (digits_mark <? longest v)%nat.

(** The text has a string with a character the modelled alphabet lacks. *)
Definition wide (s : string) : bool := beyond (look first_look s).

End Json.

(** ** The Python operations the program applies to these values *)

Module Py.

(** [str.isspace] on one character: the separators of [str.split()] and
    the characters [int()] strips. *)
Definition is_space (c : ascii) : bool :=
  let n := code c in
  ((9 <=? n)%nat && (n <=? 13)%nat) || ((28 <=? n)%nat && (n <=? 32)%nat)
  || (n =? 133)%nat || (n =? 160)%nat.

Definition flush (cur : string) : list string :=
  match cur with
  | "" => []
  | _ => [cur]
  end.

(** [s.split()]: the maximal runs of non-space characters, in order. *)
Fixpoint split_from (cur s : string) : list string :=
  match s with
  | "" => flush cur
  | String c s' =>
      if is_space c then (flush cur ++ split_from "" s')%list
      else split_from (cur ++ String c "") s'
  end.

Definition split (s : string) : list string := split_from "" s.

(** [s.replace(c, '')] for a one-character [c]. *)
Fixpoint remove_char (c : ascii) (s : string) : string :=
  match s with
  | "" => ""
  | String a s' =>
      if Ascii.eqb a c then remove_char c s' else String a (remove_char c s')
  end.

Fixpoint lstrip (s : string) : string :=
  match s with
  | String c s' => if is_space c then lstrip s' else s
  | "" => ""
  end.

Fixpoint rev_string (acc s : string) : string :=
  match s with
  | "" => acc
  | String c s' => rev_string (String c acc) s'
  end.

Definition strip (s : string) : string :=
  rev_string "" (lstrip (rev_string "" (lstrip s))).

(** The digits of a decimal literal: digits with single underscores
    between them.  [seen] tells whether the previous character was a
    digit. *)
Fixpoint int_digits (acc : Z) (seen : bool) (s : string) : option Z :=
  match s with
  | "" => if seen then Some acc else None
  | String c s' =>
      if is_digit c
      then int_digits (10 * acc + Z.of_nat (code c - 48)) true s'
      else if Ascii.eqb c "_" && seen then int_digits acc false s'
      else None
  end.

(** [int(s)] in base ten; [None] stands for [ValueError]. *)
Definition int (s : string) : option Z :=
  match strip s with
  | String "-" ds => option_map Z.opp (int_digits 0 false ds)
  | String "+" ds => int_digits 0 false ds
  | ds => int_digits 0 false ds
  end.

(** [l[i]] with Python's negative indices; [None] stands for
    [IndexError]. *)
Definition norm_index {A} (l : list A) (i : Z) : option nat :=
  let n := Z.of_nat (List.length l) in
  let j := if (i <? 0)%Z then (i + n)%Z else i in
  if (0 <=? j)%Z && (j <? n)%Z then Some (Z.to_nat j) else None.

Definition index {A} (l : list A) (i : Z) : option A :=
  match norm_index l i with
  | Some j => nth_error l j
  | None => None
  end.

(** The list with position [j] replaced (positions are in range where this
    is used). *)
Fixpoint update {A} (l : list A) (j : nat) (x : A) : list A :=
  match l, j with
  | [], _ => []
  | _ :: l', O => x :: l'
  | y :: l', S j' => y :: update l' j' x
  end.

(** [needle in haystack] on strings. *)
Fixpoint prefix (p s : string) : bool :=
  match p, s with
  | "", _ => true
  | String a p', String b s' => Ascii.eqb a b && prefix p' s'
  | String _ _, "" => false
  end.

Fixpoint substring_of (p s : string) : bool :=
  prefix p s
  || match s with
     | "" => false
     | String _ s' => substring_of p s'
     end.

(** [bool(v)] *)
Definition truthy (v : json) : bool :=
  match v with
  | JNull => false
  | JBool b => b
  | JInt z => negb (z =? 0)%Z
  | JFloat x => Float.truthy x
  | JStr s => negb (String.eqb s "")
  | JList l => match l with [] => false | _ => true end
  | JDict d => match d with [] => false | _ => true end
  end.

(** [repr] of a string: single quotes unless the text has a single quote
    and no double quote. *)
Definition squote : ascii := "039"%char.

Fixpoint has_char (c : ascii) (s : string) : bool :=
  match s with
  | "" => false
  | String a s' => Ascii.eqb a c || has_char c s'
  end.

Definition printable (c : ascii) : bool :=
  let n := code c in
  ((32 <=? n)%nat && (n <=? 126)%nat)
  || ((161 <=? n)%nat && negb (n =? 173)%nat).

Definition repr_char (q c : ascii) : string :=
  if Ascii.eqb c backslash then String backslash (String backslash "")
  else if Ascii.eqb c q then String backslash (String q "")
  else if Ascii.eqb c LF then String backslash "n"
  else if Ascii.eqb c CR then String backslash "r"
  else if Ascii.eqb c TAB then String backslash "t"
  else if printable c then String c ""
  else String backslash
         (String "x" (String (Json.hex_digit (code c / 16))
                        (String (Json.hex_digit (code c mod 16)) ""))).

Fixpoint repr_chars (q : ascii) (s : string) : string :=
  match s with
  | "" => ""
  | String c s' => repr_char q c ++ repr_chars q s'
  end.

Definition repr_str (s : string) : string :=
  let q := if has_char squote s && negb (has_char dquote s)
           then dquote else squote in
  String q (repr_chars q s ++ String q "").

(** [repr(v)] *)
Fixpoint repr (v : json) : string :=
  match v with
  | JNull => "None"
  | JBool true => "True"
  | JBool false => "False"
  | JInt z => str_of_Z z
  | JFloat x => Float.repr x
  | JStr s => repr_str s
  | JList [] => "[]"
  | JList (x :: xs) =>
      "[" ++ repr x
      ++ (fix items (l : list json) : string :=
            match l with
            | [] => ""
            | y :: l' => ", " ++ repr y ++ items l'
            end) xs
      ++ "]"
  | JDict [] => "{}"
  | JDict ((k, x) :: kxs) =>
      "{" ++ repr_str k ++ ": " ++ repr x
      ++ (fix members (l : list (string * json)) : string :=
            match l with
            | [] => ""
            | (k', y) :: l' =>
                ", " ++ repr_str k' ++ ": " ++ repr y ++ members l'
            end) kxs
      ++ "}"
  end.

(** [str(v)], what an f-string field prints. *)
Definition str (v : json) : string :=
  match v with
  | JStr s => s
  | _ => repr v
  end.

End Py.

(** [l.append(x)] *)
Definition snoc {A} (l : list A) (x : A) : list A := (l ++ [x])%list.

(** ** Collaborators of the program *)

(** Exceptions the program can let escape, and the three classes
    [api_request] tells apart. *)
Inductive exn : Type :=
| TypeError
| KeyError
| IndexError
| ValueError
| AttributeError
| OSError
| UnicodeDecodeError
| RecursionError
| OverflowError.

Inductive fault : Type :=
| Timeout
| ConnectionError
| Unexpected (name : string).

(** A pure step that may raise. *)
Inductive attempt (A : Type) : Type :=
| Got (a : A)
| Threw (e : exn).

Arguments Got {A} a.
Arguments Threw {A} e.

Module requests.

(** What the program reads of a [requests.Response]: the status code, the
    body text, and the value [response.json()] decodes ([None] when the
    body is not JSON and [json()] raises). *)
Record Response : Type := {
  status_code : Z;
  text : string;
  json_body : option json;
}.

(** [bool(response)] is [response.ok]: no 4xx or 5xx status. *)
Definition ok (r : Response) : bool :=
  negb ((400 <=? status_code r)%Z && (status_code r <? 600)%Z).

(** [str(response)] *)
Definition str (r : Response) : string :=
  "<Response [" ++ str_of_Z (status_code r) ++ "]>".

End requests.

Module api.

(** The five functions of the [api] module with the arguments the program
    passes.  The module is not part of the sources; each call is one HTTP
    round trip answered by the provider. *)
Inductive call : Type :=
| get_bearer (key secret : json)
| get_number (bearer : json)
| new_number (bearer : json)
| get_message (bearer : json)
| send_message (bearer : json) (destination text : string).

(** [f.__name__] *)
Definition name (c : call) : string :=
  match c with
  | get_bearer _ _ => "get_bearer"
  | get_number _ => "get_number"
  | new_number _ => "new_number"
  | get_message _ => "get_message"
  | send_message _ _ _ => "send_message"
  end.

Inductive outcome : Type :=
| Returns (r : requests.Response)
| Raises (f : fault).

End api.

(** A [datetime], kept as the ISO text it was read from. *)
Record datetime : Type := { isoformat : string }.

(** The fields of a [datetime] that the program prints. *)
Record Clock : Type := {
  day : nat;
  month : nat;
  hour : nat;
  minute : nat;
  second : nat;
}.

Module message.

(** Modelled from the spec: [MessageType] of the [message] module, which
    is not among the sources; the two directions of the data model. *)
Inductive MessageType : Type := INCOMING | OUTGOING.

(** Modelled from the spec: [Message] of the [message] module, which is not
    among the sources.  A message is the record of the spec's data model,
    under the names the program uses for its fields; the fields hold
    whatever the program passes, and [msg_id] and [timestamp] are [None]
    when the program passes none. *)
Record Message : Type := {
  msg_type : MessageType;
  sender : json;
  destination : json;
  text : json;
  msg_id : json;
  timestamp : option datetime;
}.

End message.

Inductive Icon : Type := Information | Warning | Critical.

(** A [QMessageBox] that was shown. *)
Record MessageBox : Type := {
  box_title : string;
  box_text : string;
  box_icon : Icon;
}.

(** A row of the message table: sender, time and text cells. *)
Record Row : Type := {
  cell_sender : option string;
  cell_time : option string;
  cell_text : option string;
}.

(** The state of [keys.json] as [open] and [json.load] meet it: absent;
    present but failing to open (no permission, a directory); open but
    holding bytes that are no text in the locale's encoding, which the
    read inside [json.load] finds; or text. *)
Inductive file_state : Type :=
| FileMissing
| FileUnreadable
| FileNotText
| FileText (content : string).

(** What the program cannot decide: the provider's answer to a call after a
    history of calls; the user's answer to the key dialog given the items
    offered; the texts [datetime.fromisoformat] accepts (they differ between
    Python versions) and the fields it reads from one it accepts; whether
    the Qt binding in use takes [None] where it expects a [str] (as an empty
    text) or refuses it, and what its [QTableWidgetItem] makes of a bool, a
    float or an integer that is no C [int]; the exception, if any, with
    which the interpreter's limits end [json.load] on a text beyond the
    marks of [Json.strained]; and the value [json.load] builds from a text
    with characters the modelled alphabet lacks. *)
Record Env : Type := {
  provider : list api.call -> api.call -> api.outcome;
  getItem : list string -> string * bool;
  iso_ok : string -> bool;
  none_is_text : bool;
  iso_fields : string -> Clock;
  item_text : json -> attempt string;
  load_fault : string -> option exn;
  wide_value : string -> json;
}.

(** ** The application object and the world it acts on *)

Record App : Type := {
  bearer : json;
  phone_number : json;
  received_messages : list message.Message;
  num_label : string;
  num_text : string;
  msg_text : string;
  msg_table : list Row;
  keys : json;
  status : string;
  boxes : list MessageBox;
  stderr : list string;
  calls : list api.call;
  keys_file : file_state;
  writable : bool;
}.

Definition with_bearer (v : json) (a : App) : App :=
  {| bearer := v; phone_number := phone_number a;
     received_messages := received_messages a; num_label := num_label a;
     num_text := num_text a; msg_text := msg_text a;
     msg_table := msg_table a; keys := keys a; status := status a;
     boxes := boxes a; stderr := stderr a; calls := calls a;
     keys_file := keys_file a; writable := writable a |}.

Definition with_phone_number (v : json) (a : App) : App :=
  {| bearer := bearer a; phone_number := v;
     received_messages := received_messages a; num_label := num_label a;
     num_text := num_text a; msg_text := msg_text a;
     msg_table := msg_table a; keys := keys a; status := status a;
     boxes := boxes a; stderr := stderr a; calls := calls a;
     keys_file := keys_file a; writable := writable a |}.

Definition with_received_messages (v : list message.Message) (a : App) : App :=
  {| bearer := bearer a; phone_number := phone_number a;
     received_messages := v; num_label := num_label a;
     num_text := num_text a; msg_text := msg_text a;
     msg_table := msg_table a; keys := keys a; status := status a;
     boxes := boxes a; stderr := stderr a; calls := calls a;
     keys_file := keys_file a; writable := writable a |}.

Definition with_num_label (v : string) (a : App) : App :=
  {| bearer := bearer a; phone_number := phone_number a;
     received_messages := received_messages a; num_label := v;
     num_text := num_text a; msg_text := msg_text a;
     msg_table := msg_table a; keys := keys a; status := status a;
     boxes := boxes a; stderr := stderr a; calls := calls a;
     keys_file := keys_file a; writable := writable a |}.

Definition with_num_text (v : string) (a : App) : App :=
  {| bearer := bearer a; phone_number := phone_number a;
     received_messages := received_messages a; num_label := num_label a;
     num_text := v; msg_text := msg_text a;
     msg_table := msg_table a; keys := keys a; status := status a;
     boxes := boxes a; stderr := stderr a; calls := calls a;
     keys_file := keys_file a; writable := writable a |}.

Definition with_msg_text (v : string) (a : App) : App :=
  {| bearer := bearer a; phone_number := phone_number a;
     received_messages := received_messages a; num_label := num_label a;
     num_text := num_text a; msg_text := v;
     msg_table := msg_table a; keys := keys a; status := status a;
     boxes := boxes a; stderr := stderr a; calls := calls a;
     keys_file := keys_file a; writable := writable a |}.

Definition with_msg_table (v : list Row) (a : App) : App :=
  {| bearer := bearer a; phone_number := phone_number a;
     received_messages := received_messages a; num_label := num_label a;
     num_text := num_text a; msg_text := msg_text a;
     msg_table := v; keys := keys a; status := status a;
     boxes := boxes a; stderr := stderr a; calls := calls a;
     keys_file := keys_file a; writable := writable a |}.

Definition with_keys (v : json) (a : App) : App :=
  {| bearer := bearer a; phone_number := phone_number a;
     received_messages := received_messages a; num_label := num_label a;
     num_text := num_text a; msg_text := msg_text a;
     msg_table := msg_table a; keys := v; status := status a;
     boxes := boxes a; stderr := stderr a; calls := calls a;
     keys_file := keys_file a; writable := writable a |}.

Definition with_status (v : string) (a : App) : App :=
  {| bearer := bearer a; phone_number := phone_number a;
     received_messages := received_messages a; num_label := num_label a;
     num_text := num_text a; msg_text := msg_text a;
     msg_table := msg_table a; keys := keys a; status := v;
     boxes := boxes a; stderr := stderr a; calls := calls a;
     keys_file := keys_file a; writable := writable a |}.

Definition with_boxes (v : list MessageBox) (a : App) : App :=
  {| bearer := bearer a; phone_number := phone_number a;
     received_messages := received_messages a; num_label := num_label a;
     num_text := num_text a; msg_text := msg_text a;
     msg_table := msg_table a; keys := keys a; status := status a;
     boxes := v; stderr := stderr a; calls := calls a;
     keys_file := keys_file a; writable := writable a |}.

Definition with_stderr (v : list string) (a : App) : App :=
  {| bearer := bearer a; phone_number := phone_number a;
     received_messages := received_messages a; num_label := num_label a;
     num_text := num_text a; msg_text := msg_text a;
     msg_table := msg_table a; keys := keys a; status := status a;
     boxes := boxes a; stderr := v; calls := calls a;
     keys_file := keys_file a; writable := writable a |}.

Definition with_calls (v : list api.call) (a : App) : App :=
  {| bearer := bearer a; phone_number := phone_number a;
     received_messages := received_messages a; num_label := num_label a;
     num_text := num_text a; msg_text := msg_text a;
     msg_table := msg_table a; keys := keys a; status := status a;
     boxes := boxes a; stderr := stderr a; calls := v;
     keys_file := keys_file a; writable := writable a |}.

Definition with_keys_file (v : file_state) (a : App) : App :=
  {| bearer := bearer a; phone_number := phone_number a;
     received_messages := received_messages a; num_label := num_label a;
     num_text := num_text a; msg_text := msg_text a;
     msg_table := msg_table a; keys := keys a; status := status a;
     boxes := boxes a; stderr := stderr a; calls := calls a;
     keys_file := v; writable := writable a |}.

(** ** Computations: a state and exception monad over [App] *)

Inductive res (A : Type) : Type :=
| Ok (a : A) (st : App)
| Raise (e : exn) (st : App).

Arguments Ok {A} a st.
Arguments Raise {A} e st.

Definition M (A : Type) : Type := App -> res A.

Definition ret {A} (a : A) : M A := fun st => Ok a st.

Definition bind {A B} (m : M A) (k : A -> M B) : M B :=
  fun st =>
    match m st with
    | Ok a st' => k a st'
    | Raise e st' => Raise e st'
    end.

Definition raise {A} (e : exn) : M A := fun st => Raise e st.

Definition gets {A} (f : App -> A) : M A := fun st => Ok (f st) st.

Definition modify (f : App -> App) : M unit := fun st => Ok tt (f st).

Notation "x <- m ;; k" := (bind m (fun x => k))
  (at level 61, m at next level, right associativity).
Notation "m ;;; k" := (bind m (fun _ => k))
  (at level 61, right associativity).

(** The state a computation leaves, whether it returned or raised. *)
Definition final {A} (r : res A) : App :=
  match r with
  | Ok _ st => st
  | Raise _ st => st
  end.

(** How far a loop has come after a bounded number of turns. *)
Inductive progress : Type :=
| Finished (r : res unit)
| StillPolling (st : App).

Definition lift {A} (t : attempt A) : M A :=
  match t with
  | Got a => ret a
  | Threw e => raise e
  end.

(** [v[k]] with a string key: only a dict answers. *)
Definition subscript (v : json) (k : string) : attempt json :=
  match v with
  | JDict d =>
      match Dict.get k d with
      | Some x => Got x
      | None => Threw KeyError
      end
  | _ => Threw TypeError
  end.

(** [response.json()] *)
Definition json_of (r : requests.Response) : attempt json :=
  match requests.json_body r with
  | Some j => Got j
  | None => Threw ValueError
  end.

(** ** The program: class [App] of [telstrasmsqt.py] *)

(** What [json.load] does with a text. *)
Inductive loaded : Type :=
| Loaded (v : json)
| Malformed
| Refused (e : exn).

(** What is handed to a Qt parameter of type [str]: a Python [str], or some
    other object (the program passes caught exception objects). *)
Inductive qt_arg : Type :=
| Str (s : string)
| NotStr.

Section Program.

Variable env : Env.

(** [set_status]: the status bar shows [message]. *)
Definition set_status (message : string) : M unit :=
  modify (with_status message).

(** [show_message]: a modal box with the title, icon and text.  The
    binding of [QMessageBox.setText] converts nothing: an argument that is
    not a [str] raises [TypeError] before the box is shown. *)
Definition show_message (title : string) (message : qt_arg) (icon : Icon)
  : M unit :=
  match message with
  | Str s =>
      modify (fun st =>
                with_boxes (snoc (boxes st)
                              {| box_title := title; box_text := s;
                                 box_icon := icon |}) st)
  | NotStr => raise TypeError
  end.

(** [json.load(f)] on a file whose text is [content]: the value, or
    [JSONDecodeError] for a text that is no JSON, or another exception when
    a limit of the interpreter is met on the way.  Below the marks of
    [Json.strained] no limit is met; beyond them the environment tells. *)
Definition json_load (content : string) : loaded :=
  match (if Json.strained content then load_fault env content else None) with
  | Some e => Refused e
  | None =>
      match Json.loads content with
      | None => Malformed
      | Some v =>
          Loaded (if Json.wide content then wide_value env content else v)
      end
  end.

(** [load_keys]: [self.keys] is assigned only when the file opens and
    decodes; of what can go wrong, [FileNotFoundError] and
    [json.JSONDecodeError] are caught. *)
Definition load_keys : M unit :=
  fun st =>
    match keys_file st with
    | FileText content =>
        match json_load content with
        | Loaded v => Ok tt (with_keys v st)
        | Malformed =>
            show_message "Error parsing keys.json"
              (Str "Check that the file is formatted as per the example.")
              Critical st
        | Refused e => Raise e st
        end
    | FileMissing =>
        show_message "No existing keys.json file found"
          (Str "Manually add keys and the program will create a new config file.")
          Warning st
    | FileUnreadable => Raise OSError st
    | FileNotText => Raise UnicodeDecodeError st
    end.

(** [save_keys]: the file takes the encoded keys, or the write fails and
    the caught exception object is handed to [show_message]. *)
Definition save_keys : M unit :=
  fun st =>
    if writable st
    then Ok tt (with_keys_file (FileText (Json.dumps (keys st))) st)
    else show_message "Could not write to keys.json file" NotStr Critical st.

(** [init_ui], as far as it sets state the program reads back. *)
Definition init_ui : M unit :=
  set_status "Ready" ;;;
  modify (with_num_label "Num: N/A (request token)").

(** The fields [__init__] sets before it loads the keys. *)
Definition new_app (file : file_state) (can_write : bool) : App :=
  {| bearer := JNull; phone_number := JNull; received_messages := [];
     num_label := ""; num_text := ""; msg_text := ""; msg_table := [];
     keys := JList []; status := ""; boxes := []; stderr := [];
     calls := []; keys_file := file; writable := can_write |}.

(** [__init__] *)
Definition init : M unit := load_keys ;;; init_ui.

(** [api_request]: the call is issued; a response is returned as it is;
    the three classes of exception show a box, and the function then
    falls off its end and returns [None]. *)
Definition api_request (c : api.call) : M (option requests.Response) :=
  fun st =>
    let st1 := with_calls (snoc (calls st) c) st in
    match provider env (calls st) c with
    | api.Returns r => Ok (Some r) st1
    | api.Raises Timeout =>
        (show_message "Request timed out"
           (Str "Check connection and try again") Critical ;;;
         ret None) st1
    | api.Raises ConnectionError =>
        (show_message "Network problem"
           (Str "Check connection and try again") Critical ;;;
         ret None) st1
    | api.Raises (Unexpected _) =>
        (show_message ("Error calling " ++ api.name c ++ ", report bug")
           NotStr Critical ;;;
         ret None) st1
    end.

(** [check_response]; [caller] is the name [inspect.stack()] finds. *)
Definition check_response (caller : string)
    (response : option requests.Response) (success_code : Z) : M bool :=
  match response with
  | None => ret false
  | Some r =>
      if (requests.status_code r =? success_code)%Z then ret true
      else
        set_status ("Request method " ++ caller ++ " failed with code "
                    ++ str_of_Z (requests.status_code r) ++ ", check logs") ;;;
        modify (fun st =>
                  with_stderr
                    (snoc (stderr st)
                       (caller ++ ": " ++ requests.str r ++ " "
                        ++ requests.text r)) st) ;;;
        ret false
  end.

(** *** [choose_bearer] *)

(** What [enumerate(self.keys)] walks over. *)
Definition iterate (v : json) : attempt (list json) :=
  match v with
  | JList l => Got l
  | JDict d => Got (map (fun kv => JStr (fst kv)) d)
  | JStr s => Got (map (fun c => JStr (String c "")) (list_ascii_of_string s))
  | _ => Threw TypeError
  end.

(** [needle in k] *)
Definition contains (needle : string) (k : json) : attempt bool :=
  match k with
  | JDict d => Got (Dict.mem needle d)
  | JList l =>
      Got (existsb (fun x => match x with
                             | JStr s => String.eqb s needle
                             | _ => false
                             end) l)
  | JStr s => Got (Py.substring_of needle s)
  | _ => Threw TypeError
  end.

(** The label of entry [i]: its number or a placeholder, then its key. *)
Definition item_label (i : nat) (k : json) : attempt string :=
  match k with
  | JDict d =>
      let number := match Dict.get "number" d with
                    | Some v => v
                    | None => JNull
                    end in
      let shown := if Py.truthy number then Py.str number
                   else "[unknown number]" in
      match Dict.get "key" d with
      | Some key =>
          Got (str_of_Z (Z.of_nat i) ++ ". " ++ shown ++ " " ++ Py.str key)
      | None => Threw KeyError
      end
  | _ => Threw AttributeError
  end.

(** The items of the dialog: one label per entry that has a key and a
    secret, numbered by the entry's position counted from [i]. *)
Fixpoint key_items (i : nat) (ks : list json) : attempt (list string) :=
  match ks with
  | [] => Got []
  | k :: ks' =>
      match contains "key" k with
      | Threw e => Threw e
      | Got false => key_items (S i) ks'
      | Got true =>
          match contains "secret" k with
          | Threw e => Threw e
          | Got false => key_items (S i) ks'
          | Got true =>
              match item_label i k with
              | Threw e => Threw e
              | Got label =>
                  match key_items (S i) ks' with
                  | Got labels => Got (label :: labels)
                  | Threw e => Threw e
                  end
              end
          end
      end
  end.

(** [self.keys[key_index]] *)
Definition stored_entry (key_index : Z) : M json :=
  fun st =>
    match keys st with
    | JList l =>
        match Py.index l key_index with
        | Some e => Ok e st
        | None => Raise IndexError st
        end
    | JStr s =>
        match Py.index (list_ascii_of_string s) key_index with
        | Some c => Ok (JStr (String c "")) st
        | None => Raise IndexError st
        end
    | JDict _ => Raise KeyError st
    | _ => Raise TypeError st
    end.

(** [self.keys[key_index][field]] *)
Definition stored_field (key_index : Z) (field : string) : M json :=
  e <- stored_entry key_index ;;
  lift (subscript e field).

(** [key_index = len(self.keys)] and
    [self.keys.append({'key': key, 'secret': secret})] *)
Definition append_pair (key secret : json) : M Z :=
  fun st =>
    match keys st with
    | JList l =>
        Ok (Z.of_nat (List.length l))
           (with_keys (JList (snoc l (JDict [("key", key);
                                             ("secret", secret)]))) st)
    | JDict _ | JStr _ => Raise AttributeError st
    | _ => Raise TypeError st
    end.

(** [self.keys[key_index]['number'] = number] *)
Definition set_number (key_index : Z) (number : json) : M unit :=
  fun st =>
    match keys st with
    | JList l =>
        match Py.norm_index l key_index with
        | Some j =>
            match nth_error l j with
            | Some (JDict d) =>
                Ok tt (with_keys
                         (JList (Py.update l j
                                   (JDict (Dict.set "number" number d))))
                         st)
            | Some _ => Raise TypeError st
            | None => Raise IndexError st
            end
        | None => Raise IndexError st
        end
    | JDict _ => Raise KeyError st
    | _ => Raise TypeError st
    end.

(** [not phone_number]: [None], or a response that is not [ok]. *)
Definition falsy (response : option requests.Response) : bool :=
  match response with
  | None => true
  | Some r => negb (requests.ok r)
  end.

(** [phone_number.json()["destinationAddress"]] *)
Definition destination_address (response : option requests.Response)
  : attempt json :=
  match response with
  | None => Threw AttributeError
  | Some r =>
      match json_of r with
      | Got j => subscript j "destinationAddress"
      | Threw e => Threw e
      end
  end.

(** [response.json()["access_token"]] *)
Definition access_token (response : option requests.Response)
  : attempt json :=
  match response with
  | None => Threw AttributeError
  | Some r =>
      match json_of r with
      | Got j => subscript j "access_token"
      | Threw e => Threw e
      end
  end.

(** Lines 203 to 210: the number of the bearer just obtained.  The
    existing assignment is asked for first; when that answer is falsy a
    box says so and a new number is requested. *)
Definition resolve_number : M unit :=
  b <- gets bearer ;;
  assigned <- api_request (api.get_number b) ;;
  number <- (if falsy assigned then
               show_message "No number"
                 (Str "This bearer has no number associated. Will request a new one.")
                 Information ;;;
               b' <- gets bearer ;;
               api_request (api.new_number b')
             else ret assigned) ;;
  address <- lift (destination_address number) ;;
  modify (with_phone_number address).

(** Lines 212 to 217: save the phone number and the new key pair (if
    applicable). *)
Definition remember_number (key secret : json) (key_index : Z) : M unit :=
  index <- (if (key_index =? -1)%Z then append_pair key secret
            else ret key_index) ;;
  p <- gets phone_number ;;
  set_number index p ;;;
  save_keys.

(** Lines 198 to 219: the bearer request and, when it succeeds, the
    number resolution and the update of the stored keys. *)
Definition request_bearer (key secret : json) (key_index : Z) : M unit :=
  response <- api_request (api.get_bearer key secret) ;;
  success <- check_response "choose_bearer" response 200 ;;
  if success then
    token <- lift (access_token response) ;;
    modify (with_bearer token) ;;;
    set_status "Success! Token valid for one hour" ;;;
    resolve_number ;;;
    remember_number key secret key_index ;;;
    p <- gets phone_number ;;
    modify (with_num_label ("Num: " ++ Py.str p))
  else ret tt.

(** Lines 187 to 196 followed by the request: a choice of exactly two
    words is a typed pair and is checked for its lengths; any other choice
    is read as an item number. *)
Definition use_choice (chosen : string) : M unit :=
  match Py.split chosen with
  | [key; secret] =>
      if negb (String.length key =? 32)%nat
         || negb (String.length secret =? 16)%nat
      then show_message "Invalid key"
             (Str "Key must be of length 32 & secret of length 16.")
             Critical
      else request_bearer (JStr key) (JStr secret) (-1)
  | parts =>
      first <- lift (match parts with
                     | p :: _ => Got p
                     | [] => Threw IndexError
                     end) ;;
      n <- lift (match Py.int (Py.remove_char "." first) with
                 | Some n => Got n
                 | None => Threw ValueError
                 end) ;;
      let key_index := (n - 1)%Z in
      key <- stored_field key_index "key" ;;
      secret <- stored_field key_index "secret" ;;
      request_bearer key secret key_index
  end.

Definition choose_bearer : M unit :=
  ks <- gets keys ;;
  entries <- lift (iterate ks) ;;
  items <- lift (key_items 1 entries) ;;
  let (chosen, ok_pressed) := getItem env items in
  if negb (negb (String.eqb chosen "") && ok_pressed) then ret tt
  else use_choice chosen.

(** *** [get_message] *)

(** [datetime.fromisoformat(v)] *)
Definition fromisoformat (v : json) : attempt datetime :=
  match v with
  | JStr s =>
      if iso_ok env s then Got {| isoformat := s |} else Threw ValueError
  | _ => Threw TypeError
  end.

(** [QTableWidgetItem(v)]: the binding picks the constructor by the type
    of [v].  A [str] is the text of the item; an [int] is taken for the
    item type, of an item with no text; a list or a dict fits no
    constructor.  [None] is the empty text where the binding takes it for
    a [str]; what becomes of a bool, a float or an integer that is no C
    [int] differs between the versions of Python and of the binding. *)
Definition cell_of (v : json) : attempt string :=
  match v with
  | JStr s => Got s
  | JInt z =>
      if (- 2 ^ 31 <=? z)%Z && (z <? 2 ^ 31)%Z then Got ""
      else item_text env v
  | JNull => if none_is_text env then Got "" else Threw TypeError
  | JBool _ | JFloat _ => item_text env v
  | JList _ | JDict _ => Threw TypeError
  end.

(** [%d], [%m], [%H], [%M] and [%S]: two digits, with a zero in front of
    a single one. *)
Definition two_digits (n : nat) : string :=
  if (n <? 10)%nat then "0" ++ str_of_Z (Z.of_nat n)
  else str_of_Z (Z.of_nat n).

(** [datetime.strftime(t, "%d/%m %H:%M:%S")] *)
Definition strftime (t : datetime) : string :=
  let c := iso_fields env (isoformat t) in
  two_digits (day c) ++ "/" ++ two_digits (month c) ++ " "
  ++ two_digits (hour c) ++ ":" ++ two_digits (minute c) ++ ":"
  ++ two_digits (second c).

(** The text of the time cell; [strftime] wants a [datetime]. *)
Definition time_of (m : message.Message) : attempt string :=
  match message.timestamp m with
  | Some t => Got (strftime t)
  | None => Threw TypeError
  end.

Definition empty_row : Row :=
  {| cell_sender := None; cell_time := None; cell_text := None |}.

(** [setRowCount(n)] *)
Definition set_row_count (n : nat) (rows : list Row) : list Row :=
  (firstn n rows ++ repeat empty_row (n - List.length rows))%list.

(** [setItem(i, column, item)]; a row that does not exist takes no item. *)
Definition set_cell (i : nat) (f : Row -> Row) (rows : list Row) : list Row :=
  match nth_error rows i with
  | Some r => Py.update rows i (f r)
  | None => rows
  end.

(** The [Message] built from a poll response [j]: the sender, text and id
    the provider reports, and this session's number as destination. *)
Definition incoming_message (phone j : json) (time : datetime)
  : attempt message.Message :=
  match subscript j "senderAddress" with
  | Threw e => Threw e
  | Got from =>
      match subscript j "message" with
      | Threw e => Threw e
      | Got body =>
          match subscript j "messageId" with
          | Threw e => Threw e
          | Got id =>
              Got {| message.msg_type := message.INCOMING;
                     message.sender := from;
                     message.destination := phone;
                     message.text := body;
                     message.msg_id := id;
                     message.timestamp := Some time |}
          end
      end
  end.

(** [j["status"] == "EMPTY"] *)
Definition is_empty_marker (v : json) : bool :=
  match v with
  | JStr s => String.eqb s "EMPTY"
  | _ => false
  end.

(** The table rows after the message at position [i] is shown: the row
    count, then the sender, time and text cells in turn. *)
Definition show_row (i : nat) (m : message.Message) : M unit :=
  modify (fun st => with_msg_table (set_row_count (i + 1) (msg_table st)) st) ;;;
  from <- lift (cell_of (message.sender m)) ;;
  modify (fun st =>
            with_msg_table
              (set_cell i (fun r => {| cell_sender := Some from;
                                       cell_time := cell_time r;
                                       cell_text := cell_text r |})
                 (msg_table st)) st) ;;;
  time <- lift (time_of m) ;;
  modify (fun st =>
            with_msg_table
              (set_cell i (fun r => {| cell_sender := cell_sender r;
                                       cell_time := Some time;
                                       cell_text := cell_text r |})
                 (msg_table st)) st) ;;;
  body <- lift (cell_of (message.text m)) ;;
  modify (fun st =>
            with_msg_table
              (set_cell i (fun r => {| cell_sender := cell_sender r;
                                       cell_time := cell_time r;
                                       cell_text := Some body |})
                 (msg_table st)) st).

(** One turn of the [while True] loop; [true] is the [break]. *)
Definition poll_once : M bool :=
  b <- gets bearer ;;
  response <- api_request (api.get_message b) ;;
  success <- check_response "get_message" response 200 ;;
  if success then
    j <- lift (match response with
               | Some r => json_of r
               | None => Threw AttributeError
               end) ;;
    marker <- lift (subscript j "status") ;;
    if is_empty_marker marker then ret true
    else
      stamp <- lift (subscript j "sentTimestamp") ;;
      time <- lift (fromisoformat stamp) ;;
      phone <- gets phone_number ;;
      m <- lift (incoming_message phone j time) ;;
      modify (fun st =>
                with_received_messages (snoc (received_messages st) m) st) ;;;
      i <- gets (fun st => List.length (received_messages st) - 1) ;;
      show_row i m ;;;
      ret false
  else ret false.

(** The loop, for at most [fuel] turns: it has returned or raised, or it
    is still polling, in the state reached. *)
Fixpoint drain (fuel : nat) (st : App) : progress :=
  match fuel with
  | O => StillPolling st
  | S fuel' =>
      match poll_once st with
      | Ok true st' => Finished (Ok tt st')
      | Ok false st' => drain fuel' st'
      | Raise e st' => Finished (Raise e st')
      end
  end.

Definition get_message (fuel : nat) (st : App) : progress :=
  match bearer st with
  | JNull => Finished (set_status "Request bearer first" st)
  | _ =>
      match drain fuel (with_status "Fetching messages..." st) with
      | Finished (Ok _ st') =>
          Finished (set_status "Fetched all messages" st')
      | other => other
      end
  end.

(** *** [send_message] *)

(** The [Message] built at the top of [send_message]. *)
Definition outgoing_message (st : App) : message.Message :=
  {| message.msg_type := message.OUTGOING;
     message.sender := phone_number st;
     message.destination := JStr (num_text st);
     message.text := JStr (msg_text st);
     message.msg_id := JNull;
     message.timestamp := None |}.

Definition send_message : M unit :=
  fun st =>
    match bearer st with
    | JNull => set_status "Request bearer first" st
    | _ =>
        let m := outgoing_message st in
        match message.destination m, message.text m with
        | JStr destination, JStr text =>
            if (String.length destination =? 0)%nat
            then set_status "Number cannot be blank" st
            else if (String.length text =? 0)%nat
            then set_status "Message cannot be blank" st
            else
              (set_status ("Sending message to " ++ destination) ;;;
               b <- gets bearer ;;
               response <- api_request
                             (api.send_message b destination text) ;;
               success <- check_response "send_message" response 201 ;;
               if success then
                 set_status "Request to send message successful" ;;;
                 modify (with_num_text "") ;;;
                 modify (with_msg_text "")
               else set_status "Request to send message failed") st
        | _, _ => Raise TypeError st
        end
    end.

End Program.

(** ** Vocabulary of the properties *)

(** The box [api_request] shows for a timeout. *)
Definition timeout_box : MessageBox :=
  {| box_title := "Request timed out";
     box_text := "Check connection and try again";
     box_icon := Critical |}.

(** The box [use_choice] shows for a typed pair of the wrong lengths. *)
Definition invalid_key_box : MessageBox :=
  {| box_title := "Invalid key";
     box_text := "Key must be of length 32 & secret of length 16.";
     box_icon := Critical |}.

(** The boxes [load_keys] shows for an absent file and for a file that does
    not decode. *)
Definition missing_box : MessageBox :=
  {| box_title := "No existing keys.json file found";
     box_text :=
       "Manually add keys and the program will create a new config file.";
     box_icon := Warning |}.

Definition corrupt_box : MessageBox :=
  {| box_title := "Error parsing keys.json";
     box_text := "Check that the file is formatted as per the example.";
     box_icon := Critical |}.

(** The exception that opening, reading or decoding the keys file ends
    with and [load_keys] does not catch, if there is one. *)
Definition uncaught (env : Env) (file : file_state) : option exn :=
  match file with
  | FileMissing => None
  | FileUnreadable => Some OSError
  | FileNotText => Some UnicodeDecodeError
  | FileText content =>
      match json_load env content with
      | Refused e => Some e
      | _ => None
      end
  end.

(** The state a bounded run of the polling loop has reached. *)
Definition reached (p : progress) : App :=
  match p with
  | Finished r => final r
  | StillPolling st => st
  end.

(** The side of a message that its direction names holds [phone]. *)
Definition own_side (phone : json) (m : message.Message) : Prop :=
  match message.msg_type m with
  | message.OUTGOING => message.sender m = phone
  | message.INCOMING => message.destination m = phone
  end.

(** The invariant as the data model words it: the side the direction names
    holds [phone], and the other side does not. *)
Definition one_sided (phone : json) (m : message.Message) : Prop :=
  match message.msg_type m with
  | message.OUTGOING =>
      message.sender m = phone /\ message.destination m <> phone
  | message.INCOMING =>
      message.destination m = phone /\ message.sender m <> phone
  end.

(** What a poll response carries when a message was queued. *)
Record Delivery : Type := {
  from : string;
  body : string;
  id : json;
  stamp : string;
}.

(** A poll response with status 200 whose body is an object that has a
    [status] other than the empty marker and the four fields of a queued
    message. *)
Definition delivers (r : requests.Response) (dv : Delivery) : Prop :=
  requests.status_code r = 200%Z
  /\ exists d marker,
       requests.json_body r = Some (JDict d)
       /\ Dict.get "status" d = Some marker
       /\ is_empty_marker marker = false
       /\ Dict.get "senderAddress" d = Some (JStr (from dv))
       /\ Dict.get "message" d = Some (JStr (body dv))
       /\ Dict.get "messageId" d = Some (id dv)
       /\ Dict.get "sentTimestamp" d = Some (JStr (stamp dv)).

(** A poll response with status 200 whose body is an object with [status]
    equal to ["EMPTY"]. *)
Definition signals_empty (r : requests.Response) : Prop :=
  requests.status_code r = 200%Z
  /\ exists d,
       requests.json_body r = Some (JDict d)
       /\ Dict.get "status" d = Some (JStr "EMPTY").

(** The message a delivery is received as by a session with number
    [phone]. *)
Definition received_as (phone : json) (dv : Delivery) : message.Message :=
  {| message.msg_type := message.INCOMING;
     message.sender := JStr (from dv);
     message.destination := phone;
     message.text := JStr (body dv);
     message.msg_id := id dv;
     message.timestamp := Some {| isoformat := stamp dv |} |}.

(** A poll attempt that fails: a timeout or a connection error, for which
    [api_request] returns [None], or a response whose status is not 200. *)
Definition poll_fails (o : api.outcome) : Prop :=
  match o with
  | api.Raises Timeout => True
  | api.Raises ConnectionError => True
  | api.Raises (Unexpected _) => False
  | api.Returns r => requests.status_code r <> 200%Z
  end.

(** The history of calls after [n] more polls. *)
Fixpoint polls (history : list api.call) (poll : api.call) (n : nat)
  : list api.call :=
  match n with
  | O => history
  | S n' => polls (snoc history poll) poll n'
  end.

(** [not phone_number], in terms of what the provider did with the
    [get_number] call: the program goes on as if no number were assigned
    whenever the answer is falsy, which is a response with a 4xx or 5xx
    status, or no response at all after a call that failed. *)
Definition reports_none (o : api.outcome) : bool :=
  match o with
  | api.Returns r => negb (requests.ok r)
  | api.Raises _ => true
  end.

(** The [destinationAddress] an answer carries. *)
Definition address_from (o : api.outcome) : option json :=
  match o with
  | api.Returns r =>
      match destination_address (Some r) with
      | Got a => Some a
      | Threw _ => None
      end
  | api.Raises _ => None
  end.




(** The upsert of the bearer workflow: with the index -1, the mark of a
    typed pair, a new entry goes to the end of the list; with any other
    index the entry Python's indexing finds there gets its [number] field
    set.  [upserts l key secret index stored] relates the index the
    workflow is entered with to the list [stored number] it must leave. *)
Inductive upserts (l : list json) (key secret : json)
  : Z -> (json -> list json) -> Prop :=
| appends :
    upserts l key secret (-1)
      (fun number =>
         snoc l (JDict [("key", key); ("secret", secret);
                        ("number", number)]))
| updates (index : Z) (n : nat) (d : list (string * json)) :
    index <> (-1)%Z ->
    Py.norm_index l index = Some n ->
    nth_error l n = Some (JDict d) ->
    upserts l key secret index
      (fun number => Py.update l n (JDict (Dict.set "number" number d))).

(** The choices that lead to a bearer request: a typed pair of the right
    lengths, or a choice of another number of words whose first word reads
    as an item number.  The item number less one is the index, and the
    entry is the one Python's indexing finds there: for the numbers from 1
    to the length of the list this is the entry whose label has that
    number; the number 0 and the numbers below count from the end of the
    list. *)
Inductive resolves (l : list json) (chosen : string)
  : json -> json -> Z -> Prop :=
| typed_fresh (key secret : string) :
    Py.split chosen = [key; secret] ->
    String.length key = 32 ->
    String.length secret = 16 ->
    resolves l chosen (JStr key) (JStr secret) (-1)
| selected (first : string) (rest : list string) (number : Z)
    (entry key secret : json) :
    Py.split chosen = first :: rest ->
    List.length rest <> 1 ->
    Py.int (Py.remove_char "." first) = Some number ->
    Py.index l (number - 1) = Some entry ->
    subscript entry "key" = Got key ->
    subscript entry "secret" = Got secret ->
    resolves l chosen key secret (number - 1).

(** The two inner loops of [Json.encode] under names of their own: the
    items after the first one of a list, and the members after the first
    one of a dict. *)
Fixpoint encode_items (level : nat) (l : list json) : string :=
  match l with
  | [] => ""
  | y :: l' =>
      "," ++ Json.newline_indent (S level) ++ Json.encode (S level) y
      ++ encode_items level l'
  end.

Fixpoint encode_members (level : nat) (l : list (string * json)) : string :=
  match l with
  | [] => ""
  | (k, y) :: l' =>
      "," ++ Json.newline_indent (S level)
      ++ Json.encode_string k ++ ": " ++ Json.encode (S level) y
      ++ encode_members level l'
  end.

(** The keys of a dict are distinct (as they are in every Python dict). *)
Fixpoint distinct_keys (d : list (string * json)) : bool :=
  match d with
  | [] => true
  | (k, _) :: d' => negb (Dict.mem k d') && distinct_keys d'
  end.

(** Values without numbers: [None], booleans, strings, and lists and dicts
    of such values. *)
Fixpoint textual (v : json) : bool :=
  match v with
  | JNull | JBool _ | JStr _ => true
  | JInt _ | JFloat _ => false
  | JList l => forallb textual l
  | JDict d => distinct_keys d && forallb (fun kv => textual (snd kv)) d
  end.

(** A bound on the turns the decoder takes for a value. *)
Fixpoint size (v : json) : nat :=
  match v with
  | JList l => 1 + list_sum (map (fun x => 1 + size x) l)
  | JDict d => 1 + list_sum (map (fun kv => 1 + size (snd kv)) d)
  | _ => 1
  end.

(** The turns of the decoder never run short: a value read with some
    bound on the turns is read with every bound of two turns for each
    character consumed (one less for the items of a list and the members of
    a dict). *)
Definition turns_suffice (fuel : nat) : Prop :=
  (forall s v r,
      Json.scan_once fuel s = Some (v, r) ->
      String.length r < String.length s
      /\ forall g, 2 * (String.length s - String.length r) <= g ->
                   Json.scan_once g s = Some (v, r))
  /\ (forall s vs r,
         Json.scan_elems fuel s = Some (vs, r) ->
         String.length r + 2 <= String.length s
         /\ forall g, 2 * (String.length s - String.length r) - 1 <= g ->
                      Json.scan_elems g s = Some (vs, r))
  /\ (forall s ps r,
         Json.scan_members fuel s = Some (ps, r) ->
         String.length r + 4 <= String.length s
         /\ forall g, 2 * (String.length s - String.length r) - 1 <= g ->
                      Json.scan_members g s = Some (ps, r)).

(** A credential entry of the data model: a dict with a [key] and a
    [secret], both strings, possibly a [number] that is a string or [None],
    and no other field.  (The lengths of the key and the secret play no
    part in storing them and are not asked for.) *)
Definition is_text (v : json) : bool :=
  match v with
  | JStr _ => true
  | _ => false
  end.

Definition is_text_or_none (v : json) : bool :=
  match v with
  | JStr _ | JNull => true
  | _ => false
  end.

Definition credential_field (kv : string * json) : bool :=
  ((String.eqb (fst kv) "key" || String.eqb (fst kv) "secret")
   && is_text (snd kv))
  || (String.eqb (fst kv) "number" && is_text_or_none (snd kv)).

Definition credential_entry (e : json) : bool :=
  match e with
  | JDict d =>
      distinct_keys d && Dict.mem "key" d && Dict.mem "secret" d
      && forallb credential_field d
  | _ => false
  end.

(** A valid sequence of credential entries. *)
Definition credentials (v : json) : bool :=
  match v with
  | JList l => forallb credential_entry l
  | _ => false
  end.

(** The decoder reads back what the encoder wrote, for a value, for the
    items of a list and for the members of a dict, given turns enough. *)
Definition reads_back (fuel : nat) : Prop :=
  (forall v level rest,
      textual v = true -> size v <= fuel ->
      Json.scan_once fuel (Json.encode level v ++ rest) = Some (v, rest))
  /\ (forall x xs level rest,
         forallb textual (x :: xs) = true ->
         list_sum (map (fun y => 1 + size y) (x :: xs)) <= fuel ->
         Json.scan_elems fuel
           (Json.encode (S level) x
            ++ encode_items level xs
            ++ Json.newline_indent level ++ "]" ++ rest)
         = Some (x :: xs, rest))
  /\ (forall k x kxs level rest,
         forallb (fun kv => textual (snd kv)) ((k, x) :: kxs) = true ->
         list_sum (map (fun kv => 1 + size (snd kv)) ((k, x) :: kxs)) <= fuel ->
         Json.scan_members fuel
           (Json.escape k ++ String dquote
              (": " ++ Json.encode (S level) x
               ++ encode_members level kxs
               ++ Json.newline_indent level ++ "}" ++ rest))
         = Some ((k, x) :: kxs, rest)).

(** A character that, outside of a string, neither opens or closes
    anything nor counts as a digit. *)
Definition quiet (c : ascii) : bool :=
  negb (Ascii.eqb c dquote || Ascii.eqb c "[" || Ascii.eqb c "{"
        || Ascii.eqb c "]" || Ascii.eqb c "}" || is_digit c).

Fixpoint quiet_text (s : string) : bool :=
  match s with
  | "" => true
  | String c s' => quiet c && quiet_text s'
  end.

(** The pass over a text is between two values at depth [d], and has met
    nothing that strains the decoder: no nesting beyond two levels, no
    digit outside of a string, no character beyond the alphabet. *)
Definition calm (d : nat) (v : Json.survey) : Prop :=
  Json.at_place v = Json.Outside
  /\ Json.depth v = d
  /\ Json.deepest v <= 2
  /\ Json.longest v = 0
  /\ Json.beyond v = false.

(** What one turn of the polling loop adds is an incoming message for
    the session's number. *)
Definition incoming_for (phone : json) (m : message.Message) : Prop :=
  message.msg_type m = message.INCOMING /\ message.destination m = phone.

(** ** Sample providers, users and sessions *)

Module Scenario.

(** The fields of a text of the form [YYYY-MM-DD*HH:MM:SS], with or
    without more after it, which every version of [fromisoformat] reads the
    same way. *)
Definition field_at (start : nat) (s : string) : nat :=
  Z.to_nat (Json.Z_of_digits (String.substring start 2 s)).

Definition clock_of (s : string) : Clock :=
  {| day := field_at 8 s; month := field_at 5 s; hour := field_at 11 s;
     minute := field_at 14 s; second := field_at 17 s |}.

(** A response with a JSON body. *)
Definition response (status : Z) (body : json) : requests.Response :=
  {| requests.status_code := status;
     requests.text := Json.dumps body;
     requests.json_body := Some body |}.

(** A provider that answers the n-th call of the session with the n-th
    entry of a script and times out when the script is over. *)
Definition script (answers : list api.outcome)
  : list api.call -> api.call -> api.outcome :=
  fun history _ => nth (List.length history) answers (api.Raises Timeout).

Definition key32 : string := "0123456789abcdef0123456789abcdef".
Definition secret16 : string := "0123456789abcdef".
Definition own_number : string := "+61400000001".

(** A provider that is never reached in time and a user who cancels. *)
Definition offline : Env :=
  {| provider := script [];
     getItem := fun _ => ("", false);
     iso_ok := fun _ => true;
     none_is_text := false;
     iso_fields := clock_of;
     item_text := fun _ => Threw TypeError;
     load_fault := fun _ => None;
     wide_value := fun _ => JNull |}.

(** Brackets nested [n] deep. *)
Fixpoint nested (n : nat) : string :=
  match n with
  | O => ""
  | S n' => "[" ++ nested n' ++ "]"
  end.

(** An interpreter with a recursion limit and a digit limit that are as
    low as can be: it refuses every text beyond the marks. *)
Definition tight : Env :=
  {| provider := script [];
     getItem := fun _ => ("", false);
     iso_ok := fun _ => true;
     none_is_text := false;
     iso_fields := clock_of;
     item_text := fun _ => Threw TypeError;
     load_fault :=
       fun s =>
         if (Json.nesting_mark <? Json.deepest (Json.look Json.first_look s))%nat
         then Some RecursionError else Some ValueError;
     wide_value := fun _ => JNull |}.

(** A session that holds a token and a number. *)
Definition signed_in (to body : string) : App :=
  with_msg_text body
    (with_num_text to
       (with_phone_number (JStr own_number)
          (with_bearer (JStr "token") (new_app FileMissing true)))).


(** A user who picks the first item offered. *)
Definition picks_first : Env :=
  {| provider := script [];
     getItem := fun items => (nth 0 items "", true);
     iso_ok := fun _ => true;
     none_is_text := false;
     iso_fields := clock_of;
     item_text := fun _ => Threw TypeError;
     load_fault := fun _ => None;
     wide_value := fun _ => JNull |}.


(** The body of a poll response for a queued message. *)
Definition queued (dv : Delivery) : json :=
  JDict [("status", JStr "RECEIVED");
         ("destinationAddress", JStr own_number);
         ("senderAddress", JStr (from dv));
         ("message", JStr (body dv));
         ("messageId", id dv);
         ("sentTimestamp", JStr (stamp dv))].

Definition hello : Delivery :=
  {| from := "+61400000002"; body := "hello"; id := JStr "m-1";
     stamp := "2020-01-02T03:04:05+10:00" |}.

(** A provider that hands out the same message twice and then reports an
    empty queue. *)
Definition twice_then_empty : Env :=
  {| provider :=
       script [api.Returns (response 200 (queued hello));
               api.Returns (response 200 (queued hello));
               api.Returns (response 200 (JDict [("status", JStr "EMPTY")]))];
     getItem := fun _ => ("", false);
     iso_ok := fun _ => true;
     none_is_text := false;
     iso_fields := clock_of;
     item_text := fun _ => Threw TypeError;
     load_fault := fun _ => None;
     wide_value := fun _ => JNull |}.

(** A provider that answers every call with status 503. *)
Definition unavailable : Env :=
  {| provider := fun _ _ => api.Returns (response 503 JNull);
     getItem := fun _ => ("", false);
     iso_ok := fun _ => true;
     none_is_text := false;
     iso_fields := clock_of;
     item_text := fun _ => Threw TypeError;
     load_fault := fun _ => None;
     wide_value := fun _ => JNull |}.

(** A first login: the user types a pair, the provider grants a token,
    has no number for it and assigns one on request. *)
Definition first_login : Env :=
  {| provider :=
       script [api.Returns
                 (response 200 (JDict [("access_token", JStr "token")]));
               api.Returns (response 404 JNull);
               api.Returns
                 (response 201
                    (JDict [("destinationAddress", JStr own_number)]))];
     getItem := fun _ => (key32 ++ " " ++ secret16, true);
     iso_ok := fun _ => true;
     none_is_text := false;
     iso_fields := clock_of;
     item_text := fun _ => Threw TypeError;
     load_fault := fun _ => None;
     wide_value := fun _ => JNull |}.

(** Two stored entries, the second without a number yet; the first
    secret has a quote, a backslash and a line break in it. *)
Definition two_entries : json :=
  JList [JDict [("key", JStr key32);
                ("secret", JStr (String dquote (String backslash
                                   (String LF "0123456789abc"))));
                ("number", JStr own_number)];
         JDict [("key", JStr key32); ("secret", JStr secret16)]].

(** A returning user: the store holds [two_entries], the user picks the
    second item, and the provider has a number for the bearer. *)
Definition returning : Env :=
  {| provider :=
       script [api.Returns
                 (response 200 (JDict [("access_token", JStr "token")]));
               api.Returns
                 (response 200
                    (JDict [("destinationAddress", JStr "+61400000003")]))];
     getItem := fun items => (nth 1 items "", true);
     iso_ok := fun _ => true;
     none_is_text := false;
     iso_fields := clock_of;
     item_text := fun _ => Threw TypeError;
     load_fault := fun _ => None;
     wide_value := fun _ => JNull |}.


(** A stored entry with an empty key, and a user who picks its label. *)
Definition empty_key : json :=
  JList [JDict [("key", JStr ""); ("secret", JStr secret16);
                ("number", JStr own_number)]].

(** A provider whose queued message names its sender by a number. *)
Definition numeric_sender : Env :=
  {| provider :=
       script [api.Returns
                 (response 200
                    (JDict [("status", JStr "RECEIVED");
                            ("senderAddress", JInt 5);
                            ("message", JStr "hello");
                            ("messageId", JStr "m-1");
                            ("sentTimestamp",
                             JStr "2020-01-02T03:04:05+10:00")]));
               api.Returns (response 200 (JDict [("status", JStr "EMPTY")]))];
     getItem := fun _ => ("", false);
     iso_ok := fun _ => true;
     none_is_text := false;
     iso_fields := clock_of;
     item_text := fun _ => Threw TypeError;
     load_fault := fun _ => None;
     wide_value := fun _ => JNull |}.

(** A user who types item number 0 by hand, with the same provider. *)
Definition types_item_zero : Env :=
  {| provider := provider returning;
     getItem := fun _ => ("0. no such item", true);
     iso_ok := fun _ => true;
     none_is_text := false;
     iso_fields := clock_of;
     item_text := fun _ => Threw TypeError;
     load_fault := fun _ => None;
     wide_value := fun _ => JNull |}.

End Scenario.


(** ** Vocabulary of the further properties *)

(** A computation keeps a relation between the state it starts in and the
    state it leaves, whether it returns or raises. *)
Definition keeps {A} (R : App -> App -> Prop) (m : M A) : Prop :=
  forall st, R st (final (m st)).

(** The provider accepts a send: status 201. *)
Definition accepted (o : api.outcome) : bool :=
  match o with
  | api.Returns r => (requests.status_code r =? 201)%Z
  | api.Raises _ => false
  end.

(** The box [api_request] shows for a connection error. *)
Definition network_box : MessageBox :=
  {| box_title := "Network problem";
     box_text := "Check connection and try again";
     box_icon := Critical |}.

(** What a request leaves alone: everything but the list of calls and the
    boxes shown. *)
Definition request_frame (st st' : App) : Prop :=
  bearer st' = bearer st
  /\ phone_number st' = phone_number st
  /\ received_messages st' = received_messages st
  /\ msg_table st' = msg_table st
  /\ num_label st' = num_label st
  /\ num_text st' = num_text st
  /\ msg_text st' = msg_text st
  /\ keys st' = keys st
  /\ keys_file st' = keys_file st
  /\ writable st' = writable st
  /\ status st' = status st
  /\ stderr st' = stderr st.

(** The diagnostic of [check_response] for an unexpected status. *)
Definition failed_with (caller : string) (r : requests.Response) : string :=
  "Request method " ++ caller ++ " failed with code "
  ++ str_of_Z (requests.status_code r) ++ ", check logs".

Definition logged (caller : string) (r : requests.Response) : string :=
  caller ++ ": " ++ requests.str r ++ " " ++ requests.text r.

Module Cases.

(** A provider that answers every call with status 201. *)
Definition accepting : Env :=
  {| provider := fun _ _ => api.Returns (Scenario.response 201 JNull);
     getItem := fun _ => ("", false);
     iso_ok := fun _ => true;
     none_is_text := false;
     iso_fields := Scenario.clock_of;
     item_text := fun _ => Threw TypeError;
     load_fault := fun _ => None;
     wide_value := fun _ => JNull |}.

(** A provider that cannot be connected to. *)
Definition unreachable : Env :=
  {| provider := fun _ _ => api.Raises ConnectionError;
     getItem := fun _ => ("", false);
     iso_ok := fun _ => true;
     none_is_text := false;
     iso_fields := Scenario.clock_of;
     item_text := fun _ => Threw TypeError;
     load_fault := fun _ => None;
     wide_value := fun _ => JNull |}.

(** A provider that grants a bearer and then times out. *)
Definition bearer_only : Env :=
  {| provider :=
       Scenario.script
         [api.Returns
            (Scenario.response 200 (JDict [("access_token", JStr "token")]))];
     getItem := fun _ => ("", false);
     iso_ok := fun _ => true;
     none_is_text := false;
     iso_fields := Scenario.clock_of;
     item_text := fun _ => Threw TypeError;
     load_fault := fun _ => None;
     wide_value := fun _ => JNull |}.

End Cases.

Module Users.

(** A user who closes the key dialog. *)
Definition cancels : Env :=
  {| provider := fun _ _ => api.Returns (Scenario.response 200 JNull);
     getItem := fun items => (nth 0 items "", false);
     iso_ok := fun _ => true;
     none_is_text := false;
     iso_fields := Scenario.clock_of;
     item_text := fun _ => Threw TypeError;
     load_fault := fun _ => None;
     wide_value := fun _ => JNull |}.

(** A provider that refuses every bearer request with status 401. *)
Definition refusing : Env :=
  {| provider :=
       fun _ _ =>
         api.Returns {| requests.status_code := 401;
                        requests.text := "invalid_client";
                        requests.json_body := None |};
     getItem := fun _ => (Scenario.key32 ++ " " ++ Scenario.secret16, true);
     iso_ok := fun _ => true;
     none_is_text := false;
     iso_fields := Scenario.clock_of;
     item_text := fun _ => Threw TypeError;
     load_fault := fun _ => None;
     wide_value := fun _ => JNull |}.

End Users.

(** The calls one run of the bearer workflow can add: none; the bearer
    request alone; the bearer request and the number query; or these two
    and the request of a new number, for the same bearer. *)
Inductive bearer_calls : list api.call -> Prop :=
| no_call : bearer_calls []
| bearer_call (key secret : json) :
    bearer_calls [api.get_bearer key secret]
| number_call (key secret token : json) :
    bearer_calls [api.get_bearer key secret; api.get_number token]
| new_number_call (key secret token : json) :
    bearer_calls [api.get_bearer key secret; api.get_number token;
                  api.new_number token].

(** The stored entries survive from the keys [v] to the keys [v']: both
    are lists, at most one entry was added at the end, and every entry of
    [v] is still at its position with every field but [number] answering
    as before. *)
Definition entries_survive (v v' : json) : Prop :=
  exists l l',
    v = JList l /\ v' = JList l'
    /\ List.length l <= List.length l' <= List.length l + 1
    /\ forall n e,
         nth_error l n = Some e ->
         exists e',
           nth_error l' n = Some e'
           /\ forall field, field <> "number" ->
                            subscript e' field = subscript e field.

(** The keys file is in step with the keys: it was not touched while the
    keys were not, or it holds the text of the keys. *)
Definition file_in_step (st st' : App) : Prop :=
  (keys st' = keys st /\ keys_file st' = keys_file st)
  \/ keys_file st' = FileText (Json.dumps (keys st')).

(** What a poll run leaves alone: the session, the store and the two input
    fields. *)
Definition poll_frame (st st' : App) : Prop :=
  bearer st' = bearer st
  /\ phone_number st' = phone_number st
  /\ keys st' = keys st
  /\ keys_file st' = keys_file st
  /\ writable st' = writable st
  /\ num_text st' = num_text st
  /\ msg_text st' = msg_text st
  /\ num_label st' = num_label st.

(** The row [r] of the table shows the message [m]: the items
    [QTableWidgetItem] makes of its sender and of its text, and between
    them its time as [strftime] prints it, day/month hour:minute:second. *)
Definition row_shows (env : Env) (m : message.Message) (r : Row) : Prop :=
  exists from time body,
    cell_of env (message.sender m) = Got from
    /\ message.timestamp m = Some time
    /\ cell_of env (message.text m) = Got body
    /\ r = {| cell_sender := Some from;
              cell_time := Some (strftime env time);
              cell_text := Some body |}.

(** The number a run of decimal digits stands for, read after [acc]. *)
Fixpoint uint_value (acc : Z) (u : Decimal.uint) : Z :=
  match u with
  | Decimal.Nil => acc
  | Decimal.D0 u' => uint_value (10 * acc + 0) u'
  | Decimal.D1 u' => uint_value (10 * acc + 1) u'
  | Decimal.D2 u' => uint_value (10 * acc + 2) u'
  | Decimal.D3 u' => uint_value (10 * acc + 3) u'
  | Decimal.D4 u' => uint_value (10 * acc + 4) u'
  | Decimal.D5 u' => uint_value (10 * acc + 5) u'
  | Decimal.D6 u' => uint_value (10 * acc + 6) u'
  | Decimal.D7 u' => uint_value (10 * acc + 7) u'
  | Decimal.D8 u' => uint_value (10 * acc + 8) u'
  | Decimal.D9 u' => uint_value (10 * acc + 9) u'
  end.

(** A text without whitespace. *)
Fixpoint no_space (s : string) : bool :=
  match s with
  | "" => true
  | String c s' => negb (Py.is_space c) && no_space s'
  end.

(** A word: a string that is not empty and has no whitespace in it. *)
Definition is_word (v : json) : bool :=
  match v with
  | JStr s => negb (String.eqb s "") && no_space s
  | _ => false
  end.

(** An entry whose label reads back: its key is a word, it has a secret,
    and its number is absent, falsy, or a word. *)
Definition plain_entry (d : list (string * json)) : bool :=
  match Dict.get "key" d with
  | Some k => is_word k
  | None => false
  end
  && Dict.mem "secret" d
  && match Dict.get "number" d with
     | Some v => negb (Py.truthy v) || is_word v
     | None => true
     end.

Definition is_dict (v : json) : bool :=
  match v with
  | JDict _ => true
  | _ => false
  end.

(** The values [enumerate] can walk over: a list, the keys of a dict, the
    characters of a string. *)
Definition iterable (v : json) : bool :=
  match v with
  | JList _ | JDict _ | JStr _ => true
  | _ => false
  end.

(** * Properties *)

(** ** The definitions at work *)

Example split_label :
  Py.split "1. [unknown number] 0123456789abcdef0123456789abcdef"
  = ["1."; "[unknown"; "number]"; "0123456789abcdef0123456789abcdef"].
Proof. reflexivity. Qed.

Example split_blank : Py.split "   " = [].
Proof. reflexivity. Qed.

Example int_of_item_number : Py.int (Py.remove_char "." "12.") = Some 12%Z.
Proof. reflexivity. Qed.

Example int_rejects_word : Py.int "abc" = None.
Proof. reflexivity. Qed.

Example index_from_the_end : Py.index [10; 20; 30] (-1) = Some 30.
Proof. reflexivity. Qed.

Example index_out_of_range : Py.index [10; 20; 30] 3 = None.
Proof. reflexivity. Qed.

Example loads_numbers :
  option_map Py.repr (Json.loads " [1.50, 1E5, 1e400, -0, 12, true, null] ")
  = Some "[1.5, 100000.0, inf, 0, 12, True, None]".
Proof. vm_compute. reflexivity. Qed.

Example dumps_floats :
  option_map (fun v => Py.split (Json.dumps v))
    (Json.loads "[1.50, 1e16, 1e400, -1e-5]")
  = Some ["["; "1.5,"; "1e+16,"; "Infinity,"; "-1e-05"; "]"].
Proof. vm_compute. reflexivity. Qed.

Example float_underflow_is_falsy :
  option_map Py.truthy (Json.loads "1e-400") = Some false.
Proof. vm_compute. reflexivity. Qed.

Example loads_wide_escape :
  Json.loads "[1, 2" = None
  /\ Json.wide (String dquote (String backslash "u20ac") ++ String dquote "")
     = true
  /\ Json.wide (Json.dumps Scenario.two_entries) = false
  /\ Json.strained (Json.dumps Scenario.two_entries) = false.
Proof. vm_compute. repeat split. Qed.

Example loads_trailing_comma : Json.loads "[1, 2,]" = None.
Proof. vm_compute. reflexivity. Qed.

Example loads_unclosed : Json.loads "{" = None.
Proof. vm_compute. reflexivity. Qed.

Example loads_extra_data : Json.loads "[] []" = None.
Proof. vm_compute. reflexivity. Qed.

Example dumps_empty_list : Json.dumps (JList []) = "[]".
Proof. reflexivity. Qed.

Example dumps_nested_lists :
  Json.dumps (JList [JNull; JList [JBool true]])
  = "[" ++ String LF "    null," ++ String LF "    ["
    ++ String LF "        true" ++ String LF "    ]" ++ String LF "]".
Proof. reflexivity. Qed.

(** The labels offered for the stored entries of [two_entries]. *)
Example labels_of_two_entries :
  match Scenario.two_entries with
  | JList l => key_items 1 l
  | _ => Threw TypeError
  end
  = Got ["1. +61400000001 0123456789abcdef0123456789abcdef";
         "2. [unknown number] 0123456789abcdef0123456789abcdef"].
Proof. vm_compute. reflexivity. Qed.

(** Picking the second label sets the number of the second entry, in
    place, after a [get_bearer] and a [get_number] call. *)
Example picking_second_entry :
  let st := with_keys Scenario.two_entries (new_app FileMissing true) in
  let st' := final (choose_bearer Scenario.returning st) in
  calls st'
  = [api.get_bearer (JStr Scenario.key32) (JStr Scenario.secret16);
     api.get_number (JStr "token")]
  /\ keys st'
     = JList [JDict [("key", JStr Scenario.key32);
                     ("secret", JStr (String dquote (String backslash
                                        (String LF "0123456789abc"))));
                     ("number", JStr Scenario.own_number)];
              JDict [("key", JStr Scenario.key32);
                     ("secret", JStr Scenario.secret16);
                     ("number", JStr "+61400000003")]]
  /\ keys_file st' = FileText (Json.dumps (keys st')).
Proof. vm_compute. repeat split. Qed.

(** A choice that is neither a typed pair nor an offered label: item
    number 0 reads as index -1, which is Python's last entry and also the
    mark of a typed pair, so a third entry is appended. *)
Example item_zero_appends :
  let st := with_keys Scenario.two_entries (new_app FileMissing true) in
  match keys (final (choose_bearer Scenario.types_item_zero st)) with
  | JList l => List.length l
  | _ => 0
  end = 3.
Proof. vm_compute. reflexivity. Qed.

(** ** Running a computation *)

Ltac run :=
  unfold bind, ret, raise, gets, modify, lift, set_status, show_message;
  cbn.

(** ** Operations that need a bearer *)

(** C10: with no bearer token ([self.bearer is None]) both [send_message]
    and [get_message] return at once: no network call is made, the status
    bar reads 'Request bearer first', and the received messages and the
    keys are what they were. *)
Theorem no_bearer_no_request (env : Env) (fuel : nat) (st : App) :
  bearer st = JNull ->
  send_message env st = Ok tt (with_status "Request bearer first" st)
  /\ get_message env fuel st
     = Finished (Ok tt (with_status "Request bearer first" st))
  /\ calls (with_status "Request bearer first" st) = calls st
  /\ status (with_status "Request bearer first" st) = "Request bearer first"
  /\ received_messages (with_status "Request bearer first" st)
     = received_messages st
  /\ keys (with_status "Request bearer first" st) = keys st.
Proof.
  intros Hb. unfold send_message, get_message. rewrite Hb.
  repeat split.
Qed.

Lemma no_bearer_no_request_witness :
  bearer (new_app FileMissing true) = JNull
  /\ send_message Scenario.offline (new_app FileMissing true)
     = Ok tt (with_status "Request bearer first" (new_app FileMissing true)).
Proof.
  split; [reflexivity|].
  apply (no_bearer_no_request Scenario.offline 1 (new_app FileMissing true)).
  reflexivity.
Defined.

(** ** Sending *)

(** C7: a send whose destination or text is empty is turned away before
    the provider is called: [send_message] returns with the calls
    unchanged and only the status bar set, to 'Number cannot be blank' for
    an empty destination and to 'Message cannot be blank' for an empty text
    (to 'Request bearer first' when there is no bearer at all). *)
Theorem blank_send_rejected (env : Env) (st : App) :
  num_text st = "" \/ msg_text st = "" ->
  exists message,
    send_message env st = Ok tt (with_status message st)
    /\ calls (with_status message st) = calls st
    /\ (bearer st <> JNull ->
        (num_text st = "" -> message = "Number cannot be blank")
        /\ (num_text st <> "" -> message = "Message cannot be blank"))
    /\ (bearer st = JNull -> message = "Request bearer first").
Proof.
  intros Hblank. unfold send_message.
  destruct (bearer st) eqn:Hb;
    try (exists "Request bearer first";
         repeat split; intros; congruence).
  all: cbn [outgoing_message message.destination message.text].
  all: destruct (num_text st) eqn:Hn.
  all: try (exists "Number cannot be blank"; cbn;
            repeat split; intros; congruence).
  all: destruct Hblank as [Hd | Ht]; [discriminate|].
  all: rewrite Ht; exists "Message cannot be blank"; cbn.
  all: repeat split; intros; congruence.
Qed.

Lemma blank_send_rejected_witness :
  calls (final (send_message Scenario.offline
                  (Scenario.signed_in "+61400000002" "")))
  = [].
Proof.
  destruct (blank_send_rejected Scenario.offline
              (Scenario.signed_in "+61400000002" ""))
    as [message [Hrun [Hcalls _]]].
  - right. reflexivity.
  - rewrite Hrun. exact Hcalls.
Defined.

(** ** The facade: [api_request] *)

(** C6: whatever the operation, a call that times out is issued, returns
    [None] to its caller instead of raising, and shows the 'Request timed
    out' box; the keys in memory and the keys file are untouched.  In the
    bearer workflow a timed-out [get_bearer] ends the workflow there, in
    that same state. *)
Theorem timeout_gives_no_result (env : Env) (c : api.call) (st : App) :
  provider env (calls st) c = api.Raises Timeout ->
  let st' := with_boxes (snoc (boxes st) timeout_box)
               (with_calls (snoc (calls st) c) st) in
  api_request env c st = Ok None st'
  /\ keys st' = keys st
  /\ keys_file st' = keys_file st
  /\ (forall key secret key_index,
         c = api.get_bearer key secret ->
         request_bearer env key secret key_index st = Ok tt st').
Proof.
  intros Hto st'.
  assert (Hreq : api_request env c st = Ok None st').
  { unfold api_request. rewrite Hto. reflexivity. }
  repeat split; try assumption.
  intros key secret key_index ->.
  unfold request_bearer, bind. rewrite Hreq. reflexivity.
Qed.

Lemma timeout_gives_no_result_witness :
  let c := api.get_bearer (JStr Scenario.key32) (JStr Scenario.secret16) in
  let st := new_app FileMissing true in
  api_request Scenario.offline c st
  = Ok None (with_boxes [timeout_box] (with_calls [c] st))
  /\ request_bearer Scenario.offline (JStr Scenario.key32)
       (JStr Scenario.secret16) (-1) st
     = Ok tt (with_boxes [timeout_box] (with_calls [c] st)).
Proof.
  cbv zeta.
  destruct (timeout_gives_no_result Scenario.offline
              (api.get_bearer (JStr Scenario.key32) (JStr Scenario.secret16))
              (new_app FileMissing true))
    as [Hcall [_ [_ Hflow]]].
  - reflexivity.
  - split; [exact Hcall|].
    apply (Hflow (JStr Scenario.key32) (JStr Scenario.secret16) (-1)%Z).
    reflexivity.
Defined.

(** ** Loading the keys *)

(** C4, the input that refutes it: a keys file that exists but cannot be
    opened makes [load_keys], and with it the start-up, raise. *)
Lemma unreadable_file_raises :
  load_keys Scenario.offline (new_app FileUnreadable true)
  = Raise OSError (new_app FileUnreadable true)
  /\ init Scenario.offline (new_app FileUnreadable true)
     = Raise OSError (new_app FileUnreadable true).
Proof. split; reflexivity. Qed.

(** Below the marks, and without characters beyond the alphabet,
    [json.load] is the decoder. *)
Lemma json_load_plain (env : Env) (content : string) :
  Json.strained content = false ->
  Json.wide content = false ->
  json_load env content
  = match Json.loads content with
    | Some v => Loaded v
    | None => Malformed
    end.
Proof.
  intros Hs Hw. unfold json_load. rewrite Hs, Hw. reflexivity.
Qed.

(** Text that is no JSON is malformed whatever else it holds, unless a
    limit of the interpreter ends the decoding first. *)
Lemma json_load_malformed (env : Env) (content : string) :
  Json.loads content = None ->
  json_load env content = Malformed
  \/ exists e, Json.strained content = true
               /\ json_load env content = Refused e.
Proof.
  intros Hl. unfold json_load. rewrite Hl.
  destruct (Json.strained content); [|left; reflexivity].
  destruct (load_fault env content) as [e|]; [|left; reflexivity].
  right. exists e. split; reflexivity.
Qed.

(** The interpreter's limits at work: a hundred brackets deep decode
    everywhere; one more, and an interpreter with a low recursion limit
    raises [RecursionError] through [load_keys]; so does [ValueError] for
    an integer of 641 digits where the digit limit is the least one. *)
Example deep_nesting_raises :
  json_load Scenario.tight (Scenario.nested 100)
  = json_load Scenario.offline (Scenario.nested 100)
  /\ load_keys Scenario.tight (new_app (FileText (Scenario.nested 101)) true)
     = Raise RecursionError (new_app (FileText (Scenario.nested 101)) true)
  /\ load_keys Scenario.tight
       (new_app (FileText ("1" ++ Float.zeros 640)) true)
     = Raise ValueError (new_app (FileText ("1" ++ Float.zeros 640)) true).
Proof. vm_compute. repeat split. Qed.

(** C4, as the code has it.  Of what can go wrong while the keys file is
    opened, read and decoded, [load_keys] catches two faults: an absent
    file leaves the keys empty and shows one box with the warning icon; a
    text that is no JSON leaves the keys empty and shows one box with the
    critical icon; in both cases, and when the text decodes (it then
    becomes the keys, and no box is shown), [load_keys] and the start-up
    return.  Every other fault is raised past [load_keys] and past the
    start-up, with nothing changed: a file that does not open, bytes that
    are no text, a limit of the interpreter met while decoding. *)
Theorem load_keys_fails_soft (env : Env) (file : file_state)
    (can_write : bool) :
  (uncaught env file = None ->
   exists st',
     init env (new_app file can_write) = Ok tt st'
     /\ load_keys env (new_app file can_write)
        = Ok tt (with_boxes (boxes st')
                   (with_keys (keys st') (new_app file can_write)))
     /\ (file = FileMissing ->
         keys st' = JList [] /\ boxes st' = [missing_box])
     /\ (forall content,
            file = FileText content -> json_load env content = Malformed ->
            keys st' = JList [] /\ boxes st' = [corrupt_box])
     /\ (forall content v,
            file = FileText content -> json_load env content = Loaded v ->
            keys st' = v /\ boxes st' = []))
  /\ (forall e,
         uncaught env file = Some e ->
         load_keys env (new_app file can_write)
         = Raise e (new_app file can_write)
         /\ init env (new_app file can_write)
            = Raise e (new_app file can_write))
  /\ (forall content,
         file = FileText content ->
         Json.strained content = false ->
         uncaught env file = None
         /\ (Json.loads content = None ->
             json_load env content = Malformed)
         /\ (forall v,
                Json.loads content = Some v -> Json.wide content = false ->
                json_load env content = Loaded v)).
Proof.
  split; [|split].
  - intros Hsoft. destruct file as [| | |content]; try discriminate.
    + eexists. split; [reflexivity|]. split; [reflexivity|].
      repeat split; intros; try discriminate; reflexivity.
    + cbn in Hsoft.
      destruct (json_load env content) as [v| |e] eqn:Hload;
        [| |discriminate].
      * eexists. split.
        { unfold init, bind, load_keys. cbn. rewrite Hload. reflexivity. }
        split.
        { unfold load_keys. cbn. rewrite Hload. reflexivity. }
        repeat split; intros; try discriminate.
        all: match goal with H : FileText _ = FileText _ |- _ =>
               injection H as <- end.
        all: cbn; congruence.
      * eexists. split.
        { unfold init, bind, load_keys. cbn. rewrite Hload. reflexivity. }
        split.
        { unfold load_keys. cbn. rewrite Hload. reflexivity. }
        repeat split; intros; try discriminate.
        all: match goal with H : FileText _ = FileText _ |- _ =>
               injection H as <- end.
        all: cbn; congruence.
  - intros e Hfault. destruct file as [| | |content]; cbn in Hfault.
    + discriminate.
    + injection Hfault as <-. split; reflexivity.
    + injection Hfault as <-. split; reflexivity.
    + destruct (json_load env content) as [v| |e'] eqn:Hload;
        try discriminate.
      injection Hfault as <-.
      unfold init, bind, load_keys. cbn. rewrite Hload. split; reflexivity.
  - intros content -> Hplain. unfold uncaught, json_load. rewrite Hplain.
    destruct (Json.loads content) as [v|]; repeat split;
      intros; try discriminate.
    match goal with H : Some _ = Some _ |- _ => injection H as <- end.
    match goal with H : Json.wide _ = false |- _ => rewrite H end.
    reflexivity.
Qed.

Lemma load_keys_fails_soft_witness :
  exists st',
    init Scenario.tight (new_app (FileText "{") true) = Ok tt st'
    /\ keys st' = JList [] /\ boxes st' = [corrupt_box].
Proof.
  destruct (load_keys_fails_soft Scenario.tight (FileText "{") true)
    as [Hsoft _].
  destruct Hsoft as [st' [Hinit [_ [_ [Hbad _]]]]].
  - reflexivity.
  - exists st'. split; [exact Hinit|].
    apply (Hbad "{"); reflexivity.
Defined.

(** ** Choosing a key *)


(** ** The messages the program builds *)

(** Case analysis on the innermost scrutinee of the goal. *)
Ltac split_match :=
  match goal with
  | |- context [match ?x with _ => _ end] =>
      lazymatch x with
      | context [match _ with _ => _ end] => fail
      | _ => destruct x eqn:?
      end
  end.

Lemma incoming_message_for (phone j : json) (time : datetime)
    (m : message.Message) :
  incoming_message phone j time = Got m -> incoming_for phone m.
Proof.
  unfold incoming_message.
  destruct (subscript j "senderAddress"); [| discriminate].
  destruct (subscript j "message"); [| discriminate].
  destruct (subscript j "messageId"); [| discriminate].
  intros H. injection H as <-. split; reflexivity.
Qed.

Lemma poll_once_adds (env : Env) (st : App) :
  phone_number (final (poll_once env st)) = phone_number st
  /\ bearer (final (poll_once env st)) = bearer st
  /\ keys (final (poll_once env st)) = keys st
  /\ exists new,
       received_messages (final (poll_once env st))
       = (received_messages st ++ new)%list
       /\ Forall (incoming_for (phone_number st)) new.
Proof.
  unfold poll_once, api_request, check_response, show_row.
  run.
  repeat (split_match; run).
  all: repeat split;
    try (exists []; split; [symmetry; apply app_nil_r | constructor]).
  all: eexists; split; [unfold snoc; reflexivity|].
  all: constructor; [| constructor].
  all: eapply incoming_message_for; eassumption.
Qed.

Lemma drain_adds (env : Env) (fuel : nat) :
  forall st,
    phone_number (reached (drain env fuel st)) = phone_number st
    /\ bearer (reached (drain env fuel st)) = bearer st
    /\ keys (reached (drain env fuel st)) = keys st
    /\ exists new,
         received_messages (reached (drain env fuel st))
         = (received_messages st ++ new)%list
         /\ Forall (incoming_for (phone_number st)) new.
Proof.
  induction fuel as [|fuel IH]; intros st; cbn [drain].
  - repeat split. exists []. split; [symmetry; apply app_nil_r | constructor].
  - destruct (poll_once_adds env st) as [Hp [Hb [Hk [new [Hr Hnew]]]]].
    destruct (poll_once env st) as [[|] st'|e st']; cbn in *.
    + repeat split; try assumption. exists new. split; assumption.
    + destruct (IH st') as [Hp' [Hb' [Hk' [new' [Hr' Hnew']]]]].
      repeat split; try congruence.
      exists (new ++ new')%list. split.
      * rewrite Hr', Hr. symmetry. apply app_assoc.
      * apply Forall_app. split; [assumption|].
        rewrite <- Hp. assumption.
    + repeat split; try assumption. exists new. split; assumption.
Qed.

(** C8, the input that refutes it: a session whose number is
    [+61400000001] sends to that same number; the message [send_message]
    builds has the number on both sides. *)
Lemma message_to_self_both_sides :
  let st := Scenario.signed_in Scenario.own_number "hello" in
  message.sender (outgoing_message st) = phone_number st
  /\ message.destination (outgoing_message st) = phone_number st
  /\ ~ one_sided (phone_number st) (outgoing_message st).
Proof.
  cbv zeta. repeat split.
  unfold one_sided. cbn. intros [_ H]. apply H. reflexivity.
Qed.

(** C8, as the code has it: the side of a message that its direction names
    is the session's number.  The message [send_message] builds is
    OUTGOING with the session's number as sender; every message a run of
    [get_message] appends is INCOMING with the session's number as
    destination, and the run appends to the list without touching what was
    there.  The other side is the text typed or the address the provider
    reports, whatever it is. *)
Theorem message_side_matches_direction (env : Env) (fuel : nat) (st : App) :
  message.msg_type (outgoing_message st) = message.OUTGOING
  /\ own_side (phone_number st) (outgoing_message st)
  /\ exists new,
       received_messages (reached (get_message env fuel st))
       = (received_messages st ++ new)%list
       /\ Forall (fun m => message.msg_type m = message.INCOMING
                           /\ own_side (phone_number st) m) new.
Proof.
  split; [reflexivity|]. split; [reflexivity|].
  assert (Hnil : exists new : list message.Message,
             received_messages st = (received_messages st ++ new)%list
             /\ Forall (fun m => message.msg_type m = message.INCOMING
                                 /\ own_side (phone_number st) m) new).
  { exists []. split; [symmetry; apply app_nil_r | constructor]. }
  destruct (drain_adds env fuel (with_status "Fetching messages..." st))
    as [_ [_ [_ [new [Hr Hnew]]]]].
  assert (Hown : Forall (fun m => message.msg_type m = message.INCOMING
                                  /\ own_side (phone_number st) m) new).
  { eapply Forall_impl; [| exact Hnew].
    intros m [Ht Hd]. split; [exact Ht|].
    unfold own_side. rewrite Ht. exact Hd. }
  unfold get_message.
  destruct (bearer st); try exact Hnil.
  all: destruct (drain env fuel (with_status "Fetching messages..." st))
         as [[[] st'|e st']|st']; cbn in *.
  all: exists new; split; assumption.
Qed.

(** ** Polling *)

Lemma poll_once_delivers (env : Env) (st : App) (r : requests.Response)
    (dv : Delivery) :
  provider env (calls st) (api.get_message (bearer st)) = api.Returns r ->
  delivers r dv ->
  iso_ok env (stamp dv) = true ->
  exists st',
    poll_once env st = Ok false st'
    /\ received_messages st'
       = snoc (received_messages st) (received_as (phone_number st) dv)
    /\ calls st' = snoc (calls st) (api.get_message (bearer st))
    /\ bearer st' = bearer st
    /\ phone_number st' = phone_number st.
Proof.
  intros Hprov [Hcode [d [marker [Hbody [Hstatus [Hmark [Hfrom [Htext [Hid Hstamp]]]]]]]]] Hiso.
  unfold poll_once, api_request, check_response, show_row. run.
  rewrite Hprov. cbn. rewrite Hcode. cbn.
  unfold json_of. rewrite Hbody. cbn. rewrite Hstatus. cbn.
  rewrite Hmark. cbn. rewrite Hstamp. cbn. rewrite Hiso. cbn.
  unfold incoming_message. cbn. rewrite Hfrom, Htext, Hid. cbn.
  eexists. split; [reflexivity|]. cbn. repeat split.
Qed.

Lemma poll_once_empty (env : Env) (st : App) (r : requests.Response) :
  provider env (calls st) (api.get_message (bearer st)) = api.Returns r ->
  signals_empty r ->
  poll_once env st
  = Ok true (with_calls (snoc (calls st) (api.get_message (bearer st))) st).
Proof.
  intros Hprov [Hcode [d [Hbody Hstatus]]].
  unfold poll_once, api_request, check_response. run.
  rewrite Hprov. cbn. rewrite Hcode. cbn.
  unfold json_of. rewrite Hbody. cbn. rewrite Hstatus. reflexivity.
Qed.

(** C2: a provider answers the next three polls with a message [m1], a
    message [m2] and the empty marker.  Then [get_message] returns after
    exactly these three polls, and the received messages are the ones held
    before followed by [m1] and [m2] in that order.  Nothing requires [m1]
    and [m2] to differ: a message delivered twice is appended twice. *)
Theorem drains_in_arrival_order (env : Env) (st : App)
    (r1 r2 r3 : requests.Response) (m1 m2 : Delivery) (fuel : nat) :
  bearer st <> JNull ->
  let poll := api.get_message (bearer st) in
  provider env (polls (calls st) poll 0) poll = api.Returns r1 ->
  provider env (polls (calls st) poll 1) poll = api.Returns r2 ->
  provider env (polls (calls st) poll 2) poll = api.Returns r3 ->
  delivers r1 m1 -> iso_ok env (stamp m1) = true ->
  delivers r2 m2 -> iso_ok env (stamp m2) = true ->
  signals_empty r3 ->
  3 <= fuel ->
  exists st',
    get_message env fuel st = Finished (Ok tt st')
    /\ received_messages st'
       = (received_messages st
          ++ [received_as (phone_number st) m1;
              received_as (phone_number st) m2])%list
    /\ calls st' = polls (calls st) poll 3
    /\ status st' = "Fetched all messages".
Proof.
  intros Hb poll H1 H2 H3 Hd1 Hi1 Hd2 Hi2 He Hfuel.
  destruct fuel as [|[|[|fuel]]]; try lia. clear Hfuel.
  set (st0 := with_status "Fetching messages..." st).
  destruct (poll_once_delivers env st0 r1 m1 H1 Hd1 Hi1)
    as [st1 [Hp1 [Hr1 [Hc1 [Hb1 Hn1]]]]].
  assert (H2' : provider env (calls st1) (api.get_message (bearer st1))
                = api.Returns r2).
  { rewrite Hc1, Hb1. exact H2. }
  destruct (poll_once_delivers env st1 r2 m2 H2' Hd2 Hi2)
    as [st2 [Hp2 [Hr2 [Hc2 [Hb2 Hn2]]]]].
  assert (H3' : provider env (calls st2) (api.get_message (bearer st2))
                = api.Returns r3).
  { rewrite Hc2, Hb2, Hc1, Hb1. exact H3. }
  pose proof (poll_once_empty env st2 r3 H3' He) as Hp3.
  assert (Hdrain : drain env (S (S (S fuel))) st0
                   = Finished (Ok tt (with_calls
                                        (snoc (calls st2)
                                           (api.get_message (bearer st2)))
                                        st2))).
  { cbn [drain]. rewrite Hp1, Hp2, Hp3. reflexivity. }
  eexists. split.
  - unfold get_message. fold st0. rewrite Hdrain.
    destruct (bearer st); try contradiction; reflexivity.
  - cbn. split; [| split; [| reflexivity]].
    + rewrite Hr2, Hr1, Hn1. subst st0. cbn. unfold snoc.
      rewrite <- app_assoc. reflexivity.
    + rewrite Hc2, Hb2, Hc1, Hb1. reflexivity.
Qed.

Lemma drains_in_arrival_order_witness :
  let st := Scenario.signed_in "" "" in
  exists st',
    get_message Scenario.twice_then_empty 3 st = Finished (Ok tt st')
    /\ received_messages st'
       = [received_as (phone_number st) Scenario.hello;
          received_as (phone_number st) Scenario.hello].
Proof.
  cbv zeta.
  destruct (drains_in_arrival_order Scenario.twice_then_empty
              (Scenario.signed_in "" "")
              (Scenario.response 200 (Scenario.queued Scenario.hello))
              (Scenario.response 200 (Scenario.queued Scenario.hello))
              (Scenario.response 200 (JDict [("status", JStr "EMPTY")]))
              Scenario.hello Scenario.hello 3)
    as [st' [Hrun [Hrecv _]]].
  - discriminate.
  - reflexivity.
  - reflexivity.
  - reflexivity.
  - split; [reflexivity|].
    exists (match Scenario.queued Scenario.hello with
            | JDict d => d
            | _ => []
            end), (JStr "RECEIVED").
    repeat split.
  - reflexivity.
  - split; [reflexivity|].
    exists (match Scenario.queued Scenario.hello with
            | JDict d => d
            | _ => []
            end), (JStr "RECEIVED").
    repeat split.
  - reflexivity.
  - split; [reflexivity|]. eexists. split; reflexivity.
  - lia.
  - exists st'. split; [exact Hrun | exact Hrecv].
Defined.

Lemma is_empty_marker_true (v : json) :
  is_empty_marker v = true -> v = JStr "EMPTY".
Proof.
  destruct v; try discriminate. cbn. intros H.
  apply String.eqb_eq in H. congruence.
Qed.

Lemma subscript_got (v : json) (k : string) (x : json) :
  subscript v k = Got x -> exists d, v = JDict d /\ Dict.get k d = Some x.
Proof.
  destruct v; try discriminate. cbn.
  destruct (Dict.get k d) eqn:Hget; [| discriminate].
  intros H. injection H as <-. exists d. split; [reflexivity | exact Hget].
Qed.

(** One turn of the loop issues one poll; it breaks only on the empty
    marker, it raises only when the attempt did not fail, and a failed
    attempt makes it go round again. *)
Lemma poll_once_outcome (env : Env) (st : App) :
  let o := provider env (calls st) (api.get_message (bearer st)) in
  calls (final (poll_once env st))
  = snoc (calls st) (api.get_message (bearer st))
  /\ match poll_once env st with
     | Ok true _ => exists r, o = api.Returns r /\ signals_empty r
     | Ok false _ => True
     | Raise _ _ => ~ poll_fails o
     end
  /\ (poll_fails o -> exists st', poll_once env st = Ok false st').
Proof.
  cbv zeta.
  unfold poll_once, api_request, check_response, show_row. run.
  destruct (provider env (calls st) (api.get_message (bearer st)))
    as [r|[| |name]]; cbn.
  2-3: repeat split; eexists; reflexivity.
  2:{ repeat split; intros H; contradiction. }
  destruct (requests.status_code r =? 200)%Z eqn:Hcode; cbn.
  2:{ repeat split. eexists; reflexivity. }
  apply Z.eqb_eq in Hcode.
  unfold json_of.
  destruct (requests.json_body r) as [j|] eqn:Hbody; cbn.
  2:{ repeat split; intros H; contradiction. }
  destruct (subscript j "status") as [marker|e] eqn:Hstatus; cbn.
  2:{ repeat split; intros H; contradiction. }
  destruct (is_empty_marker marker) eqn:Hmark; cbn.
  { split; [reflexivity|]. split; [| intros H; contradiction].
    exists r. split; [reflexivity|]. split; [exact Hcode|].
    apply is_empty_marker_true in Hmark. subst marker.
    destruct (subscript_got _ _ _ Hstatus) as [d [-> Hget]].
    exists d. split; [exact Hbody | exact Hget]. }
  repeat (split_match; run).
  all: repeat split; try (intros H; contradiction).
Qed.

Lemma drain_finishes (env : Env) (fuel : nat) :
  forall st r,
    drain env fuel st = Finished r ->
    exists n,
      n < fuel
      /\ calls (final r)
         = polls (calls st) (api.get_message (bearer st)) (S n)
      /\ match r with
         | Ok _ _ =>
             exists resp,
               provider env (polls (calls st) (api.get_message (bearer st)) n)
                 (api.get_message (bearer st)) = api.Returns resp
               /\ signals_empty resp
         | Raise _ _ =>
             ~ poll_fails
                 (provider env
                    (polls (calls st) (api.get_message (bearer st)) n)
                    (api.get_message (bearer st)))
         end.
Proof.
  induction fuel as [|fuel IH]; intros st r; cbn [drain]; [discriminate|].
  destruct (poll_once_outcome env st) as [Hcalls [Hcase _]].
  destruct (poll_once_adds env st) as [_ [Hb _]].
  destruct (poll_once env st) as [[|] st1|e st1]; cbn in Hcalls, Hb.
  - intros H. injection H as <-. exists 0. split; [lia|].
    split; [exact Hcalls | exact Hcase].
  - intros H. destruct (IH st1 r H) as [n [Hn [Hc Hlast]]].
    rewrite Hb, Hcalls in Hc, Hlast.
    exists (S n). split; [lia|]. split; [exact Hc | exact Hlast].
  - intros H. injection H as <-. exists 0. split; [lia|].
    split; [exact Hcalls | exact Hcase].
Qed.

Lemma drain_spins (env : Env) (fuel : nat) :
  forall st,
    (forall n,
        poll_fails (provider env
                      (polls (calls st) (api.get_message (bearer st)) n)
                      (api.get_message (bearer st)))) ->
    exists st',
      drain env fuel st = StillPolling st'
      /\ calls st' = polls (calls st) (api.get_message (bearer st)) fuel.
Proof.
  induction fuel as [|fuel IH]; intros st Hall; cbn [drain].
  - exists st. split; reflexivity.
  - destruct (poll_once_outcome env st) as [Hcalls [_ Hfail]].
    destruct (poll_once_adds env st) as [_ [Hb _]].
    destruct (Hfail (Hall 0)) as [st1 Hp].
    rewrite Hp in *. cbn in Hcalls, Hb.
    destruct (IH st1) as [st' [Hd Hc]].
    + intros n. rewrite Hb, Hcalls. exact (Hall (S n)).
    + exists st'. split; [exact Hd|]. rewrite Hc, Hb, Hcalls. reflexivity.
Qed.

(** C9: the polling loop of [get_message] and its three ways on.  Write
    [poll] for the call it repeats.  (1) When [get_message] returns, the
    last poll was answered with status 200 and a body whose [status] is
    ["EMPTY"].  (2) When it is left by an exception, the last poll was not
    a failed attempt.  (3) When every poll from here on fails (a timeout or
    a connection error, which [api_request] turns into [None], or a status
    other than 200), then whatever the number of turns allowed the loop is
    still polling after them, one call per turn. *)
Theorem drain_stops_only_on_empty (env : Env) (st : App) (fuel : nat) :
  bearer st <> JNull ->
  let poll := api.get_message (bearer st) in
  (forall st',
      get_message env fuel st = Finished (Ok tt st') ->
      exists n resp,
        n < fuel
        /\ calls st' = polls (calls st) poll (S n)
        /\ provider env (polls (calls st) poll n) poll = api.Returns resp
        /\ signals_empty resp)
  /\ (forall e st',
         get_message env fuel st = Finished (Raise e st') ->
         exists n,
           n < fuel
           /\ calls st' = polls (calls st) poll (S n)
           /\ ~ poll_fails (provider env (polls (calls st) poll n) poll))
  /\ ((forall n, poll_fails (provider env (polls (calls st) poll n) poll)) ->
      exists st',
        get_message env fuel st = StillPolling st'
        /\ calls st' = polls (calls st) poll fuel).
Proof.
  intros Hb poll.
  set (st0 := with_status "Fetching messages..." st).
  assert (Hget : get_message env fuel st
                 = match drain env fuel st0 with
                   | Finished (Ok _ st') =>
                       Finished (Ok tt (with_status "Fetched all messages" st'))
                   | other => other
                   end).
  { unfold get_message. fold st0.
    destruct (bearer st); try contradiction; reflexivity. }
  rewrite Hget. clear Hget.
  split; [| split].
  - intros st' H.
    destruct (drain env fuel st0) as [[[] st1|e st1]|st1] eqn:Hd;
      try discriminate.
    injection H as <-.
    destruct (drain_finishes env fuel st0 _ Hd) as [n [Hn [Hc [resp Hlast]]]].
    exists n, resp. split; [exact Hn|]. split; [exact Hc | exact Hlast].
  - intros e st' H.
    destruct (drain env fuel st0) as [[[] st1|e1 st1]|st1] eqn:Hd;
      try discriminate.
    injection H as <- <-.
    destruct (drain_finishes env fuel st0 _ Hd) as [n [Hn [Hc Hlast]]].
    exists n. split; [exact Hn|]. split; [exact Hc | exact Hlast].
  - intros Hall.
    destruct (drain_spins env fuel st0 Hall) as [st' [Hd Hc]].
    exists st'. rewrite Hd. split; [reflexivity | exact Hc].
Qed.

Lemma drain_stops_only_on_empty_witness :
  exists st',
    get_message Scenario.unavailable 1000 (Scenario.signed_in "" "")
    = StillPolling st'
    /\ List.length (calls st') = 1000.
Proof.
  destruct (drain_stops_only_on_empty Scenario.unavailable
              (Scenario.signed_in "" "") 1000) as [_ [_ Hspin]].
  - discriminate.
  - destruct Hspin as [st' [Hrun Hcalls]].
    + intros n. cbn. lia.
    + exists st'. split; [exact Hrun|]. rewrite Hcalls.
      clear. vm_compute. reflexivity.
Defined.

(** ** The bearer workflow *)

(** The dialog can always be offered for a valid sequence of credential
    entries. *)
Lemma key_items_valid (l : list json) :
  forallb credential_entry l = true ->
  forall i, exists items, key_items i l = Got items.
Proof.
  induction l as [|e l IH]; intros Hl i; [exists []; reflexivity|].
  cbn in Hl. apply andb_true_iff in Hl. destruct Hl as [He Hl].
  destruct e as [| | | | | |d]; try discriminate.
  cbn in He. apply andb_true_iff in He. destruct He as [He _].
  apply andb_true_iff in He. destruct He as [He Hsecret].
  apply andb_true_iff in He. destruct He as [_ Hkey].
  destruct (IH Hl (S i)) as [items Hitems].
  cbn [key_items contains]. rewrite Hkey, Hsecret.
  unfold item_label.
  assert (Hget : exists key, Dict.get "key" d = Some key).
  { clear -Hkey. induction d as [|[k v] d IHd]; [discriminate|].
    cbn [Dict.mem Dict.get] in Hkey |- *.
    destruct (String.eqb "key" k).
    - exists v. reflexivity.
    - exact (IHd Hkey). }
  destruct Hget as [key Hget]. rewrite Hget, Hitems.
  eexists. reflexivity.
Qed.

Lemma norm_index_nat {A} (l : list A) (n : nat) (x : A) :
  nth_error l n = Some x -> Py.norm_index l (Z.of_nat n) = Some n.
Proof.
  intros H. assert (Hlt : n < List.length l).
  { apply nth_error_Some. congruence. }
  unfold Py.norm_index.
  destruct (Z.of_nat n <? 0)%Z eqn:Hneg; [apply Z.ltb_lt in Hneg; lia|].
  assert (H0 : (0 <=? Z.of_nat n)%Z = true) by (apply Z.leb_le; lia).
  assert (H1 : (Z.of_nat n <? Z.of_nat (List.length l))%Z = true)
    by (apply Z.ltb_lt; lia).
  rewrite H0, H1. cbn. rewrite Nat2Z.id. reflexivity.
Qed.

Lemma index_nat {A} (l : list A) (n : nat) (x : A) :
  nth_error l n = Some x -> Py.index l (Z.of_nat n) = Some x.
Proof.
  intros H. unfold Py.index. rewrite (norm_index_nat l n x H). exact H.
Qed.

Lemma nth_error_snoc {A} (l : list A) (x : A) :
  nth_error (snoc l x) (List.length l) = Some x.
Proof.
  unfold snoc. induction l as [|y l IH]; [reflexivity | exact IH].
Qed.

Lemma update_snoc {A} (l : list A) (x y : A) :
  Py.update (snoc l x) (List.length l) y = snoc l y.
Proof.
  unfold snoc. induction l as [|z l IH]; [reflexivity|].
  cbn. rewrite IH. reflexivity.
Qed.



Lemma split_nonempty (chosen : string) :
  Py.split chosen <> [] -> (chosen =? "") = false.
Proof.
  destruct chosen; [intros H; exfalso; apply H; reflexivity | reflexivity].
Qed.

(** A typed pair of the right lengths and a choice that reads as an item
    number both lead to the bearer request, with the pair and the index
    they stand for. *)
Lemma use_choice_resolves (env : Env) (st : App) (l : list json)
    (chosen : string) (key secret : json) (index : Z) :
  keys st = JList l ->
  resolves l chosen key secret index ->
  use_choice env chosen st = request_bearer env key secret index st
  /\ (chosen =? "") = false.
Proof.
  intros Hkeys Hres. destruct Hres as
      [k s Hsplit Hk Hs
      | first rest number entry key secret Hsplit Hrest Hint Hentry Hkey Hsec].
  - split; [| apply split_nonempty; rewrite Hsplit; discriminate].
    unfold use_choice. rewrite Hsplit, Hk, Hs. reflexivity.
  - split; [| apply split_nonempty; rewrite Hsplit; discriminate].
    assert (Hbody :
              (first' <- lift (Got first) ;;
               n' <- lift (match Py.int (Py.remove_char "." first') with
                           | Some n => Got n
                           | None => Threw ValueError
                           end) ;;
               let key_index := (n' - 1)%Z in
               key' <- stored_field key_index "key" ;;
               secret' <- stored_field key_index "secret" ;;
               request_bearer env key' secret' key_index) st
              = request_bearer env key secret (number - 1) st).
    { unfold bind, lift, ret. rewrite Hint.
      unfold stored_field, stored_entry, bind, lift. rewrite Hkeys.
      rewrite Hentry. cbn. rewrite Hkey. cbn.
      rewrite Hkeys, Hentry. cbn. rewrite Hsec.
      reflexivity. }
    unfold use_choice. rewrite Hsplit.
    destruct rest as [|a [|b rest]]; [exact Hbody | | exact Hbody].
    exfalso. apply Hrest. reflexivity.
Qed.

(** The label number of entry [n], chosen with words enough, resolves to
    that entry. *)
Lemma resolves_entry (l : list json) (chosen first : string)
    (rest : list string) (n : nat) (d : list (string * json))
    (key secret : json) :
  Py.split chosen = first :: rest ->
  List.length rest <> 1 ->
  Py.int (Py.remove_char "." first) = Some (Z.of_nat (S n)) ->
  nth_error l n = Some (JDict d) ->
  Dict.get "key" d = Some key ->
  Dict.get "secret" d = Some secret ->
  resolves l chosen key secret (Z.of_nat n).
Proof.
  intros Hsplit Hrest Hint Hnth Hkey Hsec.
  replace (Z.of_nat n) with (Z.of_nat (S n) - 1)%Z by lia.
  apply (selected l chosen first rest (Z.of_nat (S n)) (JDict d) key secret);
    try assumption.
  - replace (Z.of_nat (S n) - 1)%Z with (Z.of_nat n) by lia.
    exact (index_nat _ _ _ Hnth).
  - cbn. rewrite Hkey. reflexivity.
  - cbn. rewrite Hsec. reflexivity.
Qed.

(** Every choice that resolves has its upsert. *)
Lemma resolves_upserts (l : list json) (chosen : string) (key secret : json)
    (index : Z) :
  resolves l chosen key secret index ->
  exists stored, upserts l key secret index stored.
Proof.
  intros Hres. destruct Hres as
      [k s Hsplit Hk Hs
      | first rest number entry key secret Hsplit Hrest Hint Hentry Hkey Hsec].
  - eexists. apply appends.
  - destruct (Z.eq_dec (number - 1) (-1)) as [Heq | Hne].
    + rewrite Heq. eexists. apply appends.
    + unfold Py.index in Hentry.
      destruct (Py.norm_index l (number - 1)) as [n|] eqn:Hnorm;
        [| discriminate].
      destruct entry as [| | | | | |d]; try discriminate.
      eexists. exact (updates l key secret (number - 1) n d Hne Hnorm Hentry).
Qed.





(** ** The keys file: encoding and decoding *)

Lemma append_assoc (a b c : string) : (a ++ b) ++ c = a ++ (b ++ c).
Proof. induction a as [|x a IH]; cbn; [reflexivity | rewrite IH; reflexivity]. Qed.

Lemma append_nil_r (a : string) : a ++ "" = a.
Proof. induction a as [|x a IH]; cbn; [reflexivity | rewrite IH; reflexivity]. Qed.

Lemma length_append (a b : string) :
  String.length (a ++ b) = String.length a + String.length b.
Proof. induction a as [|x a IH]; cbn; [reflexivity | rewrite IH; reflexivity]. Qed.

(** Each escape sequence reads back as the character it stands for. *)
Lemma scanstring_escape_char (c : ascii) (t : string) :
  Json.scanstring (Json.escape_char c ++ t)
  = Json.cons_char c (Json.scanstring t).
Proof.
  destruct c as [[] [] [] [] [] [] [] []]; reflexivity.
Qed.

Lemma scanstring_escape (s rest : string) :
  Json.scanstring (Json.escape s ++ String dquote rest) = Some (s, rest).
Proof.
  induction s as [|c s IH]; [reflexivity|].
  cbn [Json.escape]. rewrite append_assoc, scanstring_escape_char, IH.
  reflexivity.
Qed.

Lemma skip_ws_spaces (n : nat) (s : string) :
  Json.skip_ws (spaces n ++ s) = Json.skip_ws s.
Proof. induction n as [|n IH]; [reflexivity | exact IH]. Qed.

Lemma skip_ws_newline (level : nat) (s : string) :
  Json.skip_ws (Json.newline_indent level ++ s) = Json.skip_ws s.
Proof. unfold Json.newline_indent. cbn. apply skip_ws_spaces. Qed.

Lemma encode_items_eq (level : nat) (xs : list json) :
  (fix items (l : list json) : string :=
     match l with
     | [] => ""
     | y :: l' =>
         "," ++ Json.newline_indent (S level) ++ Json.encode (S level) y
         ++ items l'
     end) xs
  = encode_items level xs.
Proof.
  induction xs as [|y xs IH]; [reflexivity|].
  cbn [encode_items]. rewrite <- IH. reflexivity.
Qed.

Lemma encode_members_eq (level : nat) (kxs : list (string * json)) :
  (fix members (l : list (string * json)) : string :=
     match l with
     | [] => ""
     | (k', y) :: l' =>
         "," ++ Json.newline_indent (S level)
         ++ Json.encode_string k' ++ ": " ++ Json.encode (S level) y
         ++ members l'
     end) kxs
  = encode_members level kxs.
Proof.
  induction kxs as [|[k y] kxs IH]; [reflexivity|].
  cbn [encode_members]. rewrite <- IH. reflexivity.
Qed.

Lemma encode_list_cons (level : nat) (x : json) (xs : list json) :
  Json.encode level (JList (x :: xs))
  = "[" ++ Json.newline_indent (S level) ++ Json.encode (S level) x
    ++ encode_items level xs ++ Json.newline_indent level ++ "]".
Proof. rewrite <- encode_items_eq. reflexivity. Qed.

Lemma encode_dict_cons (level : nat) (k : string) (x : json)
    (kxs : list (string * json)) :
  Json.encode level (JDict ((k, x) :: kxs))
  = "{" ++ Json.newline_indent (S level)
    ++ Json.encode_string k ++ ": " ++ Json.encode (S level) x
    ++ encode_members level kxs ++ Json.newline_indent level ++ "}".
Proof. rewrite <- encode_members_eq. reflexivity. Qed.

(** The text of a value starts with a character that is neither
    whitespace nor a closing bracket. *)
Lemma encode_head (level : nat) (v : json) (rest : string) :
  textual v = true ->
  exists c r,
    Json.encode level v ++ rest = String c r
    /\ Json.is_ws c = false
    /\ Ascii.eqb c "]" = false.
Proof.
  destruct v as [|[]|z|lit|s|[|x xs]|[|[k x] kxs]]; intros H;
    try discriminate; cbn; eexists; eexists; repeat split.
Qed.

Lemma skip_ws_encode (level : nat) (v : json) (rest : string) :
  textual v = true ->
  Json.skip_ws (Json.encode level v ++ rest) = Json.encode level v ++ rest.
Proof.
  intros H. destruct (encode_head level v rest H) as [c [r [-> [Hws _]]]].
  cbn. rewrite Hws. reflexivity.
Qed.

(** A list of pairs with distinct keys is the dict it builds. *)
Lemma set_fresh (k : string) (v : json) (acc : list (string * json)) :
  Dict.mem k acc = false -> Dict.set k v acc = (acc ++ [(k, v)])%list.
Proof.
  induction acc as [|[k' v'] acc IH]; cbn; [reflexivity|].
  destruct (String.eqb k k'); [discriminate|].
  intros H. rewrite (IH H). reflexivity.
Qed.

Lemma mem_snoc (k k' : string) (v : json) (acc : list (string * json)) :
  Dict.mem k (acc ++ [(k', v)])%list = Dict.mem k acc || String.eqb k k'.
Proof.
  induction acc as [|[k0 v0] acc IH]; cbn.
  - destruct (String.eqb k k'); reflexivity.
  - destruct (String.eqb k k0); [reflexivity | exact IH].
Qed.

Lemma fold_set_distinct (ps acc : list (string * json)) :
  distinct_keys ps = true ->
  (forall k, Dict.mem k ps = true -> Dict.mem k acc = false) ->
  fold_left (fun d kv => Dict.set (fst kv) (snd kv) d) ps acc
  = (acc ++ ps)%list.
Proof.
  revert acc. induction ps as [|[k v] ps IH]; intros acc Hd Hfresh; cbn.
  - symmetry. apply app_nil_r.
  - cbn in Hd. apply andb_true_iff in Hd. destruct Hd as [Hk Hd].
    apply negb_true_iff in Hk.
    rewrite set_fresh.
    2:{ apply Hfresh. cbn. rewrite String.eqb_refl. reflexivity. }
    rewrite IH; [rewrite <- app_assoc; reflexivity | exact Hd |].
    intros k' Hk'. rewrite mem_snoc.
    rewrite Hfresh.
    2:{ cbn. destruct (String.eqb k' k); [reflexivity | exact Hk']. }
    cbn. destruct (String.eqb k' k) eqn:Heq; [| reflexivity].
    apply String.eqb_eq in Heq. subst k'. congruence.
Qed.

Lemma of_pairs_distinct (d : list (string * json)) :
  distinct_keys d = true -> Dict.of_pairs d = d.
Proof.
  intros H. unfold Dict.of_pairs.
  rewrite fold_set_distinct; [reflexivity | exact H | reflexivity].
Qed.

Lemma scan_once_list (fuel : nat) (s : string) :
  Json.scan_once (S fuel) (String "[" s)
  = match Json.skip_ws s with
    | String c1 r =>
        if Ascii.eqb c1 "]" then Some (JList [], r)
        else match Json.scan_elems fuel (String c1 r) with
             | Some (vs, r') => Some (JList vs, r')
             | None => None
             end
    | "" => None
    end.
Proof. reflexivity. Qed.

Lemma scan_once_dict (fuel : nat) (s : string) :
  Json.scan_once (S fuel) (String "{" s)
  = match Json.skip_ws s with
    | String c1 r =>
        if Ascii.eqb c1 "}" then Some (JDict [], r)
        else if Ascii.eqb c1 dquote then
          match Json.scan_members fuel r with
          | Some (ps, r') => Some (JDict (Dict.of_pairs ps), r')
          | None => None
          end
        else None
    | "" => None
    end.
Proof. reflexivity. Qed.

Lemma scan_once_string (fuel : nat) (s : string) :
  Json.scan_once (S fuel) (String dquote s)
  = match Json.scanstring s with
    | Some (str, r) => Some (JStr str, r)
    | None => None
    end.
Proof. reflexivity. Qed.

Lemma scan_elems_step (fuel : nat) (s : string) :
  Json.scan_elems (S fuel) s
  = match Json.scan_once fuel s with
    | None => None
    | Some (v, r) =>
        match Json.skip_ws r with
        | String c r1 =>
            if Ascii.eqb c "]" then Some ([v], r1)
            else if Ascii.eqb c "," then
              match Json.scan_elems fuel (Json.skip_ws r1) with
              | Some (vs, r2) => Some (v :: vs, r2)
              | None => None
              end
            else None
        | "" => None
        end
    end.
Proof. reflexivity. Qed.

Lemma scan_members_step (fuel : nat) (s : string) :
  Json.scan_members (S fuel) s
  = match Json.scanstring s with
    | None => None
    | Some (k, r) =>
        match Json.skip_ws r with
        | String c r1 =>
            if Ascii.eqb c ":" then
              match Json.scan_once fuel (Json.skip_ws r1) with
              | None => None
              | Some (v, r2) =>
                  match Json.skip_ws r2 with
                  | String c2 r3 =>
                      if Ascii.eqb c2 "}" then Some ([(k, v)], r3)
                      else if Ascii.eqb c2 "," then
                        match Json.skip_ws r3 with
                        | String c3 r4 =>
                            if Ascii.eqb c3 dquote then
                              match Json.scan_members fuel r4 with
                              | Some (ps, r5) => Some ((k, v) :: ps, r5)
                              | None => None
                              end
                            else None
                        | "" => None
                        end
                      else None
                  | "" => None
                  end
              end
            else None
        | "" => None
        end
    end.
Proof. reflexivity. Qed.

Lemma size_pos (v : json) : 1 <= size v.
Proof. destruct v; cbn; lia. Qed.

(** Rewriting with an instance of a hypothesis, up to the unfolding of
    the appends of literal texts. *)
Ltac rewrite_text H :=
  let E := fresh "E" in
  pose proof H as E; cbn [append] in E; cbn [append];
  rewrite E; clear E.

Lemma reads_back_all (fuel : nat) : reads_back fuel.
Proof.
  induction fuel as [|fuel [IHv [IHe IHm]]].
  { repeat split.
    - intros v level rest _ H. pose proof (size_pos v). lia.
    - intros x xs level rest _ H. cbn in H. lia.
    - intros k x kxs level rest _ H. cbn in H. lia. }
  repeat split.
  - (* a value *)
    intros v level rest Ht Hs.
    destruct v as [|[]|z|lit|s|[|x xs]|[|[k x] kxs]];
      try discriminate; try reflexivity.
    + (* a string *)
      cbn [Json.encode Json.encode_string append].
      rewrite append_assoc. cbn [append].
      rewrite scan_once_string, scanstring_escape. reflexivity.
    + (* a list *)
      rewrite encode_list_cons. cbn [append].
      rewrite !append_assoc.
      rewrite scan_once_list, skip_ws_newline.
      cbn in Ht. apply andb_true_iff in Ht. destruct Ht as [Hx Hxs].
      rewrite skip_ws_encode by exact Hx.
      destruct (encode_head (S level) x
                  (encode_items level xs
                   ++ Json.newline_indent level ++ "]" ++ rest) Hx)
        as [c [r [Heq [_ Hbr]]]].
      rewrite Heq, Hbr, <- Heq.
      assert (Ht : forallb textual (x :: xs) = true)
        by (cbn; rewrite Hx, Hxs; reflexivity).
      assert (Hf : list_sum (map (fun y => 1 + size y) (x :: xs)) <= fuel)
        by (cbn in Hs |- *; lia).
      rewrite_text (IHe x xs level rest Ht Hf). reflexivity.
    + (* a dict *)
      rewrite encode_dict_cons. cbn [append].
      rewrite !append_assoc.
      rewrite scan_once_dict, skip_ws_newline.
      cbn in Ht. apply andb_true_iff in Ht. destruct Ht as [Hd Hall].
      cbn [Json.encode_string append Json.skip_ws].
      change (Json.is_ws dquote) with false. cbv iota.
      change (Ascii.eqb dquote "}") with false.
      change (Ascii.eqb dquote dquote) with true. cbv iota.
      rewrite !append_assoc. cbn [append].
      assert (Hf : list_sum (map (fun kv => 1 + size (snd kv))
                                   ((k, x) :: kxs)) <= fuel)
        by (cbn in Hs |- *; lia).
      rewrite_text (IHm k x kxs level rest Hall Hf).
      rewrite of_pairs_distinct; [reflexivity|].
      cbn. exact Hd.
  - (* the items of a list *)
    intros x xs level rest Ht Hs.
    cbn in Ht. apply andb_true_iff in Ht. destruct Ht as [Hx Hxs].
    rewrite scan_elems_step.
    rewrite IHv; [| exact Hx | cbn in Hs; lia].
    destruct xs as [|y xs].
    + cbn [encode_items append]. rewrite skip_ws_newline. reflexivity.
    + cbn [encode_items append]. rewrite !append_assoc.
      cbn [Json.skip_ws].
      change (Json.is_ws ",") with false. cbv iota.
      change (Ascii.eqb "," "]") with false.
      change (Ascii.eqb "," ",") with true. cbv iota.
      cbn in Hxs. apply andb_true_iff in Hxs. destruct Hxs as [Hy Hxs].
      rewrite skip_ws_newline, skip_ws_encode by exact Hy.
      assert (Ht : forallb textual (y :: xs) = true)
        by (cbn; rewrite Hy, Hxs; reflexivity).
      assert (Hf : list_sum (map (fun y => 1 + size y) (y :: xs)) <= fuel)
        by (cbn in Hs |- *; pose proof (size_pos x); lia).
      rewrite_text (IHe y xs level rest Ht Hf). reflexivity.
  - (* the members of a dict *)
    intros k x kxs level rest Ht Hs.
    cbn in Ht. apply andb_true_iff in Ht. destruct Ht as [Hx Hkxs].
    rewrite scan_members_step, scanstring_escape.
    cbn [append Json.skip_ws].
    change (Json.is_ws ":") with false. cbv iota.
    change (Ascii.eqb ":" ":") with true. cbv iota.
    cbn [Json.skip_ws].
    change (Json.is_ws " ") with true. cbv iota.
    rewrite skip_ws_encode by exact Hx.
    rewrite IHv; [| exact Hx | cbn in Hs; lia].
    destruct kxs as [|[k' y] kxs].
    + cbn [encode_members append]. rewrite skip_ws_newline. reflexivity.
    + cbn [encode_members append]. rewrite !append_assoc.
      cbn [Json.skip_ws].
      change (Json.is_ws ",") with false. cbv iota.
      change (Ascii.eqb "," "}") with false.
      change (Ascii.eqb "," ",") with true. cbv iota.
      rewrite skip_ws_newline.
      cbn [Json.encode_string append Json.skip_ws].
      change (Json.is_ws dquote) with false. cbv iota.
      change (Ascii.eqb dquote dquote) with true. cbv iota.
      rewrite !append_assoc. cbn [append].
      assert (Hf : list_sum (map (fun kv => 1 + size (snd kv))
                                   ((k', y) :: kxs)) <= fuel)
        by (cbn in Hs |- *; pose proof (size_pos x); lia).
      rewrite_text (IHm k' y kxs level rest Hkxs Hf). reflexivity.
Qed.

Lemma sum_cons {A} (f : A -> nat) (x : A) (l : list A) :
  list_sum (map f (x :: l)) = f x + list_sum (map f l).
Proof. reflexivity. Qed.

Lemma length_newline_indent (level : nat) :
  1 <= String.length (Json.newline_indent level).
Proof. cbn. lia. Qed.

(** The encoded text is at least as long as the bound on the turns. *)
Lemma size_le_length (n : nat) :
  forall v level,
    size v <= n -> textual v = true ->
    size v <= String.length (Json.encode level v).
Proof.
  induction n as [|n IH]; intros v level Hn Ht.
  { pose proof (size_pos v). lia. }
  destruct v as [|[]|z|lit|s|[|x xs]|[|[k x] kxs]];
    try discriminate; try (cbn; lia).
  - (* a list *)
    rewrite encode_list_cons. rewrite !length_append.
    cbn in Ht. apply andb_true_iff in Ht. destruct Ht as [Hx Hxs].
    assert (Hitems : forall l,
               forallb textual l = true ->
               list_sum (map (fun y => 1 + size y) l) <= n ->
               list_sum (map (fun y => 1 + size y) l)
               <= String.length (encode_items level l)).
    { induction l as [|y l IHl]; intros Hl Hsum; [cbn; lia|].
      cbn in Hl. apply andb_true_iff in Hl. destruct Hl as [Hy Hl].
      cbn [encode_items]. rewrite !length_append.
      rewrite sum_cons in Hsum |- *.
      assert (size y <= String.length (Json.encode (S level) y))
        by (apply IH; [lia | exact Hy]).
      assert (list_sum (map (fun y => 1 + size y) l)
              <= String.length (encode_items level l))
        by (apply IHl; [exact Hl | lia]).
      pose proof (length_newline_indent (S level)).
      change (String.length ",") with 1. lia. }
    change (size (JList (x :: xs)))
      with (1 + list_sum (map (fun y => 1 + size y) (x :: xs))) in Hn |- *.
    rewrite sum_cons in Hn |- *.
    assert (size x <= String.length (Json.encode (S level) x))
      by (apply IH; [lia | exact Hx]).
    assert (list_sum (map (fun y => 1 + size y) xs)
            <= String.length (encode_items level xs))
      by (apply Hitems; [exact Hxs | lia]).
    pose proof (length_newline_indent (S level)).
    change (String.length "[") with 1. lia.
  - (* a dict *)
    rewrite encode_dict_cons. rewrite !length_append.
    cbn in Ht. apply andb_true_iff in Ht. destruct Ht as [_ Ht].
    apply andb_true_iff in Ht. destruct Ht as [Hx Hkxs].
    assert (Hmembers : forall l,
               forallb (fun kv => textual (snd kv)) l = true ->
               list_sum (map (fun kv => 1 + size (snd kv)) l) <= n ->
               list_sum (map (fun kv => 1 + size (snd kv)) l)
               <= String.length (encode_members level l)).
    { induction l as [|[k' y] l IHl]; intros Hl Hsum; [cbn; lia|].
      cbn in Hl. apply andb_true_iff in Hl. destruct Hl as [Hy Hl].
      cbn [encode_members]. rewrite !length_append.
      rewrite sum_cons in Hsum |- *. cbn [snd] in Hsum |- *.
      assert (size y <= String.length (Json.encode (S level) y))
        by (apply IH; [lia | exact Hy]).
      assert (list_sum (map (fun kv => 1 + size (snd kv)) l)
              <= String.length (encode_members level l))
        by (apply IHl; [exact Hl | lia]).
      pose proof (length_newline_indent (S level)).
      change (String.length ",") with 1. lia. }
    change (size (JDict ((k, x) :: kxs)))
      with (1 + list_sum (map (fun kv => 1 + size (snd kv)) ((k, x) :: kxs)))
      in Hn |- *.
    rewrite sum_cons in Hn |- *. cbn [snd] in Hn |- *.
    assert (size x <= String.length (Json.encode (S level) x))
      by (apply IH; [lia | exact Hx]).
    assert (list_sum (map (fun kv => 1 + size (snd kv)) kxs)
            <= String.length (encode_members level kxs))
      by (apply Hmembers; [exact Hkxs | lia]).
    pose proof (length_newline_indent (S level)).
    change (String.length "{") with 1. lia.
Qed.

(** Decoding the text [json.dump] writes gives the value back, for every
    value without numbers. *)
Lemma loads_dumps (v : json) :
  textual v = true -> Json.loads (Json.dumps v) = Some v.
Proof.
  intros Ht. unfold Json.loads, Json.decode, Json.dumps.
  pose proof (skip_ws_encode 0 v "" Ht) as Hws.
  rewrite append_nil_r in Hws. rewrite Hws.
  destruct (reads_back_all (2 * String.length (Json.encode 0 v) + 2))
    as [Hv _].
  pose proof (Hv v 0 "" Ht) as Hscan. rewrite append_nil_r in Hscan.
  rewrite Hscan; [reflexivity|].
  pose proof (size_le_length (size v) v 0 (le_n _) Ht). lia.
Qed.

Lemma credential_entry_textual (e : json) :
  credential_entry e = true -> textual e = true.
Proof.
  destruct e as [| | | | | |d]; try discriminate. cbn.
  intros H. apply andb_true_iff in H. destruct H as [H Hall].
  apply andb_true_iff in H. destruct H as [H _].
  apply andb_true_iff in H. destruct H as [Hd _].
  rewrite Hd. cbn.
  clear Hd. induction d as [|[k v] d IH]; [reflexivity|].
  cbn in Hall |- *. apply andb_true_iff in Hall. destruct Hall as [Hkv Hall].
  rewrite (IH Hall), andb_true_r.
  unfold credential_field in Hkv. cbn [fst snd] in Hkv.
  destruct v; try reflexivity; cbn in Hkv;
    rewrite ?andb_false_r in Hkv; discriminate.
Qed.

Lemma credentials_textual (v : json) :
  credentials v = true -> textual v = true.
Proof.
  destruct v as [| | | | |l|]; try discriminate. cbn.
  induction l as [|e l IH]; [reflexivity|].
  cbn. intros H. apply andb_true_iff in H. destruct H as [He Hl].
  rewrite (credential_entry_textual e He), (IH Hl). reflexivity.
Qed.

(** *** The text of a credential list asks nothing of the interpreter *)

Lemma look_app (v : Json.survey) (a b : string) :
  Json.look v (a ++ b) = Json.look (Json.look v a) b.
Proof.
  revert v. induction a as [|c a IH]; intros v; [reflexivity|].
  cbn. apply IH.
Qed.

Lemma calm_quiet (d : nat) (v : Json.survey) (t : string) :
  calm d v -> quiet_text t = true -> calm d (Json.look v t).
Proof.
  revert v. induction t as [|c t IH]; intros v Hv Ht; [exact Hv|].
  cbn in Ht. apply andb_true_iff in Ht. destruct Ht as [Hc Ht].
  cbn [Json.look]. apply IH; [|exact Ht].
  destruct Hv as [Hp [Hd [Hdeep [Hlong Hb]]]].
  unfold quiet in Hc. apply negb_true_iff in Hc.
  repeat (apply orb_false_iff in Hc; destruct Hc as [Hc ?]).
  unfold Json.step. rewrite Hp.
  repeat match goal with H : _ = false |- _ => rewrite H; clear H end.
  cbn. repeat split; assumption.
Qed.

Lemma quiet_spaces (n : nat) : quiet_text (spaces n) = true.
Proof. induction n as [|n IH]; [reflexivity | exact IH]. Qed.

Lemma calm_newline (d : nat) (v : Json.survey) (level : nat) :
  calm d v -> calm d (Json.look v (Json.newline_indent level)).
Proof.
  intros Hv. apply calm_quiet; [exact Hv|].
  unfold Json.newline_indent. cbn. apply quiet_spaces.
Qed.

(** Inside a string an escape sequence of the encoder passes unnoticed. *)
Lemma look_escape_char (v : Json.survey) (c : ascii) :
  Json.look (Json.move Json.Inside v) (Json.escape_char c)
  = Json.move Json.Inside v.
Proof.
  destruct c as [[] [] [] [] [] [] [] []]; reflexivity.
Qed.

Lemma look_escape (v : Json.survey) (s : string) :
  Json.look (Json.move Json.Inside v) (Json.escape s)
  = Json.move Json.Inside v.
Proof.
  induction s as [|c s IH]; [reflexivity|].
  cbn [Json.escape]. rewrite look_app, look_escape_char. exact IH.
Qed.

Lemma calm_string (d : nat) (v : Json.survey) (s : string) :
  calm d v -> calm d (Json.look v (Json.encode_string s)).
Proof.
  intros [Hp [Hd [Hdeep [Hlong Hb]]]].
  unfold Json.encode_string. cbn [Json.look].
  assert (Hstep : Json.step v dquote = Json.move Json.Inside v).
  { unfold Json.step. rewrite Hp. reflexivity. }
  rewrite Hstep, look_app, look_escape. cbn.
  repeat split; assumption.
Qed.

Lemma calm_field (d : nat) (v : Json.survey) (level : nat) (x : json) :
  is_text_or_none x = true ->
  calm d v -> calm d (Json.look v (Json.encode level x)).
Proof.
  intros Hx Hv. destruct x; try discriminate.
  - apply calm_quiet; [exact Hv | reflexivity].
  - apply calm_string. exact Hv.
Qed.

Lemma credential_field_value (kv : string * json) :
  credential_field kv = true -> is_text_or_none (snd kv) = true.
Proof.
  unfold credential_field. destruct (snd kv); cbn;
    rewrite ?andb_false_r; try discriminate; reflexivity.
Qed.

Lemma calm_members (d : nat) (v : Json.survey) (level : nat)
    (kxs : list (string * json)) :
  forallb credential_field kxs = true ->
  calm d v -> calm d (Json.look v (encode_members level kxs)).
Proof.
  revert v. induction kxs as [|[k x] kxs IH]; intros v Hall Hv; [exact Hv|].
  cbn in Hall. apply andb_true_iff in Hall. destruct Hall as [Hkx Hall].
  cbn [encode_members]. rewrite !look_app.
  apply IH; [exact Hall|].
  apply calm_field; [exact (credential_field_value _ Hkx)|].
  apply calm_quiet; [|reflexivity].
  apply calm_string.
  apply calm_newline.
  apply calm_quiet; [exact Hv | reflexivity].
Qed.

Lemma calm_descend (d : nat) (v : Json.survey) (c : ascii) :
  Ascii.eqb c "[" || Ascii.eqb c "{" = true ->
  d < 2 -> calm d v -> calm (S d) (Json.look v (String c "")).
Proof.
  intros Hc Hd [Hp [Hdep [Hdeep [Hlong Hb]]]]. cbn [Json.look].
  assert (Hq : Ascii.eqb c dquote = false).
  { destruct (Ascii.eqb_spec c dquote) as [->|]; [discriminate | reflexivity]. }
  unfold Json.step. rewrite Hp, Hq, Hc. unfold calm, Json.descend. cbn.
  repeat split; try assumption; rewrite Hdep; [reflexivity|].
  apply Nat.max_lub; lia.
Qed.

Lemma calm_ascend (d : nat) (v : Json.survey) (c : ascii) :
  Ascii.eqb c "]" || Ascii.eqb c "}" = true ->
  calm (S d) v -> calm d (Json.look v (String c "")).
Proof.
  intros Hc [Hp [Hdep [Hdeep [Hlong Hb]]]]. cbn [Json.look].
  assert (Hq : Ascii.eqb c dquote = false
               /\ Ascii.eqb c "[" || Ascii.eqb c "{" = false).
  { apply orb_true_iff in Hc.
    destruct Hc as [Hc | Hc]; apply Ascii.eqb_eq in Hc; subst c;
      split; reflexivity. }
  destruct Hq as [Hq Ho].
  unfold Json.step. rewrite Hp, Hq, Ho, Hc. unfold calm, Json.ascend. cbn.
  repeat split; try assumption. rewrite Hdep. reflexivity.
Qed.

Lemma calm_entry (d : nat) (v : Json.survey) (level : nat) (e : json) :
  credential_entry e = true ->
  d < 2 -> calm d v -> calm d (Json.look v (Json.encode level e)).
Proof.
  destruct e as [| | | | | |[|[k x] kxs]]; try discriminate.
  intros He Hd Hv.
  unfold credential_entry in He.
  apply andb_true_iff in He. destruct He as [_ Hall].
  cbn [forallb] in Hall. apply andb_true_iff in Hall.
  destruct Hall as [Hkx Hall].
  rewrite encode_dict_cons, !look_app.
  apply calm_ascend; [reflexivity|].
  apply calm_newline.
  apply calm_members; [exact Hall|].
  apply calm_field; [exact (credential_field_value _ Hkx)|].
  apply calm_quiet; [|reflexivity].
  apply calm_string.
  apply calm_newline.
  apply calm_descend; [reflexivity | exact Hd | exact Hv].
Qed.

Lemma calm_items (d : nat) (v : Json.survey) (level : nat) (l : list json) :
  forallb credential_entry l = true ->
  d < 1 -> calm (S d) v -> calm (S d) (Json.look v (encode_items level l)).
Proof.
  revert v. induction l as [|e l IH]; intros v Hall Hd Hv; [exact Hv|].
  cbn in Hall. apply andb_true_iff in Hall. destruct Hall as [He Hall].
  cbn [encode_items]. rewrite !look_app.
  apply IH; [exact Hall | exact Hd |].
  apply calm_entry; [exact He | lia |].
  apply calm_newline.
  apply calm_quiet; [exact Hv | reflexivity].
Qed.

(** The text [json.dump] writes for a list of credential entries is below
    the marks and within the alphabet. *)
Lemma credentials_plain (v : json) :
  credentials v = true ->
  Json.strained (Json.dumps v) = false /\ Json.wide (Json.dumps v) = false.
Proof.
  destruct v as [| | | | |l|]; try discriminate. cbn [credentials].
  intros Hall.
  assert (Hcalm : calm 0 (Json.look Json.first_look (Json.dumps (JList l)))).
  { assert (H0 : calm 0 Json.first_look) by (repeat split; cbn; lia).
    unfold Json.dumps. destruct l as [|e l].
    - repeat split; try reflexivity; cbn; lia.
    - cbn in Hall. apply andb_true_iff in Hall. destruct Hall as [He Hall].
      rewrite encode_list_cons, !look_app.
      apply calm_ascend; [reflexivity|].
      apply calm_newline.
      apply calm_items; [exact Hall | lia |].
      apply calm_entry; [exact He | lia |].
      apply calm_newline.
      apply calm_descend; [reflexivity | lia | exact H0]. }
  destruct Hcalm as [_ [_ [Hdeep [Hlong Hb]]]].
  unfold Json.strained, Json.wide. rewrite Hlong, Hb.
  split; [|reflexivity].
  apply orb_false_iff. split; [|reflexivity].
  apply Nat.ltb_ge. unfold Json.nesting_mark. lia.
Qed.

(** [json.load] reads back what [json.dump] wrote for a list of credential
    entries, whatever the interpreter's limits. *)
Lemma json_load_credentials (env : Env) (v : json) :
  credentials v = true -> json_load env (Json.dumps v) = Loaded v.
Proof.
  intros Hv. destruct (credentials_plain v Hv) as [Hs Hw].
  rewrite (json_load_plain env _ Hs Hw).
  rewrite (loads_dumps v (credentials_textual v Hv)). reflexivity.
Qed.

(** C5: the keys in memory are a valid sequence of credential entries and
    the file can be written.  Then [save_keys] returns and leaves in the
    file a text that decodes to these keys; a [load_keys] that finds this
    file, in whatever session, returns with exactly these keys in memory,
    and so does a fresh start of the program. *)
Theorem save_then_load (env : Env) (st : App) :
  credentials (keys st) = true ->
  writable st = true ->
  exists st1,
    save_keys st = Ok tt st1
    /\ keys st1 = keys st
    /\ keys_file st1 = FileText (Json.dumps (keys st))
    /\ Json.loads (Json.dumps (keys st)) = Some (keys st)
    /\ (forall st2,
           keys_file st2 = keys_file st1 ->
           load_keys env st2 = Ok tt (with_keys (keys st) st2))
    /\ keys (final (init env (new_app (keys_file st1) true))) = keys st.
Proof.
  intros Hvalid Hw.
  pose proof (loads_dumps (keys st) (credentials_textual _ Hvalid)) as Hload.
  pose proof (json_load_credentials env (keys st) Hvalid) as Hjson.
  exists (with_keys_file (FileText (Json.dumps (keys st))) st).
  split; [unfold save_keys; rewrite Hw; reflexivity|].
  split; [reflexivity|]. split; [reflexivity|]. split; [exact Hload|].
  split.
  - intros st2 Hfile. unfold load_keys. rewrite Hfile.
    cbn [keys_file with_keys_file].
    rewrite Hjson. reflexivity.
  - unfold init, bind, load_keys. cbn [keys_file new_app with_keys_file].
    rewrite Hjson. reflexivity.
Qed.

Lemma save_then_load_witness :
  let st := with_keys Scenario.two_entries (new_app FileMissing true) in
  keys (final (load_keys Scenario.tight
                 (new_app (keys_file (final (save_keys st))) true)))
  = Scenario.two_entries.
Proof.
  cbv zeta.
  destruct (save_then_load Scenario.tight
              (with_keys Scenario.two_entries (new_app FileMissing true)))
    as [st1 [Hsave [_ [_ [_ [Hback _]]]]]].
  - reflexivity.
  - reflexivity.
  - rewrite Hsave. cbn [final].
    rewrite (Hback (new_app (keys_file st1) true)); reflexivity.
Defined.

(** ** The decoder's bound on its turns *)

Lemma skip_ws_length (s : string) :
  String.length (Json.skip_ws s) <= String.length s.
Proof.
  induction s as [|c s IH]; cbn; [lia|].
  destruct (Json.is_ws c); cbn; lia.
Qed.

Lemma cons_char_some (c : ascii) (o : option (string * string))
    (x r : string) :
  Json.cons_char c o = Some (x, r) -> exists x', o = Some (x', r).
Proof.
  destruct o as [[x' r']|]; [| discriminate].
  cbn. intros H. injection H as _ <-. exists x'. reflexivity.
Qed.

Lemma scanstring_length (n : nat) :
  forall s x r,
    String.length s <= n ->
    Json.scanstring s = Some (x, r) ->
    String.length r < String.length s.
Proof.
  induction n as [|n IH]; intros s x r Hn H.
  { destruct s; [discriminate | cbn in Hn; lia]. }
  destruct s as [|c s']; [discriminate|].
  cbn [Json.scanstring] in H. cbn [String.length] in Hn |- *.
  destruct (Ascii.eqb c dquote).
  { injection H as _ <-. lia. }
  destruct (Ascii.eqb c backslash).
  - destruct s' as [|e s'']; [discriminate|].
    cbn [String.length] in Hn |- *.
    destruct (Ascii.eqb e "u").
    + destruct s'' as [|h1 [|h2 [|h3 [|h4 s4]]]]; try discriminate.
      cbn [String.length] in Hn |- *.
      destruct (Json.hex_value h1); [| discriminate].
      destruct (Json.hex_value h2); [| discriminate].
      destruct (Json.hex_value h3); [| discriminate].
      destruct (Json.hex_value h4); [| discriminate].
      apply cons_char_some in H. destruct H as [x' H].
      apply IH in H; lia.
    + destruct (Json.unescape e); [| discriminate].
      apply cons_char_some in H. destruct H as [x' H].
      apply IH in H; lia.
  - match type of H with
    | (if ?b then _ else _) = _ => destruct b; [discriminate|]
    end.
    apply cons_char_some in H. destruct H as [x' H].
    apply IH in H; lia.
Qed.

Lemma strip_prefix_length (p : string) :
  forall s r,
    Json.strip_prefix p s = Some r ->
    String.length s = String.length p + String.length r.
Proof.
  induction p as [|a p IH]; intros s r H.
  - cbn in H. injection H as <-. reflexivity.
  - destruct s as [|b s]; [discriminate|]. cbn in H.
    destruct (Ascii.eqb a b); [| discriminate].
    cbn. rewrite (IH s r H). reflexivity.
Qed.

Lemma span_digits_length (s : string) :
  String.length (snd (Json.span_digits s)) <= String.length s.
Proof.
  induction s as [|c s IH]; cbn; [lia|].
  destruct (is_digit c); [| cbn; lia].
  destruct (Json.span_digits s) as [ds rest]. cbn in IH |- *. lia.
Qed.

Lemma scan_frac_length (s : string) :
  String.length (snd (Json.scan_frac s)) <= String.length s.
Proof.
  destruct s as [|c s]; cbn; [lia|].
  destruct (Ascii.eqb c "."); [| cbn; lia].
  pose proof (span_digits_length s) as H.
  destruct (Json.span_digits s) as [[|d ds] rest]; cbn in H |- *; lia.
Qed.

Lemma scan_exp_length (s : string) :
  String.length (snd (Json.scan_exp s)) <= String.length s.
Proof.
  destruct s as [|e s]; cbn [Json.scan_exp]; [cbn; lia|].
  destruct (Ascii.eqb e "e" || Ascii.eqb e "E"); [| cbn; lia].
  destruct s as [|sg s]; [cbn; lia|].
  destruct (Ascii.eqb sg "+" || Ascii.eqb sg "-").
  - pose proof (span_digits_length s) as H.
    destruct (Json.span_digits s) as [[|d ds] rest]; cbn in H |- *; lia.
  - pose proof (span_digits_length (String sg s)) as H.
    destruct (Json.span_digits (String sg s)) as [[|d ds] rest];
      cbn in H |- *; lia.
Qed.

Lemma scan_number_length (s : string) (v : json) (r : string) :
  Json.scan_number s = Some (v, r) -> String.length r < String.length s.
Proof.
  unfold Json.scan_number.
  assert (Hsign : String.length (snd (Json.scan_sign s)) <= String.length s).
  { destruct s as [|c s]; cbn; [lia|].
    destruct (Ascii.eqb c "-"); cbn; lia. }
  destruct (Json.scan_sign s) as [neg s0]. cbn in Hsign.
  assert (Hint : forall ip r1,
             Json.scan_int_part s0 = Some (ip, r1) ->
             String.length r1 < String.length s0).
  { intros ip r1. destruct s0 as [|c s0']; [discriminate|].
    cbn [Json.scan_int_part].
    destruct (Ascii.eqb c "0").
    - intros H. injection H as _ <-. cbn. lia.
    - destruct (is_digit c) eqn:Hd; [| discriminate].
      intros H. injection H as H.
      cbn [Json.span_digits] in H. rewrite Hd in H.
      pose proof (span_digits_length s0') as Hlen.
      destruct (Json.span_digits s0') as [ds rest].
      injection H as _ <-. cbn in Hlen |- *. lia. }
  destruct (Json.scan_int_part s0) as [[ip r1]|]; [| discriminate].
  specialize (Hint ip r1 eq_refl).
  pose proof (scan_frac_length r1) as Hfrac.
  destruct (Json.scan_frac r1) as [fp r2]. cbn in Hfrac.
  pose proof (scan_exp_length r2) as Hexp.
  destruct (Json.scan_exp r2) as [ep r3]. cbn in Hexp.
  destruct fp, ep; intros H; injection H as _ <-; lia.
Qed.

Lemma scan_atom_length (s : string) (v : json) (r : string) :
  Json.scan_atom s = Some (v, r) -> String.length r < String.length s.
Proof.
  unfold Json.scan_atom, Json.scan_constant.
  repeat match goal with
         | |- context [Json.strip_prefix ?p s] =>
             let H := fresh "H" in
             destruct (Json.strip_prefix p s) eqn:H;
             [apply strip_prefix_length in H; cbn in H;
              intros E; injection E as _ <-; lia |]
         | |- context [Json.scan_number s] =>
             let H := fresh "H" in
             destruct (Json.scan_number s) as [[v0 r0]|] eqn:H;
             [apply scan_number_length in H;
              intros E; injection E as _ <-; lia |]
         end.
  discriminate.
Qed.

Lemma scan_once_step (fuel : nat) (c : ascii) (s' : string) :
  Json.scan_once (S fuel) (String c s')
  = if Ascii.eqb c dquote then
      match Json.scanstring s' with
      | Some (str, r) => Some (JStr str, r)
      | None => None
      end
    else if Ascii.eqb c "{" then
      match Json.skip_ws s' with
      | String c1 r =>
          if Ascii.eqb c1 "}" then Some (JDict [], r)
          else if Ascii.eqb c1 dquote then
            match Json.scan_members fuel r with
            | Some (ps, r') => Some (JDict (Dict.of_pairs ps), r')
            | None => None
            end
          else None
      | "" => None
      end
    else if Ascii.eqb c "[" then
      match Json.skip_ws s' with
      | String c1 r =>
          if Ascii.eqb c1 "]" then Some (JList [], r)
          else match Json.scan_elems fuel (String c1 r) with
               | Some (vs, r') => Some (JList vs, r')
               | None => None
               end
      | "" => None
      end
    else Json.scan_atom (String c s').
Proof. reflexivity. Qed.

Lemma turns_suffice_all (fuel : nat) : turns_suffice fuel.
Proof.
  induction fuel as [|fuel [IHv [IHe IHm]]].
  { repeat split; intros; discriminate. }
  split; [| split].
  - (* a value *)
    intros s v r H. destruct s as [|c s']; [discriminate|].
    rewrite scan_once_step in H. cbn [String.length].
    destruct (Ascii.eqb c dquote) eqn:Hq.
    { destruct (Json.scanstring s') as [[str r0]|] eqn:Hs; [| discriminate].
      injection H as <- <-.
      pose proof (scanstring_length _ _ _ _ (le_n _) Hs) as Hlen.
      split; [lia|]. intros g Hg. destruct g as [|g]; [lia|].
      rewrite scan_once_step, Hq, Hs. reflexivity. }
    destruct (Ascii.eqb c "{") eqn:Hb.
    { pose proof (skip_ws_length s') as Hws.
      destruct (Json.skip_ws s') as [|c1 r0] eqn:Hskip; [discriminate|].
      cbn [String.length] in Hws.
      destruct (Ascii.eqb c1 "}") eqn:Hc.
      { injection H as <- <-. split; [lia|].
        intros g Hg. destruct g as [|g]; [lia|].
        rewrite scan_once_step, Hq, Hb, Hskip, Hc. reflexivity. }
      destruct (Ascii.eqb c1 dquote) eqn:Hd; [| discriminate].
      destruct (Json.scan_members fuel r0) as [[ps r']|] eqn:Hm;
        [| discriminate].
      injection H as <- <-.
      destruct (IHm _ _ _ Hm) as [Hlen Hany].
      split; [lia|]. intros g Hg. destruct g as [|g]; [lia|].
      rewrite scan_once_step, Hq, Hb, Hskip, Hc, Hd.
      rewrite Hany; [reflexivity | lia]. }
    destruct (Ascii.eqb c "[") eqn:Hl.
    { pose proof (skip_ws_length s') as Hws.
      destruct (Json.skip_ws s') as [|c1 r0] eqn:Hskip; [discriminate|].
      destruct (Ascii.eqb c1 "]") eqn:Hc.
      { cbn [String.length] in Hws. injection H as <- <-. split; [lia|].
        intros g Hg. destruct g as [|g]; [lia|].
        rewrite scan_once_step, Hq, Hb, Hl, Hskip, Hc. reflexivity. }
      destruct (Json.scan_elems fuel (String c1 r0)) as [[vs r']|] eqn:He;
        [| discriminate].
      injection H as <- <-.
      destruct (IHe _ _ _ He) as [Hlen Hany].
      split; [lia|]. intros g Hg. destruct g as [|g]; [lia|].
      rewrite scan_once_step, Hq, Hb, Hl, Hskip, Hc.
      rewrite Hany; [reflexivity | lia]. }
    pose proof (scan_atom_length _ _ _ H) as Hlen.
    cbn [String.length] in Hlen.
    split; [lia|]. intros g Hg. destruct g as [|g]; [lia|].
    rewrite scan_once_step, Hq, Hb, Hl. exact H.
  - (* the items of a list *)
    intros s vs r H. rewrite scan_elems_step in H.
    destruct (Json.scan_once fuel s) as [[v r0]|] eqn:Hv; [| discriminate].
    destruct (IHv _ _ _ Hv) as [Hlen Hany].
    pose proof (skip_ws_length r0) as Hws.
    destruct (Json.skip_ws r0) as [|c r1] eqn:Hskip; [discriminate|].
    cbn [String.length] in Hws.
    destruct (Ascii.eqb c "]") eqn:Hc.
    { injection H as <- <-. split; [lia|].
      intros g Hg. destruct g as [|g]; [lia|].
      rewrite scan_elems_step, Hany by lia.
      rewrite Hskip, Hc. reflexivity. }
    destruct (Ascii.eqb c ",") eqn:Hcomma; [| discriminate].
    destruct (Json.scan_elems fuel (Json.skip_ws r1)) as [[vs' r']|] eqn:He;
      [| discriminate].
    injection H as <- <-.
    destruct (IHe _ _ _ He) as [Hlen' Hany'].
    pose proof (skip_ws_length r1) as Hws1.
    split; [lia|]. intros g Hg. destruct g as [|g]; [lia|].
    rewrite scan_elems_step, Hany by lia.
    rewrite Hskip, Hc, Hcomma, Hany' by lia. reflexivity.
  - (* the members of a dict *)
    intros s ps r H. rewrite scan_members_step in H.
    destruct (Json.scanstring s) as [[k r0]|] eqn:Hk; [| discriminate].
    pose proof (scanstring_length _ _ _ _ (le_n _) Hk) as Hklen.
    pose proof (skip_ws_length r0) as Hws0.
    destruct (Json.skip_ws r0) as [|c r1] eqn:Hskip0; [discriminate|].
    cbn [String.length] in Hws0.
    destruct (Ascii.eqb c ":") eqn:Hcolon; [| discriminate].
    pose proof (skip_ws_length r1) as Hws1.
    destruct (Json.scan_once fuel (Json.skip_ws r1)) as [[v r2]|] eqn:Hv;
      [| discriminate].
    destruct (IHv _ _ _ Hv) as [Hlen Hany].
    pose proof (skip_ws_length r2) as Hws2.
    destruct (Json.skip_ws r2) as [|c2 r3] eqn:Hskip2; [discriminate|].
    cbn [String.length] in Hws2.
    destruct (Ascii.eqb c2 "}") eqn:Hclose.
    { injection H as <- <-. split; [lia|].
      intros g Hg. destruct g as [|g]; [lia|].
      rewrite scan_members_step, Hk, Hskip0, Hcolon, Hany by lia.
      rewrite Hskip2, Hclose. reflexivity. }
    destruct (Ascii.eqb c2 ",") eqn:Hcomma; [| discriminate].
    pose proof (skip_ws_length r3) as Hws3.
    destruct (Json.skip_ws r3) as [|c3 r4] eqn:Hskip3; [discriminate|].
    cbn [String.length] in Hws3.
    destruct (Ascii.eqb c3 dquote) eqn:Hquote; [| discriminate].
    destruct (Json.scan_members fuel r4) as [[ps' r5]|] eqn:Hm;
      [| discriminate].
    injection H as <- <-.
    destruct (IHm _ _ _ Hm) as [Hlen' Hany'].
    split; [lia|]. intros g Hg. destruct g as [|g]; [lia|].
    rewrite scan_members_step, Hk, Hskip0, Hcolon, Hany by lia.
    rewrite Hskip2, Hclose, Hcomma, Hskip3, Hquote, Hany' by lia.
    reflexivity.
Qed.

(** [json.loads] fails only on a text that no number of turns decodes. *)
Lemma loads_complete (fuel : nat) (s : string) (v : json) :
  Json.decode fuel s = Some v -> Json.loads s = Some v.
Proof.
  unfold Json.loads, Json.decode.
  destruct (Json.scan_once fuel (Json.skip_ws s)) as [[v0 r]|] eqn:H;
    [| discriminate].
  destruct (turns_suffice_all fuel) as [Hv _].
  destruct (Hv _ _ _ H) as [_ Hany].
  pose proof (skip_ws_length s).
  rewrite Hany by lia. intros E. exact E.
Qed.

(** * Further properties *)

(** ** Requests *)

(** X1: whatever the provider does, [api_request] issues exactly the one
    call it is given and touches nothing of the application but the boxes
    shown; a connection error, like a timeout, comes back as [None], with
    the 'Network problem' box. *)
Theorem api_request_one_call (env : Env) (c : api.call) (st : App) :
  calls (final (api_request env c st)) = snoc (calls st) c
  /\ request_frame st (final (api_request env c st))
  /\ (provider env (calls st) c = api.Raises ConnectionError ->
      api_request env c st
      = Ok None (with_boxes (snoc (boxes st) network_box)
                   (with_calls (snoc (calls st) c) st)))
  /\ (forall r, provider env (calls st) c = api.Returns r ->
                api_request env c st
                = Ok (Some r) (with_calls (snoc (calls st) c) st)).
Proof.
  unfold api_request.
  destruct (provider env (calls st) c) as [r|[| |name]]; cbn.
  all: repeat split; intros; try discriminate.
  injection H as <-. reflexivity.
Qed.

Lemma api_request_one_call_witness :
  api_request Cases.unreachable (api.get_number (JStr "token"))
    (new_app FileMissing true)
  = Ok None (with_boxes [network_box]
               (with_calls [api.get_number (JStr "token")]
                  (new_app FileMissing true))).
Proof.
  apply (api_request_one_call Cases.unreachable
           (api.get_number (JStr "token")) (new_app FileMissing true)).
  reflexivity.
Defined.

(** ** Sending, when there is something to send *)

(** X2: with a bearer and a destination and a text that are not empty,
    [send_message] returns after exactly one call, which carries the
    bearer and the two texts as they were typed.  When the provider
    answers 201 the status bar reports success and both fields are
    cleared; on any other answer, a timeout or a connection error the
    status bar reads 'Request to send message failed' (the status code is
    only in the log) and both fields keep their text.  The keys and the
    received messages are untouched either way. *)
Theorem send_outcome (env : Env) (st : App) (o : api.outcome) :
  bearer st <> JNull ->
  num_text st <> "" ->
  msg_text st <> "" ->
  let c := api.send_message (bearer st) (num_text st) (msg_text st) in
  provider env (calls st) c = o ->
  (forall name, o <> api.Raises (Unexpected name)) ->
  exists st',
    send_message env st = Ok tt st'
    /\ calls st' = snoc (calls st) c
    /\ keys st' = keys st
    /\ received_messages st' = received_messages st
    /\ bearer st' = bearer st
    /\ if accepted o
       then status st' = "Request to send message successful"
            /\ num_text st' = "" /\ msg_text st' = ""
       else status st' = "Request to send message failed"
            /\ num_text st' = num_text st /\ msg_text st' = msg_text st
            /\ (forall r, o = api.Returns r ->
                          stderr st' = snoc (stderr st) (logged "send_message" r)).
Proof.
  intros Hb Hd Ht c Ho Hexp.
  assert (Hrun : send_message env st
                 = (set_status ("Sending message to " ++ num_text st) ;;;
                    b <- gets bearer ;;
                    response <- api_request env
                                  (api.send_message b (num_text st)
                                     (msg_text st)) ;;
                    success <- check_response "send_message" response 201 ;;
                    if success then
                      set_status "Request to send message successful" ;;;
                      modify (with_num_text "") ;;;
                      modify (with_msg_text "")
                    else set_status "Request to send message failed") st).
  { unfold send_message. cbn [outgoing_message message.destination message.text].
    destruct (num_text st) as [|a d]; [contradiction|].
    destruct (msg_text st) as [|b t]; [contradiction|].
    cbn [String.length Nat.eqb].
    destruct (bearer st); try contradiction; reflexivity. }
  rewrite Hrun. clear Hrun.
  unfold api_request, check_response. run. fold c. rewrite Ho.
  destruct o as [r|[| |name]]; [| | | exfalso; eapply Hexp; reflexivity].
  - cbn. destruct (requests.status_code r =? 201)%Z; cbn.
    + eexists. split; [reflexivity|]. cbn. repeat split.
    + eexists. split; [reflexivity|]. cbn. repeat split.
      intros r' E. injection E as <-. reflexivity.
  - cbn. eexists. split; [reflexivity|]. cbn. repeat split.
    intros r' E. discriminate.
  - cbn. eexists. split; [reflexivity|]. cbn. repeat split.
    intros r' E. discriminate.
Qed.

Lemma send_outcome_witness :
  exists st',
    send_message Cases.accepting (Scenario.signed_in "+61400000002" "hello")
    = Ok tt st'
    /\ calls st' = [api.send_message (JStr "token") "+61400000002" "hello"]
    /\ num_text st' = "" /\ msg_text st' = "".
Proof.
  destruct (send_outcome Cases.accepting
              (Scenario.signed_in "+61400000002" "hello")
              (api.Returns (Scenario.response 201 JNull)))
    as [st' [Hrun [Hcalls [_ [_ [_ [_ [Hn Hm]]]]]]]].
  - discriminate.
  - discriminate.
  - discriminate.
  - reflexivity.
  - intros name. discriminate.
  - exists st'. repeat split; assumption.
Defined.

(** ** Choosing a key: the ways out *)

(** X3: when the user closes the key dialog or confirms an empty choice,
    [choose_bearer] leaves the application exactly as it was: no call, no
    box, no change of the keys or the session.  With keys that are a list
    of credential entries it returns (it does not raise). *)
Theorem cancel_changes_nothing (env : Env) (st : App) :
  (forall items,
      fst (getItem env items) = "" \/ snd (getItem env items) = false) ->
  final (choose_bearer env st) = st
  /\ (credentials (keys st) = true -> choose_bearer env st = Ok tt st).
Proof.
  intros Hcancel.
  assert (Hdialog : forall items,
             (let (chosen, ok_pressed) := getItem env items in
              if negb (negb (String.eqb chosen "") && ok_pressed)
              then ret tt else use_choice env chosen) st
             = Ok tt st).
  { intros items. specialize (Hcancel items).
    destruct (getItem env items) as [chosen ok_pressed]. cbn in Hcancel.
    destruct Hcancel as [-> | ->]; [reflexivity|].
    rewrite andb_false_r. reflexivity. }
  split.
  - unfold choose_bearer, bind, gets, lift.
    destruct (iterate (keys st)) as [entries|e]; cbn; [| reflexivity].
    destruct (key_items 1 entries) as [items|e]; cbn; [| reflexivity].
    rewrite Hdialog. reflexivity.
  - intros Hvalid. unfold choose_bearer, bind, gets, lift.
    destruct (keys st) as [| | | | |l|]; try discriminate.
    cbn in Hvalid |- *.
    destruct (key_items_valid l Hvalid 1) as [items Hitems].
    rewrite Hitems. cbn. apply Hdialog.
Qed.

Lemma cancel_changes_nothing_witness :
  let st := with_keys Scenario.two_entries (new_app FileMissing true) in
  choose_bearer Users.cancels st = Ok tt st.
Proof.
  cbv zeta.
  apply (cancel_changes_nothing Users.cancels
           (with_keys Scenario.two_entries (new_app FileMissing true))).
  - intros items. right. reflexivity.
  - reflexivity.
Defined.

(** X4: when the provider answers the bearer request with a status other
    than 200, the workflow ends there and returns: one call was made, the
    status bar names [choose_bearer] and the status code, the log has one
    line, and the bearer, the number, the keys and the keys file are what
    they were.  No box is shown. *)
Theorem refused_bearer (env : Env) (st : App) (key secret : json)
    (key_index : Z) (r : requests.Response) :
  provider env (calls st) (api.get_bearer key secret) = api.Returns r ->
  requests.status_code r <> 200%Z ->
  exists st',
    request_bearer env key secret key_index st = Ok tt st'
    /\ calls st' = snoc (calls st) (api.get_bearer key secret)
    /\ status st' = failed_with "choose_bearer" r
    /\ stderr st' = snoc (stderr st) (logged "choose_bearer" r)
    /\ boxes st' = boxes st
    /\ bearer st' = bearer st
    /\ phone_number st' = phone_number st
    /\ keys st' = keys st
    /\ keys_file st' = keys_file st.
Proof.
  intros Hprov Hcode.
  unfold request_bearer, bind, api_request. rewrite Hprov.
  unfold check_response.
  apply Z.eqb_neq in Hcode. rewrite Hcode. run.
  eexists. split; [reflexivity|]. cbn. repeat split.
Qed.

Lemma refused_bearer_witness :
  exists st',
    choose_bearer Users.refusing (new_app FileMissing true) = Ok tt st'
    /\ status st'
       = "Request method choose_bearer failed with code 401, check logs"
    /\ bearer st' = JNull
    /\ keys st' = JList [].
Proof.
  destruct (refused_bearer Users.refusing (new_app FileMissing true)
              (JStr Scenario.key32) (JStr Scenario.secret16) (-1)
              {| requests.status_code := 401;
                 requests.text := "invalid_client";
                 requests.json_body := None |})
    as [st' [Hrun [_ [Hstatus [_ [_ [Hb [_ [Hk _]]]]]]]]].
  - reflexivity.
  - discriminate.
  - exists st'. split; [exact Hrun|].
    split; [rewrite Hstatus; reflexivity|].
    split; [exact Hb | exact Hk].
Defined.

(** The number resolution fails when the answer that counts carries no
    address: it raises, with nothing but the calls and the boxes moved. *)
Lemma resolve_number_fails (env : Env) (st : App) (o : api.outcome) :
  let c2 := api.get_number (bearer st) in
  let c3 := api.new_number (bearer st) in
  provider env (calls st) c2 = o ->
  (forall name, o <> api.Raises (Unexpected name)) ->
  (forall name,
      provider env (snoc (calls st) c2) c3 <> api.Raises (Unexpected name)) ->
  address_from (if reports_none o
                then provider env (snoc (calls st) c2) c3 else o)
  = None ->
  exists e st',
    resolve_number env st = Raise e st'
    /\ calls st'
       = (snoc (calls st) c2 ++ (if reports_none o then [c3] else []))%list
    /\ phone_number st' = phone_number st
    /\ bearer st' = bearer st
    /\ keys st' = keys st
    /\ keys_file st' = keys_file st.
Proof.
  intros c2 c3 Ho Hexp Hexp3 Haddr.
  unfold resolve_number, api_request. run. fold c2. rewrite Ho.
  assert (Hnew : reports_none o = true ->
                 address_from (provider env (snoc (calls st) c2) c3) = None).
  { intros H. rewrite H in Haddr. exact Haddr. }
  destruct o as [r2|[| |name]]; [| | | exfalso; eapply Hexp; reflexivity].
  - cbn in Haddr, Hnew |- *.
    destruct (requests.ok r2) eqn:Hok; cbn in Haddr, Hnew |- *.
    + destruct (json_of r2) as [j|e]; cbn.
      * destruct (subscript j "destinationAddress") as [a|e];
          [discriminate|].
        cbn. eexists. eexists. split; [reflexivity|]. cbn.
        rewrite app_nil_r. repeat split.
      * eexists. eexists. split; [reflexivity|]. cbn.
        rewrite app_nil_r. repeat split.
    + fold c3. specialize (Hnew eq_refl).
      destruct (provider env (snoc (calls st) c2) c3) as [r3|[| |name]];
        [| | | exfalso; eapply Hexp3; reflexivity]; cbn in Hnew |- *.
      * destruct (json_of r3) as [j|e]; cbn.
        -- destruct (subscript j "destinationAddress") as [a|e];
             [discriminate|].
           cbn. eexists. eexists. split; [reflexivity|]. cbn.
           repeat split.
        -- eexists. eexists. split; [reflexivity|]. cbn. repeat split.
      * eexists. eexists. split; [reflexivity|]. cbn. repeat split.
      * eexists. eexists. split; [reflexivity|]. cbn. repeat split.
  - cbn in Hnew |- *. fold c3. specialize (Hnew eq_refl).
    destruct (provider env (snoc (calls st) c2) c3) as [r3|[| |name]];
      [| | | exfalso; eapply Hexp3; reflexivity]; cbn in Hnew |- *.
    + destruct (json_of r3) as [j|e]; cbn.
      * destruct (subscript j "destinationAddress") as [a|e];
          [discriminate|].
        cbn. eexists. eexists. split; [reflexivity|]. cbn. repeat split.
      * eexists. eexists. split; [reflexivity|]. cbn. repeat split.
    + eexists. eexists. split; [reflexivity|]. cbn. repeat split.
    + eexists. eexists. split; [reflexivity|]. cbn. repeat split.
  - cbn in Hnew |- *. fold c3. specialize (Hnew eq_refl).
    destruct (provider env (snoc (calls st) c2) c3) as [r3|[| |name]];
      [| | | exfalso; eapply Hexp3; reflexivity]; cbn in Hnew |- *.
    + destruct (json_of r3) as [j|e]; cbn.
      * destruct (subscript j "destinationAddress") as [a|e];
          [discriminate|].
        cbn. eexists. eexists. split; [reflexivity|]. cbn. repeat split.
      * eexists. eexists. split; [reflexivity|]. cbn. repeat split.
    + eexists. eexists. split; [reflexivity|]. cbn. repeat split.
    + eexists. eexists. split; [reflexivity|]. cbn. repeat split.
Qed.

(** X5: the bearer is granted but no number comes back: the answer that
    counts (that of [get_number], or of [new_number] when [get_number]
    reported none) is no response at all or carries no
    [destinationAddress].  Then the workflow raises, and it raises with the
    new bearer already stored in the session, while the session's number,
    the keys and the keys file are what they were: nothing is saved for a
    pair whose number is unknown. *)
Theorem number_not_resolved (env : Env) (st : App) (key secret : json)
    (key_index : Z) (granted : requests.Response) (token : json)
    (o : api.outcome) :
  let c1 := api.get_bearer key secret in
  let c2 := api.get_number token in
  let c3 := api.new_number token in
  provider env (calls st) c1 = api.Returns granted ->
  requests.status_code granted = 200%Z ->
  access_token (Some granted) = Got token ->
  provider env (snoc (calls st) c1) c2 = o ->
  (forall name, o <> api.Raises (Unexpected name)) ->
  (forall name,
      provider env (snoc (snoc (calls st) c1) c2) c3
      <> api.Raises (Unexpected name)) ->
  address_from (if reports_none o
                then provider env (snoc (snoc (calls st) c1) c2) c3
                else o) = None ->
  exists e st',
    request_bearer env key secret key_index st = Raise e st'
    /\ bearer st' = token
    /\ phone_number st' = phone_number st
    /\ keys st' = keys st
    /\ keys_file st' = keys_file st
    /\ calls st'
       = (calls st ++ c1 :: c2 :: if reports_none o then [c3] else [])%list.
Proof.
  intros c1 c2 c3 Hgrant Hcode Htok Ho Hexp Hexp3 Haddr.
  set (st1 := with_status "Success! Token valid for one hour"
                (with_bearer token (with_calls (snoc (calls st) c1) st))).
  destruct (resolve_number_fails env st1 o Ho Hexp Hexp3 Haddr)
    as [e [st' [Hrun [Hc [Hp [Hb [Hk Hf]]]]]]].
  exists e, st'. split.
  - unfold request_bearer, bind, api_request. fold c1. rewrite Hgrant.
    unfold check_response. rewrite Hcode.
    cbn -[access_token resolve_number remember_number].
    rewrite Htok.
    cbn -[access_token resolve_number remember_number].
    fold st1. rewrite Hrun. reflexivity.
  - rewrite Hb, Hp, Hk, Hf, Hc. subst st1. cbn.
    repeat split. unfold snoc. rewrite <- !app_assoc. reflexivity.
Qed.

Lemma number_not_resolved_witness :
  exists e st',
    request_bearer Cases.bearer_only (JStr Scenario.key32)
      (JStr Scenario.secret16) (-1) (new_app FileMissing true)
    = Raise e st'
    /\ bearer st' = JStr "token"
    /\ phone_number st' = JNull
    /\ keys st' = JList [].
Proof.
  destruct (number_not_resolved Cases.bearer_only (new_app FileMissing true)
              (JStr Scenario.key32) (JStr Scenario.secret16) (-1)
              (Scenario.response 200 (JDict [("access_token", JStr "token")]))
              (JStr "token") (api.Raises Timeout))
    as [e [st' [Hrun [Hb [Hp [Hk _]]]]]].
  - reflexivity.
  - reflexivity.
  - reflexivity.
  - reflexivity.
  - intros name. discriminate.
  - intros name. discriminate.
  - reflexivity.
  - exists e, st'. repeat split; assumption.
Defined.

(** ** Choosing a key: what every run keeps *)

Lemma final_bind {A B} (m : M A) (k : A -> M B) (st : App) :
  final (bind m k st)
  = match m st with
    | Ok a st1 => final (k a st1)
    | Raise _ st1 => st1
    end.
Proof. unfold bind. destruct (m st); reflexivity. Qed.

Lemma request_bearer_calls (env : Env) (key secret : json) (key_index : Z)
    (st : App) :
  exists new,
    calls (final (request_bearer env key secret key_index st))
    = (calls st ++ new)%list
    /\ bearer_calls new.
Proof.
  unfold request_bearer, resolve_number, remember_number, api_request,
    check_response, append_pair, set_number, save_keys, access_token,
    destination_address.
  run.
  repeat (split_match; run).
  all: unfold snoc; rewrite <- ?app_assoc; cbn [app];
    eexists; (split; [reflexivity | constructor]).
Qed.

(** A choice leads nowhere, to the 'Invalid key' box, or to the bearer
    request for some pair and index. *)
Lemma use_choice_cases (env : Env) (chosen : string) (st : App) :
  final (use_choice env chosen st) = st
  \/ use_choice env chosen st
     = Ok tt (with_boxes (snoc (boxes st) invalid_key_box) st)
  \/ exists key secret key_index,
       use_choice env chosen st = request_bearer env key secret key_index st.
Proof.
  unfold use_choice.
  set (rb := request_bearer env).
  destruct (Py.split chosen) as [|p0 [|p1 [|p2 rest]]].
  - left. reflexivity.
  - unfold stored_field, stored_entry. run.
    repeat (split_match; run).
    all: try (left; reflexivity).
    all: right; right; eexists; eexists; eexists; reflexivity.
  - destruct (negb (String.length p0 =? 32)%nat
              || negb (String.length p1 =? 16)%nat).
    + right. left. reflexivity.
    + right. right. eexists. eexists. eexists. reflexivity.
  - unfold stored_field, stored_entry. run.
    repeat (split_match; run).
    all: try (left; reflexivity).
    all: right; right; eexists; eexists; eexists; reflexivity.
Qed.


(** A stored entry whose label is made of two words: the key is empty, so
    the label is the item number and the entry's number.  Picking it is
    taken for a typed pair and turned away; nothing is sent. *)
Example two_word_label_is_checked :
  let st := with_keys Scenario.empty_key (new_app FileMissing true) in
  match Scenario.empty_key with
  | JList l => key_items 1 l
  | _ => Threw TypeError
  end = Got ["1. +61400000001 "]
  /\ choose_bearer Scenario.picks_first st
     = Ok tt (with_boxes [invalid_key_box] st).
Proof. vm_compute. repeat split. Qed.



Lemma choose_bearer_cases (env : Env) (st : App) :
  final (choose_bearer env st) = st
  \/ choose_bearer env st
     = Ok tt (with_boxes (snoc (boxes st) invalid_key_box) st)
  \/ exists key secret key_index,
       choose_bearer env st = request_bearer env key secret key_index st.
Proof.
  unfold choose_bearer, bind, gets, lift.
  destruct (iterate (keys st)) as [entries|e]; cbn; [| left; reflexivity].
  destruct (key_items 1 entries) as [items|e]; cbn; [| left; reflexivity].
  destruct (getItem env items) as [chosen ok_pressed].
  destruct (negb (negb (chosen =? "") && ok_pressed));
    [left; reflexivity|].
  apply use_choice_cases.
Qed.

(** X6: whatever the keys, the user and the provider do, one run of
    [choose_bearer] adds to the calls nothing, or the bearer request, or
    the bearer request and the number query, or these two and the request
    of a new number: never a send, never a poll, never a number request
    before the bearer request, and never more than three calls. *)
Theorem choose_bearer_calls (env : Env) (st : App) :
  exists new,
    calls (final (choose_bearer env st)) = (calls st ++ new)%list
    /\ bearer_calls new
    /\ List.length new <= 3.
Proof.
  assert (Hlen : forall new, bearer_calls new -> List.length new <= 3).
  { intros new H. destruct H; cbn; lia. }
  destruct (choose_bearer_cases env st) as [H | [H | [key [secret [i H]]]]].
  - exists []. rewrite H, app_nil_r. repeat split; [constructor | cbn; lia].
  - exists []. rewrite H, app_nil_r. repeat split; [constructor | cbn; lia].
  - rewrite H.
    destruct (request_bearer_calls env key secret i st) as [new [Hc Hp]].
    exists new. split; [exact Hc|]. split; [exact Hp | exact (Hlen _ Hp)].
Qed.

(** The bearer workflow touches the keys and the keys file only through
    the upsert, entered with the keys and the file as they were. *)
Lemma request_bearer_store (env : Env) (key secret : json) (key_index : Z)
    (st : App) :
  (keys (final (request_bearer env key secret key_index st)) = keys st
   /\ keys_file (final (request_bearer env key secret key_index st))
      = keys_file st)
  \/ exists st2,
       keys st2 = keys st
       /\ keys_file st2 = keys_file st
       /\ writable st2 = writable st
       /\ keys (final (request_bearer env key secret key_index st))
          = keys (final (remember_number key secret key_index st2))
       /\ keys_file (final (request_bearer env key secret key_index st))
          = keys_file (final (remember_number key secret key_index st2)).
Proof.
  unfold request_bearer.
  generalize (remember_number key secret key_index). intros upsert.
  unfold resolve_number, api_request, check_response, access_token,
    destination_address.
  run.
  repeat (split_match; run).
  all: try (left; split; reflexivity).
  all: right;
    match goal with
    | H : _ ?s = Ok _ _ |- _ => exists s; rewrite H; cbn; repeat split
    | H : _ ?s = Raise _ _ |- _ => exists s; rewrite H; cbn; repeat split
    end.
Qed.

Lemma get_set_other (field : string) (v : json) (d : list (string * json)) :
  field <> "number" ->
  Dict.get field (Dict.set "number" v d) = Dict.get field d.
Proof.
  intros Hne. apply String.eqb_neq in Hne.
  induction d as [|[k x] d IH]; cbn [Dict.set Dict.get].
  - rewrite Hne. reflexivity.
  - destruct (String.eqb "number" k) eqn:E; cbn [Dict.get].
    + apply String.eqb_eq in E. subst k. rewrite Hne. reflexivity.
    + destruct (String.eqb field k); [reflexivity | exact IH].
Qed.

Lemma length_update {A} (l : list A) (j : nat) (x : A) :
  List.length (Py.update l j x) = List.length l.
Proof.
  revert j. induction l as [|y l IH]; intros [|j]; cbn; try reflexivity.
  rewrite IH. reflexivity.
Qed.

Lemma nth_error_update {A} (l : list A) (j n : nat) (x : A) :
  nth_error (Py.update l j x) n
  = if (n =? j)%nat
    then match nth_error l n with Some _ => Some x | None => None end
    else nth_error l n.
Proof.
  revert j n. induction l as [|y l IH]; intros j n.
  - cbn. destruct n; destruct (_ =? j)%nat; reflexivity.
  - destruct j as [|j], n as [|n]; cbn; try reflexivity. apply IH.
Qed.

Lemma nth_error_snoc_old {A} (l : list A) (x : A) (n : nat) (e : A) :
  nth_error l n = Some e -> nth_error (snoc l x) n = Some e.
Proof.
  intros H. unfold snoc. rewrite nth_error_app1; [exact H|].
  apply nth_error_Some. congruence.
Qed.

Lemma entries_survive_update (l : list json) (j : nat)
    (d : list (string * json)) (v : json) :
  nth_error l j = Some (JDict d) ->
  entries_survive (JList l)
    (JList (Py.update l j (JDict (Dict.set "number" v d)))).
Proof.
  intros Hj. exists l, (Py.update l j (JDict (Dict.set "number" v d))).
  split; [reflexivity|]. split; [reflexivity|].
  rewrite length_update. split; [lia|].
  intros n e Hn. rewrite nth_error_update, Hn.
  destruct (n =? j)%nat eqn:E.
  - apply Nat.eqb_eq in E. subst n.
    rewrite Hj in Hn. injection Hn as <-.
    eexists. split; [reflexivity|]. intros field Hf. cbn.
    rewrite get_set_other by exact Hf. reflexivity.
  - exists e. split; reflexivity.
Qed.

Lemma entries_survive_refl (l : list json) :
  entries_survive (JList l) (JList l).
Proof.
  exists l, l. split; [reflexivity|]. split; [reflexivity|].
  split; [lia|]. intros n e Hn. exists e. split; [exact Hn | reflexivity].
Qed.

(** The upsert keeps the stored entries, and with a writable file it
    leaves the file in step with the keys. *)
Lemma remember_number_store (key secret : json) (key_index : Z) (st : App)
    (l : list json) :
  keys st = JList l ->
  entries_survive (JList l)
    (keys (final (remember_number key secret key_index st)))
  /\ (writable st = true ->
      file_in_step st (final (remember_number key secret key_index st))).
Proof.
  intros Hkeys. unfold remember_number, bind.
  destruct (key_index =? -1)%Z.
  - unfold append_pair. rewrite Hkeys. unfold gets. cbn.
    unfold set_number. cbn.
    rewrite (norm_index_nat _ _ _ (nth_error_snoc l _)).
    rewrite nth_error_snoc, update_snoc.
    unfold save_keys. cbn.
    split.
    + assert (Hs : entries_survive (JList l)
                     (JList (snoc l (JDict [("key", key); ("secret", secret);
                                            ("number", phone_number st)])))).
      { eexists. eexists. split; [reflexivity|]. split; [reflexivity|].
        unfold snoc. rewrite length_app. cbn. split; [lia|].
        intros n e Hn. exists e.
        split; [apply nth_error_snoc_old; exact Hn | reflexivity]. }
      destruct (writable st); cbn; exact Hs.
    + intros Hw. rewrite Hw. right. reflexivity.
  - unfold ret, gets. cbn. unfold set_number. rewrite Hkeys.
    destruct (Py.norm_index l key_index) as [j|];
      [| cbn; rewrite Hkeys; split;
         [apply entries_survive_refl | intros _; left; split; reflexivity]].
    destruct (nth_error l j) as [[| | | | | |d]|] eqn:Hj;
      try (cbn; rewrite Hkeys; split;
           [apply entries_survive_refl
           | intros _; left; split; reflexivity]).
    unfold save_keys. cbn. split.
    + destruct (writable st); cbn; apply entries_survive_update; exact Hj.
    + intros Hw. rewrite Hw. right. reflexivity.
Qed.

Lemma remember_number_file (key secret : json) (key_index : Z) (st : App) :
  writable st = true ->
  file_in_step st (final (remember_number key secret key_index st)).
Proof.
  intros Hw. destruct (keys st) as [| | | | |l|] eqn:Hkeys.
  6: exact (proj2 (remember_number_store key secret key_index st l Hkeys) Hw).
  all: unfold remember_number, bind, append_pair, set_number, ret, gets.
  all: destruct (key_index =? -1)%Z; cbn; rewrite Hkeys; cbn;
    try rewrite Hkeys; left; split; reflexivity.
Qed.

(** X7: whatever the user and the provider do, one run of [choose_bearer]
    on keys that are a list removes no entry and moves none: the list is
    as long as before or one longer, and every entry that was stored is
    still at its position and answers as before for every field but
    [number] (its key and its secret are never altered). *)
Theorem stored_entries_survive (env : Env) (st : App) (l : list json) :
  keys st = JList l ->
  entries_survive (JList l) (keys (final (choose_bearer env st))).
Proof.
  intros Hkeys.
  destruct (choose_bearer_cases env st) as [H | [H | [key [secret [i H]]]]].
  - rewrite H, Hkeys. apply entries_survive_refl.
  - rewrite H. cbn. rewrite Hkeys. apply entries_survive_refl.
  - rewrite H.
    destruct (request_bearer_store env key secret i st)
      as [[Hk _] | [st2 [Hk2 [_ [_ [Hk _]]]]]].
    + rewrite Hk, Hkeys. apply entries_survive_refl.
    + rewrite Hk. apply remember_number_store. rewrite Hk2. exact Hkeys.
Qed.

Lemma stored_entries_survive_witness :
  exists l',
    keys (final (choose_bearer Scenario.returning
                   (with_keys Scenario.two_entries
                      (new_app FileMissing true))))
    = JList l'
    /\ List.length l' = 2.
Proof.
  destruct (stored_entries_survive Scenario.returning
              (with_keys Scenario.two_entries (new_app FileMissing true))
              [JDict [("key", JStr Scenario.key32);
                      ("secret", JStr (String dquote (String backslash
                                         (String LF "0123456789abc"))));
                      ("number", JStr Scenario.own_number)];
               JDict [("key", JStr Scenario.key32);
                      ("secret", JStr Scenario.secret16)]])
    as [l [l' [Hl [Hl' _]]]].
  - reflexivity.
  - exists l'. split; [exact Hl'|].
    vm_compute in Hl'. injection Hl' as <-. reflexivity.
Defined.

(** X8: with a keys file that can be written, the keys in memory never
    get ahead of the file: after one run of [choose_bearer], whatever the
    user and the provider did and whether it returned or raised, either
    the keys and the file are both what they were, or the file holds the
    text [json.dump] gives for the keys now in memory. *)
Theorem file_follows_keys (env : Env) (st : App) :
  writable st = true ->
  file_in_step st (final (choose_bearer env st)).
Proof.
  intros Hw.
  destruct (choose_bearer_cases env st) as [H | [H | [key [secret [i H]]]]].
  - rewrite H. left. split; reflexivity.
  - rewrite H. left. split; reflexivity.
  - rewrite H.
    destruct (request_bearer_store env key secret i st)
      as [[Hk Hf] | [st2 [Hk2 [Hf2 [Hw2 [Hk Hf]]]]]].
    + left. split; assumption.
    + destruct (remember_number_file key secret i st2) as [[Hk' Hf'] | Hf'].
      * rewrite Hw2. exact Hw.
      * left. split; congruence.
      * right. rewrite Hf, Hk. exact Hf'.
Qed.

Lemma file_follows_keys_witness :
  keys_file (final (choose_bearer Scenario.first_login
                      (new_app FileMissing true)))
  = FileText
      (Json.dumps
         (keys (final (choose_bearer Scenario.first_login
                         (new_app FileMissing true))))).
Proof.
  destruct (file_follows_keys Scenario.first_login (new_app FileMissing true))
    as [[Hk _] | Hf].
  - reflexivity.
  - exfalso. revert Hk. vm_compute. discriminate.
  - exact Hf.
Defined.

(** ** Polling: what every run keeps *)

Lemma poll_once_frame (env : Env) (st : App) :
  poll_frame st (final (poll_once env st)).
Proof.
  unfold poll_once, api_request, check_response, show_row, poll_frame.
  run.
  repeat (split_match; run).
  all: repeat split.
Qed.

Lemma poll_frame_trans (a b c : App) :
  poll_frame a b -> poll_frame b c -> poll_frame a c.
Proof.
  unfold poll_frame. intros H1 H2.
  repeat match goal with H : _ /\ _ |- _ => destruct H end.
  repeat split; congruence.
Qed.

Lemma drain_polls (env : Env) (fuel : nat) :
  forall st,
    poll_frame st (reached (drain env fuel st))
    /\ exists n,
         n <= fuel
         /\ calls (reached (drain env fuel st))
            = polls (calls st) (api.get_message (bearer st)) n.
Proof.
  induction fuel as [|fuel IH]; intros st; cbn [drain].
  - split; [repeat split|]. exists 0. split; [lia | reflexivity].
  - pose proof (poll_once_frame env st) as Hframe.
    destruct (poll_once_outcome env st) as [Hcalls _].
    destruct (poll_once env st) as [[|] st1|e st1];
      cbn [final reached] in *.
    + split; [exact Hframe|]. exists 1. split; [lia | exact Hcalls].
    + destruct (IH st1) as [Hframe1 [n [Hn Hc]]].
      split; [exact (poll_frame_trans _ _ _ Hframe Hframe1)|].
      exists (S n). split; [lia|].
      rewrite Hc, Hcalls. destruct Hframe as [Hb _]. rewrite Hb.
      reflexivity.
    + split; [exact Hframe|]. exists 1. split; [lia | exact Hcalls].
Qed.

(** X9: a run of [get_message], for any number of turns and whatever the
    provider answers, issues nothing but polls with the session's bearer,
    one for each turn taken, and leaves the bearer, the session's number,
    the keys, the keys file and the two input fields as they were. *)
Theorem polling_only_polls (env : Env) (fuel : nat) (st : App) :
  poll_frame st (reached (get_message env fuel st))
  /\ exists n,
       n <= fuel
       /\ calls (reached (get_message env fuel st))
          = polls (calls st) (api.get_message (bearer st)) n.
Proof.
  assert (Hnone : poll_frame st (with_status "Request bearer first" st)
                  /\ exists n,
                       n <= fuel
                       /\ calls (with_status "Request bearer first" st)
                          = polls (calls st) (api.get_message (bearer st)) n).
  { split; [repeat split|]. exists 0. split; [lia | reflexivity]. }
  destruct (drain_polls env fuel (with_status "Fetching messages..." st))
    as [Hframe [n [Hn Hc]]].
  unfold get_message.
  destruct (bearer st) eqn:Hb; try exact Hnone.
  all: cbn in Hc; rewrite Hb in Hc.
  all: destruct (drain env fuel (with_status "Fetching messages..." st))
         as [[[] st'|e st']|st']; cbn in *.
  all: split; [exact Hframe | exists n; split; [exact Hn | exact Hc]].
Qed.

(** ** The table and the list *)

Lemma length_snoc {A} (l : list A) (x : A) :
  List.length (snoc l x) = S (List.length l).
Proof. unfold snoc. rewrite length_app. cbn. lia. Qed.

Lemma set_row_count_next (rows : list Row) :
  set_row_count (List.length rows + 1) rows = snoc rows empty_row.
Proof.
  unfold set_row_count, snoc.
  rewrite firstn_all2 by lia.
  replace (List.length rows + 1 - List.length rows) with 1 by lia.
  reflexivity.
Qed.

Lemma set_cell_last (rows : list Row) (r : Row) (f : Row -> Row) :
  set_cell (List.length rows) f (snoc rows r) = snoc rows (f r).
Proof.
  unfold set_cell. rewrite nth_error_snoc. apply update_snoc.
Qed.

(** Showing the message at the position after the last row: a full row is
    added, or the row is added and a cell refuses its text. *)
Lemma show_row_result (env : Env) (m : message.Message) (st : App) :
  match show_row env (List.length (msg_table st)) m st with
  | Ok _ st' =>
      exists r,
        row_shows env m r
        /\ msg_table st' = snoc (msg_table st) r
        /\ received_messages st' = received_messages st
  | Raise _ st' =>
      List.length (msg_table st') = S (List.length (msg_table st))
      /\ received_messages st' = received_messages st
  end.
Proof.
  unfold show_row, row_shows. run.
  rewrite set_row_count_next.
  destruct (cell_of env (message.sender m)) as [from|e]; cbn.
  2:{ split; [apply length_snoc | reflexivity]. }
  rewrite set_cell_last. unfold time_of.
  destruct (message.timestamp m) as [time|]; cbn.
  2:{ split; [apply length_snoc | reflexivity]. }
  rewrite set_cell_last.
  destruct (cell_of env (message.text m)) as [body|e]; cbn.
  2:{ split; [apply length_snoc | reflexivity]. }
  rewrite set_cell_last. cbn.
  eexists. split; [|split; reflexivity].
  exists from, time, body. repeat split.
Qed.

(** One turn of the loop leaves the list and the table alone, or appends
    one message and shows it. *)
Lemma poll_once_shape (env : Env) (st : App) :
  (received_messages (final (poll_once env st)) = received_messages st
   /\ msg_table (final (poll_once env st)) = msg_table st)
  \/ exists m s,
       received_messages s = snoc (received_messages st) m
       /\ msg_table s = msg_table st
       /\ poll_once env st
          = (show_row env (List.length (received_messages s) - 1) m ;;;
             ret false) s.
Proof.
  unfold poll_once, api_request, check_response.
  generalize (show_row env). intros shows.
  run.
  repeat (split_match; run).
  all: try (left; split; reflexivity).
  all: right;
    match goal with
    | H : _ _ ?m ?s = Ok _ _ |- _ =>
        exists m, s; cbn; rewrite H; repeat split
    | H : _ _ ?m ?s = Raise _ _ |- _ =>
        exists m, s; cbn; rewrite H; repeat split
    end.
Qed.

Lemma poll_once_table (env : Env) (st : App) :
  Forall2 (row_shows env) (received_messages st) (msg_table st) ->
  match poll_once env st with
  | Ok _ st' =>
      Forall2 (row_shows env) (received_messages st') (msg_table st')
  | Raise _ st' =>
      List.length (msg_table st') = List.length (received_messages st')
  end.
Proof.
  intros Hall. pose proof (Forall2_length Hall) as Hlen.
  destruct (poll_once_shape env st) as [[Hr Ht] | [m [s [Hr [Ht Hrun]]]]].
  - destruct (poll_once env st) as [b st'|e st']; cbn in Hr, Ht.
    + rewrite Hr, Ht. exact Hall.
    + rewrite Hr, Ht. symmetry. exact Hlen.
  - rewrite Hrun. unfold bind, ret.
    assert (Hi : List.length (received_messages s) - 1
                 = List.length (msg_table s)).
    { rewrite Hr, Ht, length_snoc. lia. }
    rewrite Hi.
    pose proof (show_row_result env m s) as Hshow.
    destruct (show_row env (List.length (msg_table s)) m s) as [u st'|e st'].
    + destruct Hshow as [r [Hrow [Htab Hrec]]].
      rewrite Htab, Hrec, Hr, Ht. unfold snoc.
      apply Forall2_app; [exact Hall|].
      constructor; [exact Hrow | constructor].
    + destruct Hshow as [Htab Hrec].
      rewrite Htab, Hrec, Hr, Ht, length_snoc. congruence.
Qed.

Lemma drain_table (env : Env) (fuel : nat) :
  forall st,
    Forall2 (row_shows env) (received_messages st) (msg_table st) ->
    match drain env fuel st with
    | Finished (Raise _ st') =>
        List.length (msg_table st') = List.length (received_messages st')
    | Finished (Ok _ st') | StillPolling st' =>
        Forall2 (row_shows env) (received_messages st') (msg_table st')
    end.
Proof.
  induction fuel as [|fuel IH]; intros st Hall; cbn [drain];
    [exact Hall|].
  pose proof (poll_once_table env st Hall) as Hstep.
  destruct (poll_once env st) as [[|] st1|e st1].
  - exact Hstep.
  - apply IH. exact Hstep.
  - exact Hstep.
Qed.

(** A sender that is a JSON number: [QTableWidgetItem] takes the number for
    the type of an item without text, so the message is listed and its row
    has an empty sender cell; the time cell holds the formatted time. *)
Example number_as_sender :
  match get_message Scenario.numeric_sender 2 (Scenario.signed_in "" "") with
  | Finished (Ok _ st') =>
      List.length (received_messages st') = 1
      /\ msg_table st'
         = [{| cell_sender := Some "";
               cell_time := Some "02/01 03:04:05";
               cell_text := Some "hello" |}]
  | _ => False
  end.
Proof. vm_compute. split; reflexivity. Qed.

(** X10: the table follows the list of received messages.  If every row
    shows the message at its position when [get_message] starts (as with
    the empty list and the empty table of a fresh start), then so it is
    when [get_message] returns, and after any number of turns while it is
    still polling: one row for each message, in the order of arrival, with
    the items [QTableWidgetItem] makes of its sender and of its text and,
    between them, its time as [strftime] prints it with the format
    day/month hour:minute:second.  When the run is left by an exception,
    the table still has one row for each message of the list. *)
Theorem table_follows_list (env : Env) (fuel : nat) (st : App) :
  Forall2 (row_shows env) (received_messages st) (msg_table st) ->
  match get_message env fuel st with
  | Finished (Raise _ st') =>
      List.length (msg_table st') = List.length (received_messages st')
  | Finished (Ok _ st') | StillPolling st' =>
      Forall2 (row_shows env) (received_messages st') (msg_table st')
  end.
Proof.
  intros Hall.
  pose proof (drain_table env fuel (with_status "Fetching messages..." st)
                Hall) as Hd.
  unfold get_message.
  destruct (bearer st); try exact Hall.
  all: destruct (drain env fuel (with_status "Fetching messages..." st))
         as [[[] st'|e st']|st']; exact Hd.
Qed.

Lemma table_follows_list_witness :
  match get_message Scenario.twice_then_empty 3 (Scenario.signed_in "" "") with
  | Finished (Ok _ st') =>
      Forall2 (row_shows Scenario.twice_then_empty)
        (received_messages st') (msg_table st')
      /\ msg_table st'
         = [{| cell_sender := Some "+61400000002";
               cell_time := Some "02/01 03:04:05";
               cell_text := Some "hello" |};
            {| cell_sender := Some "+61400000002";
               cell_time := Some "02/01 03:04:05";
               cell_text := Some "hello" |}]
  | _ => False
  end.
Proof.
  pose proof (table_follows_list Scenario.twice_then_empty 3
                (Scenario.signed_in "" "") (Forall2_nil _)) as H.
  destruct (get_message Scenario.twice_then_empty 3 (Scenario.signed_in "" ""))
    as [[[] st'|e st']|st'] eqn:Hrun.
  - split; [exact H|].
    vm_compute in Hrun. injection Hrun as <-. reflexivity.
  - vm_compute in Hrun. discriminate.
  - vm_compute in Hrun. discriminate.
Defined.

(** ** The labels of the dialog and the way they are read back *)

Lemma rev_string_twice (s a b : string) :
  Py.rev_string a (Py.rev_string b s) = Py.rev_string (s ++ a) b.
Proof.
  revert a b. induction s as [|c s IH]; intros a b; [reflexivity|].
  cbn [Py.rev_string append]. rewrite IH. reflexivity.
Qed.

Lemma no_space_rev (s acc : string) :
  no_space (Py.rev_string acc s) = no_space acc && no_space s.
Proof.
  revert acc. induction s as [|c s IH]; intros acc; cbn [Py.rev_string no_space].
  - rewrite andb_true_r. reflexivity.
  - rewrite IH. cbn [no_space].
    destruct (Py.is_space c), (no_space acc), (no_space s); reflexivity.
Qed.

Lemma lstrip_no_space (s : string) : no_space s = true -> Py.lstrip s = s.
Proof.
  destruct s as [|c s]; [reflexivity|]. cbn.
  destruct (Py.is_space c); [discriminate | reflexivity].
Qed.

Lemma strip_no_space (s : string) : no_space s = true -> Py.strip s = s.
Proof.
  intros H. unfold Py.strip. rewrite (lstrip_no_space s H).
  rewrite lstrip_no_space by (rewrite no_space_rev; exact H).
  rewrite rev_string_twice, append_nil_r. reflexivity.
Qed.

Lemma no_space_append (a b : string) :
  no_space (a ++ b) = no_space a && no_space b.
Proof.
  induction a as [|c a IH]; [reflexivity|].
  cbn. rewrite IH. apply andb_assoc.
Qed.

(** Splitting walks over a word without cutting it. *)
Lemma split_from_word (w cur s : string) :
  no_space w = true ->
  Py.split_from cur (w ++ s) = Py.split_from (cur ++ w) s.
Proof.
  revert cur. induction w as [|c w IH]; intros cur H.
  - rewrite append_nil_r. reflexivity.
  - cbn in H. apply andb_true_iff in H. destruct H as [Hc Hw].
    apply negb_true_iff in Hc.
    cbn [append Py.split_from]. rewrite Hc, (IH _ Hw), append_assoc.
    reflexivity.
Qed.

Lemma split_from_space (cur s : string) :
  Py.split_from cur (String " " s)
  = (Py.flush cur ++ Py.split_from "" s)%list.
Proof. reflexivity. Qed.

Lemma flush_word (w : string) : w <> "" -> Py.flush w = [w].
Proof. destruct w; [contradiction | reflexivity]. Qed.

(** The words of [a b] are [a] and the words of [b]. *)
Lemma split_word_then (a rest : string) :
  no_space a = true -> a <> "" ->
  Py.split (a ++ String " " rest) = a :: Py.split rest.
Proof.
  intros Ha Hne. unfold Py.split.
  rewrite split_from_word by exact Ha.
  rewrite split_from_space. cbn [append]. rewrite flush_word by exact Hne.
  reflexivity.
Qed.

Lemma split_last_word (a : string) :
  no_space a = true -> a <> "" -> Py.split a = [a].
Proof.
  intros Ha Hne. unfold Py.split.
  rewrite <- (append_nil_r a) at 1.
  rewrite split_from_word by exact Ha.
  cbn [append Py.split_from]. apply flush_word. exact Hne.
Qed.

(** Decimal digits: no whitespace, no point, and they read back. *)
Lemma digits_no_space (u : Decimal.uint) :
  no_space (NilEmpty.string_of_uint u) = true.
Proof. induction u; cbn; try reflexivity; exact IHu. Qed.

Lemma digits_no_point (u : Decimal.uint) :
  Py.remove_char "." (NilEmpty.string_of_uint u)
  = NilEmpty.string_of_uint u.
Proof. induction u; cbn; try reflexivity; rewrite IHu; reflexivity. Qed.

Lemma remove_char_append (c : ascii) (a b : string) :
  Py.remove_char c (a ++ b) = Py.remove_char c a ++ Py.remove_char c b.
Proof.
  induction a as [|x a IH]; [reflexivity|].
  cbn. destruct (Ascii.eqb x c); rewrite IH; reflexivity.
Qed.

Lemma int_digits_uint (u : Decimal.uint) (acc : Z) :
  Py.int_digits acc true (NilEmpty.string_of_uint u)
  = Some (uint_value acc u).
Proof.
  revert acc. induction u; intros acc; cbn [NilEmpty.string_of_uint uint_value];
    [reflexivity | ..].
  all: cbn [Py.int_digits]; 
    match goal with
    | |- context [is_digit ?c] => change (is_digit c) with true
    end; cbv iota; cbn [code nat_of_ascii]; apply IHu.
Qed.

Lemma uint_value_acc (u : Decimal.uint) (a : positive) :
  Z.pos (Pos.of_uint_acc u a) = uint_value (Z.pos a) u.
Proof.
  revert a. induction u; intros a; cbn [Pos.of_uint_acc uint_value];
    [reflexivity | ..].
  all: rewrite IHu; f_equal; lia.
Qed.

Lemma uint_value_of_uint (u : Decimal.uint) : uint_value 0 u = Z.of_uint u.
Proof.
  unfold Z.of_uint. induction u; cbn [Pos.of_uint uint_value Z.of_N];
    [reflexivity | exact IHu | ..].
  all: rewrite uint_value_acc; reflexivity.
Qed.

Lemma int_of_digits (u : Decimal.uint) :
  u <> Decimal.Nil ->
  Py.int (NilEmpty.string_of_uint u) = Some (uint_value 0 u).
Proof.
  intros Hne. unfold Py.int.
  rewrite strip_no_space by apply digits_no_space.
  destruct u; [contradiction | ..].
  all: cbn [NilEmpty.string_of_uint uint_value]; cbv iota beta;
    cbn [Py.int_digits];
    match goal with
    | |- context [is_digit ?c] => change (is_digit c) with true
    end; cbv iota; cbn [code nat_of_ascii]; apply int_digits_uint.
Qed.

(** The decimal text of a positive number: digits that read back. *)
Lemma str_of_positive (p : positive) :
  exists u,
    str_of_Z (Z.pos p) = NilEmpty.string_of_uint u
    /\ u <> Decimal.Nil
    /\ uint_value 0 u = Z.pos p.
Proof.
  exists (Pos.to_uint p).
  assert (Hval : uint_value 0 (Pos.to_uint p) = Z.pos p).
  { rewrite uint_value_of_uint.
    exact (DecimalZ.of_to (Z.pos p)). }
  assert (Hne : Pos.to_uint p <> Decimal.Nil).
  { intros E. rewrite E in Hval. discriminate. }
  split; [| split; assumption].
  unfold str_of_Z. cbn [Z.to_int NilZero.string_of_int].
  unfold NilZero.string_of_uint.
  destruct (Pos.to_uint p); [contradiction | reflexivity ..].
Qed.

Lemma mem_get (k : string) (d : list (string * json)) :
  Dict.mem k d = true -> exists v, Dict.get k d = Some v.
Proof.
  induction d as [|[k' v] d IH]; [discriminate|].
  cbn [Dict.mem Dict.get]. destruct (String.eqb k k').
  - intros _. exists v. reflexivity.
  - exact IH.
Qed.

Lemma get_mem (k : string) (d : list (string * json)) (v : json) :
  Dict.get k d = Some v -> Dict.mem k d = true.
Proof.
  induction d as [|[k' v'] d IH]; [discriminate|].
  cbn [Dict.mem Dict.get]. destruct (String.eqb k k'); [reflexivity|].
  exact IH.
Qed.

(** The label of an entry that has a key and a secret is among the items
    of the dialog, under the number of its position. *)
Lemma key_items_In (l : list json) :
  forall i items n d label,
    key_items i l = Got items ->
    nth_error l n = Some (JDict d) ->
    Dict.mem "key" d = true ->
    Dict.mem "secret" d = true ->
    item_label (i + n) (JDict d) = Got label ->
    In label items.
Proof.
  induction l as [|e l IH]; intros i items n d label Hitems Hn Hk Hs Hlabel.
  { destruct n; discriminate. }
  destruct n as [|n].
  - cbn in Hn. injection Hn as ->.
    rewrite Nat.add_0_r in Hlabel.
    cbn [key_items contains] in Hitems. rewrite Hk, Hs, Hlabel in Hitems.
    destruct (key_items (S i) l); [| discriminate].
    injection Hitems as <-. left. reflexivity.
  - cbn [nth_error] in Hn.
    replace (i + S n) with (S i + n) in Hlabel by lia.
    cbn [key_items] in Hitems.
    destruct (contains "key" e) as [[|]|]; try discriminate.
    + destruct (contains "secret" e) as [[|]|]; try discriminate.
      * destruct (item_label i e); [| discriminate].
        destruct (key_items (S i) l) as [rest|] eqn:Hrest; [| discriminate].
        injection Hitems as <-. right.
        exact (IH _ _ _ _ _ Hrest Hn Hk Hs Hlabel).
      * exact (IH _ _ _ _ _ Hitems Hn Hk Hs Hlabel).
    + exact (IH _ _ _ _ _ Hitems Hn Hk Hs Hlabel).
Qed.

(** The label of a plain entry: its first word is the item number with a
    point, two or three words follow, and the number reads back. *)
Lemma plain_label (n : nat) (d : list (string * json)) :
  plain_entry d = true ->
  exists label first rest key secret,
    item_label (S n) (JDict d) = Got label
    /\ Dict.get "key" d = Some key
    /\ Dict.get "secret" d = Some secret
    /\ Py.split label = first :: rest
    /\ List.length rest <> 1
    /\ Py.int (Py.remove_char "." first) = Some (Z.of_nat (S n)).
Proof.
  unfold plain_entry. intros H.
  apply andb_true_iff in H. destruct H as [H Hnum].
  apply andb_true_iff in H. destruct H as [Hkey Hsec].
  destruct (Dict.get "key" d) as [[| | | |k| |]|] eqn:Hk; try discriminate.
  cbn in Hkey. apply andb_true_iff in Hkey. destruct Hkey as [Hkne Hkw].
  apply negb_true_iff, String.eqb_neq in Hkne.
  destruct (mem_get _ _ Hsec) as [secret Hs].
  destruct (str_of_positive (Pos.of_succ_nat n)) as [u [Hstr [Hu Hval]]].
  assert (Hz : Z.of_nat (S n) = Z.pos (Pos.of_succ_nat n)) by reflexivity.
  set (num := NilEmpty.string_of_uint u).
  assert (Hfirst : no_space (num ++ ".") = true).
  { rewrite no_space_append. unfold num. rewrite digits_no_space.
    reflexivity. }
  assert (Hfne : num ++ "." <> "").
  { destruct num; discriminate. }
  assert (Hint : Py.int (Py.remove_char "." (num ++ "."))
                 = Some (Z.of_nat (S n))).
  { rewrite remove_char_append. unfold num. rewrite digits_no_point.
    cbn [Py.remove_char]. change (Ascii.eqb "." ".") with true. cbv iota.
    rewrite append_nil_r, (int_of_digits u Hu), Hval, Hz. reflexivity. }
  assert (Hshape : forall shown,
             str_of_Z (Z.of_nat (S n)) ++ ". " ++ shown ++ " " ++ k
             = (num ++ ".") ++ String " " (shown ++ String " " k)).
  { intros shown. rewrite Hz, Hstr. fold num.
    rewrite append_assoc. reflexivity. }
  assert (Hunknown :
            exists label first rest,
              str_of_Z (Z.of_nat (S n)) ++ ". " ++ "[unknown number]"
              ++ " " ++ k = label
              /\ Py.split label = first :: rest
              /\ List.length rest <> 1
              /\ Py.int (Py.remove_char "." first) = Some (Z.of_nat (S n))).
  { eexists. exists (num ++ "."), ["[unknown"; "number]"; k].
    split; [reflexivity|]. split; [| split; [discriminate | exact Hint]].
    rewrite Hshape.
    rewrite split_word_then by assumption.
    change ("[unknown number]" ++ String " " k)
      with ("[unknown" ++ String " " ("number]" ++ String " " k)).
    rewrite split_word_then by (reflexivity || discriminate).
    rewrite split_word_then by (reflexivity || discriminate).
    rewrite split_last_word by assumption. reflexivity. }
  unfold item_label. rewrite Hk. cbn [Py.str].
  destruct (Dict.get "number" d) as [v|] eqn:Hn.
  - destruct (Py.truthy v) eqn:Htruthy.
    + cbn in Hnum.
      destruct v as [| | | |w| |]; try discriminate.
      cbn in Hnum. apply andb_true_iff in Hnum. destruct Hnum as [Hwne Hww].
      apply negb_true_iff, String.eqb_neq in Hwne.
      cbn [Py.str].
      eexists. exists (num ++ "."), [w; k], (JStr k), secret.
      split; [reflexivity|]. split; [reflexivity|]. split; [exact Hs|].
      split; [| split; [discriminate | exact Hint]].
      rewrite Hshape.
      rewrite split_word_then by assumption.
      rewrite split_word_then by assumption.
      rewrite split_last_word by assumption. reflexivity.
    + destruct Hunknown as [label [first [rest [Hl [Hsp [Hlen Hi]]]]]].
      exists label, first, rest, (JStr k), secret.
      rewrite Hl. repeat split; assumption.
  - cbn [Py.truthy].
    destruct Hunknown as [label [first [rest [Hl [Hsp [Hlen Hi]]]]]].
    exists label, first, rest, (JStr k), secret.
    rewrite Hl. repeat split; assumption.
Qed.

(** The dialog is shown for every list of dicts, whatever their fields. *)
Lemma key_items_dicts (l : list json) :
  forallb is_dict l = true ->
  forall i, exists items, key_items i l = Got items.
Proof.
  induction l as [|e l IH]; intros Hl i; [exists []; reflexivity|].
  cbn in Hl. apply andb_true_iff in Hl. destruct Hl as [He Hl].
  destruct e as [| | | | | |d]; try discriminate.
  destruct (IH Hl (S i)) as [items Hitems].
  cbn [key_items contains].
  destruct (Dict.mem "key" d) eqn:Hkey; [|exists items; exact Hitems].
  destruct (Dict.mem "secret" d); [|exists items; exact Hitems].
  destruct (mem_get _ _ Hkey) as [key Hget].
  unfold item_label. rewrite Hget, Hitems. eexists. reflexivity.
Qed.

(** X11: the labels of the key dialog read back.  Take a stored entry
    whose key is a word (not empty, no whitespace), that has a secret, and
    whose number is absent, falsy or a word.  Whenever the dialog is shown
    (building its items does not raise, as for every list whose entries
    are all dicts), the label of this entry is among the items offered,
    under the number of its position counted from 1 (entries before it that
    are not offered do not shift the number), and when the user picks that
    label [choose_bearer] goes on as the bearer request for the key and the
    secret of exactly that entry, with its index. *)
Theorem offered_label_reads_back (l : list json) (n : nat)
    (d : list (string * json)) :
  nth_error l n = Some (JDict d) ->
  plain_entry d = true ->
  exists label key secret,
    item_label (S n) (JDict d) = Got label
    /\ Dict.get "key" d = Some key
    /\ Dict.get "secret" d = Some secret
    /\ resolves l label key secret (Z.of_nat n)
    /\ (forallb is_dict l = true ->
        exists items, key_items 1 l = Got items)
    /\ (forall items,
           key_items 1 l = Got items ->
           In label items
           /\ forall env st,
                keys st = JList l ->
                getItem env items = (label, true) ->
                choose_bearer env st
                = request_bearer env key secret (Z.of_nat n) st).
Proof.
  intros Hn Hplain.
  destruct (plain_label n d Hplain)
    as [label [first [rest [key [secret [Hl [Hk [Hs [Hsp [Hlen Hi]]]]]]]]]].
  assert (Hres : resolves l label key secret (Z.of_nat n)).
  { exact (resolves_entry l label first rest n d key secret
             Hsp Hlen Hi Hn Hk Hs). }
  exists label, key, secret.
  split; [exact Hl|]. split; [exact Hk|]. split; [exact Hs|].
  split; [exact Hres|]. split.
  - intros Hdicts. exact (key_items_dicts l Hdicts 1).
  - intros items Hitems. split.
    + apply (key_items_In l 1 items n d label Hitems Hn).
      * exact (get_mem _ _ _ Hk).
      * exact (get_mem _ _ _ Hs).
      * exact Hl.
    + intros env st Hkeys Hget.
      destruct (use_choice_resolves env st l label key secret _ Hkeys Hres)
        as [Huse Hne].
      unfold choose_bearer, bind, gets, lift. rewrite Hkeys. cbn.
      rewrite Hitems. cbn. rewrite Hget, Hne. cbn. exact Huse.
Qed.

Lemma offered_label_reads_back_witness :
  let l := [JDict [("key", JStr Scenario.key32);
                   ("secret", JStr (String dquote (String backslash
                                      (String LF "0123456789abc"))));
                   ("number", JStr Scenario.own_number)];
            JDict [("key", JStr Scenario.key32);
                   ("secret", JStr Scenario.secret16)]] in
  let st := with_keys (JList l) (new_app FileMissing true) in
  key_items 1 l
  = Got ["1. +61400000001 0123456789abcdef0123456789abcdef";
         "2. [unknown number] 0123456789abcdef0123456789abcdef"]
  /\ choose_bearer Scenario.returning st
     = request_bearer Scenario.returning
         (JStr Scenario.key32) (JStr Scenario.secret16) 1 st.
Proof.
  cbv zeta.
  destruct (offered_label_reads_back
              [JDict [("key", JStr Scenario.key32);
                      ("secret", JStr (String dquote (String backslash
                                         (String LF "0123456789abc"))));
                      ("number", JStr Scenario.own_number)];
               JDict [("key", JStr Scenario.key32);
                      ("secret", JStr Scenario.secret16)]]
              1
              [("key", JStr Scenario.key32);
               ("secret", JStr Scenario.secret16)])
    as [label [key [secret [Hl [Hk [Hs [_ [_ Hpick]]]]]]]].
  - reflexivity.
  - reflexivity.
  - vm_compute in Hl. injection Hl as <-.
    vm_compute in Hk. injection Hk as <-.
    vm_compute in Hs. injection Hs as <-.
    split; [vm_compute; reflexivity|].
    refine (proj2 (Hpick _ _) Scenario.returning _ _ _);
      vm_compute; reflexivity.
Defined.

(** ** Start-up *)

(** X12: the start-up is local.  Whatever the keys file is, [__init__]
    issues no call, leaves the file as it found it, shows at most one box,
    and leaves the session without bearer, number, messages and rows; when
    it returns the status bar reads 'Ready'.  Hence 'Receive' and 'Send'
    pressed right after the start-up return with 'Request bearer first'
    and no call. *)
Theorem start_up_is_local (env : Env) (file : file_state) (can_write : bool)
    (fuel : nat) :
  let st := final (init env (new_app file can_write)) in
  calls st = []
  /\ keys_file st = file
  /\ writable st = can_write
  /\ bearer st = JNull
  /\ phone_number st = JNull
  /\ received_messages st = []
  /\ msg_table st = []
  /\ List.length (boxes st) <= 1
  /\ match init env (new_app file can_write) with
     | Ok _ st' => status st' = "Ready"
     | Raise _ st' => st' = new_app file can_write
     end
  /\ get_message env fuel st
     = Finished (Ok tt (with_status "Request bearer first" st))
  /\ calls (final (send_message env st)) = [].
Proof.
  destruct file as [| | |content].
  - cbn. repeat split; lia.
  - cbn. repeat split; lia.
  - cbn. repeat split; lia.
  - unfold init, bind, load_keys. cbn.
    destruct (json_load env content) as [v| |e]; cbn; repeat split; lia.
Qed.

(** X13: the start-up takes any JSON text for the keys.  When
    [json.load] gives for the keys file a value that is no list, dict or
    string ([null], a boolean, a number), [__init__] returns with that
    value as the keys and no box; every later run of [choose_bearer] then
    raises [TypeError] where it builds the items, before the dialog is
    shown, and changes nothing. *)
Theorem scalar_keys_raise (env : Env) (content : string) (v : json)
    (can_write : bool) :
  json_load env content = Loaded v ->
  iterable v = false ->
  exists st,
    init env (new_app (FileText content) can_write) = Ok tt st
    /\ keys st = v
    /\ boxes st = []
    /\ choose_bearer env st = Raise TypeError st.
Proof.
  intros Hload Hv.
  eexists. split.
  { unfold init, bind, load_keys. cbn. rewrite Hload. reflexivity. }
  split; [reflexivity|]. split; [reflexivity|].
  unfold choose_bearer. run.
  destruct v; try discriminate; reflexivity.
Qed.

Lemma scalar_keys_raise_witness :
  exists st,
    init Scenario.tight (new_app (FileText "null") true) = Ok tt st
    /\ keys st = JNull
    /\ choose_bearer Scenario.tight st = Raise TypeError st.
Proof.
  destruct (scalar_keys_raise Scenario.tight "null" JNull true)
    as [st [Hinit [Hkeys [_ Hraise]]]].
  - reflexivity.
  - reflexivity.
  - exists st. split; [exact Hinit|]. split; [exact Hkeys | exact Hraise].
Defined.
